(** * tera-api: a shallow embedding of [index.js]

    The service is an Express application that relays a share link to a
    chain of lookup strategies.  The source file holds two variants of the
    service: the four-strategy variant ([getTeraboxData] with
    [tryNepCoderApi], [tryUdayApi], [tryDirectApi], [tryPageScrape]), which
    is embedded at top level, and the earlier five-strategy variant, which is
    embedded in [Module V1].  Of the routes, [/api/get] of both variants and
    the redirecting alias [/api/list] are embedded; the static routes and
    the alias that re-enters the router are not.

    Conventions of the embedding.
    - A JavaScript string is a [list ascii] holding its UTF-8 bytes; the
      patterns of the program only name ASCII characters, so matching on
      bytes agrees with matching on code units.
    - A JavaScript number is an exact decimal [m / 10^k]; every JSON number
      literal is of this form, and dividing by 1024 keeps a number in this
      form.  The model agrees with IEEE doubles on the numbers a double
      holds exactly; the rounding of the others is not modelled.
    - Whitespace is ASCII whitespace; the Unicode spaces are not modelled.
    - The headers of an outbound request and of a response are the ones the
      program sets; what axios and Express add on their own account is not
      modelled.  A request is [req.query], the object Express parsed the
      query string into.
    - [async]/[await] is sequential composition in a state-and-exception
      monad whose state records console output and outbound requests. *)

From Stdlib Require Import String Ascii List ZArith QArith Lia Bool.

Import ListNotations.

Open Scope string_scope.
Open Scope list_scope.
Open Scope Z_scope.

(** ** Strings *)

Abbreviation str := (list ascii).

Definition lit (s : string) : str := list_ascii_of_string s.

Coercion lit : string >-> list.

Definition code (c : ascii) : Z := Z.of_nat (nat_of_ascii c).

Definition in_range (lo hi : Z) (c : ascii) : bool :=
  (lo <=? code c) && (code c <=? hi).

Definition is_digit (c : ascii) : bool := in_range 48 57 c.

Definition is_lower (c : ascii) : bool := in_range 97 122 c.

Definition is_upper (c : ascii) : bool := in_range 65 90 c.

Definition chr_eqb (a b : ascii) : bool := Ascii.eqb a b.

Fixpoint str_eqb (a b : str) : bool :=
  match a, b with
  | [], [] => true
  | x :: a', y :: b' => chr_eqb x y && str_eqb a' b'
  | _, _ => false
  end.

(** [s.startsWith(p)] *)
Fixpoint starts_with (p s : str) : bool :=
  match p, s with
  | [], _ => true
  | x :: p', y :: s' => chr_eqb x y && starts_with p' s'
  | _ :: _, [] => false
  end.

(** [s.includes(p)] *)
Fixpoint includes (s p : str) : bool :=
  starts_with p s ||
  match s with
  | [] => false
  | _ :: s' => includes s' p
  end.

Definition digit_char (d : Z) : ascii := ascii_of_nat (Z.to_nat (48 + d)).

Fixpoint digits_fuel (fuel : nat) (n : Z) (acc : str) : str :=
  match fuel with
  | O => acc
  | S fuel' =>
      let acc' := digit_char (n mod 10) :: acc in
      if n <? 10 then acc' else digits_fuel fuel' (n / 10) acc'
  end.

(** Decimal digits of a non-negative integer, most significant first. *)
Definition decimal (n : Z) : str :=
  digits_fuel (S (Z.to_nat (Z.log2 n))) n [].

(** ** JavaScript values *)

#[warning="-register-all"]
Inductive JsVal : Type :=
| JUndefined
| JNull
| JBool (b : bool)
| JNum (m : Z) (k : nat)            (* the number m / 10^k *)
| JNaN
| JStr (s : str)
| JArr (items : list JsVal)
| JObj (fields : list (str * JsVal)).

Definition JInt (n : Z) : JsVal := JNum n 0.

(** ToBoolean *)
Definition truthy (v : JsVal) : bool :=
  match v with
  | JUndefined | JNull | JNaN => false
  | JBool b => b
  | JNum m _ => negb (m =? 0)
  | JStr s => match s with [] => false | _ => true end
  | JArr _ | JObj _ => true
  end.

(** [a || b] *)
Definition jor (a b : JsVal) : JsVal := if truthy a then a else b.

(** Drop the trailing zeros of the fraction: [m / 10^k] in lowest decimal
    terms. *)
Fixpoint norm_dec (m : Z) (k : nat) : Z * nat :=
  match k with
  | O => (m, O)
  | S k' => if m mod 10 =? 0 then norm_dec (m / 10) k' else (m, k)
  end.

(** Left-pad with zeros up to the given width. *)
Definition pad_zeros (width : nat) (s : str) : str :=
  repeat "0"%char (width - length s) ++ s.

(** Drop the trailing zeros of a positive integer: [a = s * 10^e]. *)
Fixpoint strip_zeros (fuel : nat) (a e : Z) : Z * Z :=
  match fuel with
  | O => (a, e)
  | S fuel' =>
      if (a mod 10 =? 0) && negb (a =? 0)
      then strip_zeros fuel' (a / 10) (e + 1)
      else (a, e)
  end.

(** Exponent notation: the digits [ds], a point after the first when there
    are more, and the exponent [n - 1] with its sign. *)
Definition exp_form (ds : str) (n : Z) : str :=
  match ds with
  | [] => []
  | d :: rest =>
      d :: match rest with [] => [] | _ => "."%char :: rest end
  end ++ "e" ++ (if 0 <=? n - 1 then "+" else "-") ++ decimal (Z.abs (n - 1)).

(** Number::toString.  With [ds] the digits of the number without leading
    or trailing zeros and [n] the position of the decimal point after their
    start: plain notation when [-6 < n <= 21], exponent notation otherwise.
    An integer below [10^21] is printed with all its digits. *)
Definition num_to_string (m : Z) (k : nat) : str :=
  let '(m', k') := norm_dec m k in
  let sign : str := if m' <? 0 then "-" else "" in
  let a := Z.abs m' in
  match k' with
  | O =>
      if a <? 10 ^ 21 then sign ++ decimal a
      else
        let '(s, e) := strip_zeros (S (Z.to_nat (Z.log2 a))) a 0 in
        sign ++ exp_form (decimal s) (Z.of_nat (length (decimal s)) + e)
  | S _ =>
      let ds := decimal a in
      let n := Z.of_nat (length ds) - Z.of_nat k' in
      if (0 <? n) && (n <=? 21)
      then sign ++ firstn (Z.to_nat n) ds ++ "." ++ skipn (Z.to_nat n) ds
      else if (-6 <? n) && (n <=? 0)
      then sign ++ "0." ++ repeat "0"%char (Z.to_nat (- n)) ++ ds
      else sign ++ exp_form ds n
  end.

Fixpoint join (sep : str) (parts : list str) : str :=
  match parts with
  | [] => []
  | [p] => p
  | p :: rest => p ++ sep ++ join sep rest
  end.

(** ToString, as used by [String(v)], string concatenation and [parseInt]. *)
Fixpoint toString (v : JsVal) : str :=
  match v with
  | JUndefined => "undefined"
  | JNull => "null"
  | JBool true => "true"
  | JBool false => "false"
  | JNum m k => num_to_string m k
  | JNaN => "NaN"
  | JStr s => s
  | JArr items =>
      join ","
        (map (fun e => match e with
                       | JUndefined | JNull => []
                       | _ => toString e
                       end) items)
  | JObj _ => "[object Object]"
  end.

(** ** parseInt *)

Definition is_space (c : ascii) : bool :=
  in_range 9 13 c || (code c =? 32).

Fixpoint trim_start (s : str) : str :=
  match s with
  | c :: s' => if is_space c then trim_start s' else s
  | [] => []
  end.

(** Value of a character as a digit in the given radix. *)
Definition digit_value (radix : Z) (c : ascii) : option Z :=
  let v :=
    if is_digit c then code c - 48
    else if is_lower c then code c - 97 + 10
    else if is_upper c then code c - 65 + 10
    else 36 in
  if v <? radix then Some v else None.

(** The longest prefix of radix digits, folded into its value; [None] when
    the prefix is empty. *)
Fixpoint digits_prefix (radix : Z) (s : str) (acc : option Z) : option Z :=
  match s with
  | c :: s' =>
      match digit_value radix c with
      | Some d =>
          digits_prefix radix s'
            (Some (match acc with Some a => a * radix + d | None => d end))
      | None => acc
      end
  | [] => acc
  end.

(** [parseInt(s)] with no radix argument; [None] is NaN.  The result is the
    integer the digits spell.  JavaScript holds the double nearest to it:
    the same number whenever a double holds the integer, as it does every
    integer up to 2^53 in magnitude. *)
Definition parseInt (input : str) : option Z :=
  let s := trim_start input in
  let '(sign, s) :=
    match s with
    | c :: s' =>
        if chr_eqb c "-" then (-1, s')
        else if chr_eqb c "+" then (1, s')
        else (1, s)
    | [] => (1, s)
    end in
  let '(radix, s) :=
    if starts_with "0x" s || starts_with "0X" s
    then (16, skipn 2 s) else (10, s) in
  match digits_prefix radix s None with
  | Some n => Some (sign * n)
  | None => None
  end.

(** ** Number.prototype.toFixed *)

(** [x.toFixed(f)] for the number [x = m / 10^k]: from [10^21] on, the
    number as [ToString] gives it; below, the integer [n] nearest to
    [x * 10^f], the larger one on a tie, printed with [f] decimals. *)
Definition toFixed (f : nat) (m : Z) (k : nat) : str :=
  let sign : str := if m <? 0 then "-" else "" in
  let a := Z.abs m in
  if 10 ^ 21 * 10 ^ Z.of_nat k <=? a then sign ++ num_to_string a k
  else
    let n := (2 * a * 10 ^ Z.of_nat f + 10 ^ Z.of_nat k)
             / (2 * 10 ^ Z.of_nat k) in
    let ds := if n =? 0 then lit "0" else decimal n in
    let ds :=
      match f with
      | O => ds
      | S _ =>
          let ds := pad_zeros (S f) ds in
          let len := length ds in
          firstn (len - f) ds ++ "." ++ skipn (len - f) ds
      end in
    sign ++ ds.

(** ** formatSize *)

Definition u : list str :=
  ["B" : str; "KB" : str; "MB" : str; "GB" : str; "TB" : str].

(** [s >= 1024] for [s = m / 10^k] *)
Definition ge_1024 (s : Z * nat) : bool :=
  1024 * 10 ^ Z.of_nat (snd s) <=? fst s.

(** [s / 1024]: one 1024th is [9765625 / 10^10]. *)
Definition div_1024 (s : Z * nat) : Z * nat :=
  (fst s * 9765625, (snd s + 10)%nat).

(** [while (s >= 1024 && i < 4) { s /= 1024; i++; }] *)
Fixpoint size_loop (fuel : nat) (s : Z * nat) (i : nat) : (Z * nat) * nat :=
  match fuel with
  | O => (s, i)
  | S fuel' =>
      if ge_1024 s && (i <? 4)%nat
      then size_loop fuel' (div_1024 s) (S i)
      else (s, i)
  end.

Definition formatSize (bytes : JsVal) : str :=
  if negb (truthy bytes) then "Unknown"
  else
    match parseInt (toString bytes) with
    | None => toString bytes
    | Some b =>
        let '(s, i) := size_loop 4 (b, O) 0 in
        toFixed 2 (fst s) (snd s) ++ " " ++ nth i u "undefined"
    end.

(** The value of a digit string read left to right from [a]. *)
Definition read_digits (s : str) (a : Z) : Z :=
  fold_left (fun acc c => acc * 10 + (code c - 48)) s a.

(** ** Regular expressions

    A backtracking matcher for the fragment of JavaScript regular
    expressions the program uses: character classes, concatenation, greedy
    [?], greedy and lazy [*] and [+] over a character class, one capture
    group and positive lookahead.  The matcher takes the first way to match
    in the order the JavaScript semantics tries them. *)

Inductive regex : Type :=
| Eps
| Cls (p : ascii -> bool)
| Cat (r1 r2 : regex)
| Opt (r : regex)
| Star (p : ascii -> bool)
| StarLazy (p : ascii -> bool)
| Grp (r : regex)
| Ahead (r : regex).

Definition Plus (p : ascii -> bool) : regex := Cat (Cls p) (Star p).

(** Canonicalize of the [i] flag, on ASCII. *)
Definition upper (c : ascii) : ascii :=
  if is_lower c then ascii_of_nat (nat_of_ascii c - 32) else c.

Definition Chr (c : ascii) : regex := Cls (chr_eqb c).

Definition ChrI (c : ascii) : regex := Cls (fun x => chr_eqb (upper x) (upper c)).

Fixpoint Lit (s : str) : regex :=
  match s with
  | [] => Eps
  | c :: s' => Cat (Chr c) (Lit s')
  end.

Fixpoint LitI (s : str) : regex :=
  match s with
  | [] => Eps
  | c :: s' => Cat (ChrI c) (LitI s')
  end.

(** [run r X inp cap k] matches [r] at the start of [inp] and hands the rest
    of the input and the capture to the continuation [k]; a [None] from [k]
    makes the matcher backtrack. *)
Fixpoint run (r : regex) (X : Type) (inp : str) (cap : option str)
    (k : str -> option str -> option X) {struct r} : option X :=
  match r with
  | Eps => k inp cap
  | Cls p =>
      match inp with
      | c :: rest => if p c then k rest cap else None
      | [] => None
      end
  | Cat r1 r2 => run r1 X inp cap (fun rest cap' => run r2 X rest cap' k)
  | Opt r1 =>
      match run r1 X inp cap k with
      | Some x => Some x
      | None => k inp cap
      end
  | Star p =>
      (fix star (s : str) : option X :=
         match s with
         | c :: rest =>
             if p c
             then match star rest with
                  | Some x => Some x
                  | None => k s cap
                  end
             else k s cap
         | [] => k s cap
         end) inp
  | StarLazy p =>
      (fix star (s : str) : option X :=
         match k s cap with
         | Some x => Some x
         | None =>
             match s with
             | c :: rest => if p c then star rest else None
             | [] => None
             end
         end) inp
  | Grp r1 =>
      run r1 X inp cap
        (fun rest _ => k rest (Some (firstn (length inp - length rest) inp)))
  | Ahead r1 =>
      match run r1 (option str) inp cap (fun _ cap' => Some cap') with
      | Some cap' => k inp cap'
      | None => None
      end
  end.

(** The pattern matches at the very start of [s]; the result is the capture
    group. *)
Definition match_here (r : regex) (s : str) : option (option str) :=
  run r (option str) s None (fun _ cap => Some cap).

(** [s.match(r)] for a pattern without the [g] flag: the leftmost match.
    [None] is [null]; otherwise the capture group [match[1]]. *)
Fixpoint search (r : regex) (s : str) : option (option str) :=
  match match_here r s with
  | Some cap => Some cap
  | None =>
      match s with
      | [] => None
      | _ :: s' => search r s'
      end
  end.

(** The value of [match[1]]. *)
Definition group1 (cap : option str) : JsVal :=
  match cap with
  | Some s => JStr s
  | None => JUndefined
  end.

(** [s.replace(/\\/g, '')] *)
Definition strip_backslashes (s : str) : str :=
  filter (fun c => negb (chr_eqb c "\")) s.

(** ** Outcomes: a returned value or a thrown [Error] with its message *)

Inductive Outcome (A : Type) : Type :=
| Ret (a : A)
| Throw (message : str).

Arguments Ret {A} a.
Arguments Throw {A} message.

(** ** UrlParser *)

(** [[a-zA-Z0-9_-]] *)
Definition token_char (c : ascii) : bool :=
  is_lower c || is_upper c || is_digit c || chr_eqb c "_" || chr_eqb c "-".

(** [/\/s\/(1?[a-zA-Z0-9_-]+)/i] *)
Definition re_path : regex :=
  Cat (LitI "/s/") (Grp (Cat (Opt (ChrI "1")) (Plus token_char))).

(** [/surl=(1?[a-zA-Z0-9_-]+)/i] *)
Definition re_query : regex :=
  Cat (LitI "surl=") (Grp (Cat (Opt (ChrI "1")) (Plus token_char))).

Definition extractSurl (url : str) : Outcome JsVal :=
  let m :=
    match search re_path url with
    | Some cap => Some cap
    | None => search re_query url
    end in
  match m with
  | Some cap => Ret (group1 cap)
  | None => Throw "Invalid TeraBox URL"
  end.

Definition getBaseUrl (url : str) : str :=
  if includes url "1024tera.com" then "https://www.1024tera.com"
  else if includes url "1024terabox.com" then "https://www.1024terabox.com"
  else if includes url "4funbox.com" then "https://www.4funbox.com"
  else if includes url "teraboxapp.com" then "https://www.teraboxapp.com"
  else "https://www.terabox.com".

(** ** Property access *)

Fixpoint lookup (name : str) (fields : list (str * JsVal)) : JsVal :=
  match fields with
  | [] => JUndefined
  | (key, v) :: rest => if str_eqb key name then v else lookup name rest
  end.

(** [v.name] on a value that is neither [null] nor [undefined], for the
    property names of the program (none of them is a built-in property of
    strings, numbers or arrays). *)
Definition field (v : JsVal) (name : str) : JsVal :=
  match v with
  | JObj fields => lookup name fields
  | _ => JUndefined
  end.

(** [v.name]: a TypeError on [null] and [undefined]. *)
Definition prop (v : JsVal) (name : str) : Outcome JsVal :=
  match v with
  | JUndefined =>
      Throw ("Cannot read properties of undefined (reading '" ++ name ++ "')")
  | JNull =>
      Throw ("Cannot read properties of null (reading '" ++ name ++ "')")
  | _ => Ret (field v name)
  end.

(** [v?.name] *)
Definition opt_field (v : JsVal) (name : str) : JsVal :=
  match v with
  | JUndefined | JNull => JUndefined
  | _ => field v name
  end.

(** [v === n] for an integer literal [n] *)
Definition is_int (n : Z) (v : JsVal) : bool :=
  match v with
  | JNum m k => m =? n * 10 ^ Z.of_nat k
  | _ => false
  end.

(** ** The world: console, clock and network *)

Inductive Event : Type :=
| ELog (line : str)                               (* console.log *)
| EError (line : str)                             (* console.error *)
| EGet (url : str) (headers : list (str * str)).  (* an outbound GET *)

(** The headers of an [EGet] are the headers the program sets on the
    request: the defaults of the axios instance and those of the call.  The
    headers axios adds on its own account ([Accept], [Accept-Encoding] and
    the like, which depend on its version) are not part of the event. *)

(** What an outbound request comes back with: a failure (network error,
    timeout, non-2xx status) with its message, or the response body. *)
Inductive Reply : Type :=
| NetFail (message : str)
| NetOk (data : JsVal).

(** The network answers a request knowing everything that happened before. *)
Definition Net : Type := list Event -> str -> list (str * str) -> Reply.

Record World : Type := mkWorld {
  trace : list Event;   (* events so far, oldest first *)
  clock : list Z        (* the readings [Date.now()] will return *)
}.

(** Computations: sequential code that may throw, over the world. *)
Definition M (A : Type) : Type := Net -> World -> Outcome A * World.

Definition ret {A} (a : A) : M A := fun _ w => (Ret a, w).

Definition throw {A} (message : str) : M A := fun _ w => (Throw message, w).

Definition bind {A B} (m : M A) (f : A -> M B) : M B :=
  fun net w =>
    match m net w with
    | (Ret a, w') => f a net w'
    | (Throw e, w') => (Throw e, w')
    end.

(** [try { body } catch (e) { handler(e.message) }] *)
Definition try_catch {A} (body : M A) (handler : str -> M A) : M A :=
  fun net w =>
    match body net w with
    | (Ret a, w') => (Ret a, w')
    | (Throw e, w') => handler e net w'
    end.

Definition lift {A} (o : Outcome A) : M A := fun _ w => (o, w).

Declare Scope js_scope.
Delimit Scope js_scope with js.

Notation "x <- m ;; k" := (bind m (fun x => k))
  (at level 61, m at next level, right associativity) : js_scope.

Notation "m ;; k" := (bind m (fun _ => k))
  (at level 61, right associativity) : js_scope.

Open Scope js_scope.

Definition emit (e : Event) : M unit :=
  fun _ w => (Ret tt, mkWorld (trace w ++ [e]) (clock w)).

Definition console_log (line : str) : M unit := emit (ELog line).

Definition console_error (line : str) : M unit := emit (EError line).

(** Reading the clock uses up one reading. *)
Definition tick (w : World) : Z * World :=
  match clock w with
  | t :: rest => (t, mkWorld (trace w) rest)
  | [] => (0, w)
  end.

(** [Date.now()] *)
Definition Date_now : M Z :=
  fun _ w => let '(t, w') := tick w in (Ret t, w').

Definition user_agent : str :=
  "Mozilla/5.0 (Windows NT 10.0; Win64; x64) AppleWebKit/537.36 (KHTML, like Gecko) Chrome/120.0.0.0 Safari/537.36".

(** The headers of the axios instance [client]. *)
Definition client_defaults : list (str * str) :=
  [("User-Agent" : str, user_agent)].

Definition has_header (name : str) (headers : list (str * str)) : bool :=
  existsb (fun h => str_eqb (fst h) name) headers.

(** [(await client.get(url, { headers })).data]: the headers the program
    sets are the instance defaults overridden by those of the call. *)
Definition client_get (url : str) (headers : list (str * str)) : M JsVal :=
  fun net w =>
    let sent :=
      filter (fun h => negb (has_header (fst h) headers)) client_defaults
      ++ headers in
    let w' := mkWorld (trace w ++ [EGet url sent]) (clock w) in
    match net (trace w) url sent with
    | NetOk data => (Ret data, w')
    | NetFail e => (Throw e, w')
    end.

(** ** FallbackOrchestrator *)

Definition obj (fields : list (string * JsVal)) : JsVal :=
  JObj (map (fun f => (lit (fst f), snd f)) fields).

Section Orchestrator.

(** The four strategies, in the order the orchestrator names them. *)
Variables tryNepCoderApi tryUdayApi tryDirectApi tryPageScrape :
  str -> M JsVal.

(** One block
    [try { console.log(label); const result = await strategy(shareUrl);
           if (result.success) return result; }
     catch (e) { errors.push(tag + e.message); }]:
    [Some result] when the function returns from inside the block. *)
Definition attempt (label tag : str) (strategy : str -> M JsVal)
    (shareUrl : str) (errors : list str) : M (option JsVal * list str) :=
  try_catch
    (console_log label ;;
     result <- strategy shareUrl ;;
     success <- lift (prop result "success") ;;
     if truthy success then ret (Some result, errors)
     else ret (None, errors))
    (fun message => ret (None, errors ++ [tag ++ message])).

Definition getTeraboxData (shareUrl : str) : M JsVal :=
  a1 <- attempt "Trying API 1..." "API1: " tryNepCoderApi shareUrl [] ;;
  match a1 with
  | (Some result, _) => ret result
  | (None, errors) =>
  a2 <- attempt "Trying API 2..." "API2: " tryUdayApi shareUrl errors ;;
  match a2 with
  | (Some result, _) => ret result
  | (None, errors) =>
  a3 <- attempt "Trying Direct API..." "Direct: " tryDirectApi shareUrl errors ;;
  match a3 with
  | (Some result, _) => ret result
  | (None, errors) =>
  a4 <- attempt "Trying Scrape..." "Scrape: " tryPageScrape shareUrl errors ;;
  match a4 with
  | (Some result, _) => ret result
  | (None, errors) =>
      ret (obj [("success", JBool false);
                ("error", JStr "All methods failed");
                ("details", JArr (map JStr errors))])
  end end end end.

End Orchestrator.

(** ** JSON.parse

    A recursive-descent reader of JSON text.  [Starved] marks a run that
    used up its fuel; [JSON_parse] gives it enough for that never to happen
    (lemma [parse_value_fed]).  A [\uXXXX] escape is stored as the UTF-8
    bytes of that code unit. *)

Definition dq : ascii := "034"%char.

Inductive Parsed (A : Type) : Type :=
| Done (a : A) (rest : str)
| Bad
| Starved.

Arguments Done {A} a rest.
Arguments Bad {A}.
Arguments Starved {A}.

Definition is_json_ws (c : ascii) : bool :=
  (code c =? 32) || (code c =? 9) || (code c =? 10) || (code c =? 13).

Fixpoint skip_ws (s : str) : str :=
  match s with
  | c :: s' => if is_json_ws c then skip_ws s' else s
  | [] => []
  end.

Definition byte_of (n : Z) : ascii := ascii_of_nat (Z.to_nat n).

Definition utf8 (cp : Z) : str :=
  if cp <? 128 then [byte_of cp]
  else if cp <? 2048 then [byte_of (192 + cp / 64); byte_of (128 + cp mod 64)]
  else [byte_of (224 + cp / 4096); byte_of (128 + (cp / 64) mod 64);
        byte_of (128 + cp mod 64)].

Definition hex4 (h1 h2 h3 h4 : ascii) : option Z :=
  match digit_value 16 h1, digit_value 16 h2,
        digit_value 16 h3, digit_value 16 h4 with
  | Some a, Some b, Some c, Some d => Some (((a * 16 + b) * 16 + c) * 16 + d)
  | _, _, _, _ => None
  end.

Definition simple_escape (e : ascii) : option ascii :=
  if chr_eqb e dq then Some dq
  else if chr_eqb e "\" then Some "\"%char
  else if chr_eqb e "/" then Some "/"%char
  else if chr_eqb e "b" then Some "008"%char
  else if chr_eqb e "f" then Some "012"%char
  else if chr_eqb e "n" then Some "010"%char
  else if chr_eqb e "r" then Some "013"%char
  else if chr_eqb e "t" then Some "009"%char
  else None.

(** The characters of a string literal after its opening quote, up to the
    closing quote. *)
Fixpoint parse_string_body (s : str) : option (str * str) :=
  match s with
  | [] => None
  | c :: rest =>
      if chr_eqb c dq then Some ([], rest)
      else if chr_eqb c "\" then
        match rest with
        | [] => None
        | e :: rest1 =>
            if chr_eqb e "u" then
              match rest1 with
              | h1 :: h2 :: h3 :: h4 :: rest2 =>
                  match hex4 h1 h2 h3 h4, parse_string_body rest2 with
                  | Some cp, Some (body, after) => Some (utf8 cp ++ body, after)
                  | _, _ => None
                  end
              | _ => None
              end
            else
              match simple_escape e, parse_string_body rest1 with
              | Some x, Some (body, after) => Some (x :: body, after)
              | _, _ => None
              end
        end
      else if code c <? 32 then None
      else
        match parse_string_body rest with
        | Some (body, after) => Some (c :: body, after)
        | None => None
        end
  end.

Fixpoint span_digits (s : str) : str * str :=
  match s with
  | c :: rest =>
      if is_digit c
      then let '(ds, after) := span_digits rest in (c :: ds, after)
      else ([], s)
  | [] => ([], [])
  end.

(** The number [m * 10^e] as a value. *)
Definition decimal_value (m e : Z) : JsVal :=
  if 0 <=? e then JNum (m * 10 ^ e) 0
  else let '(m', k') := norm_dec m (Z.to_nat (- e)) in JNum m' k'.

(** A number literal: an optional minus sign; an integer part that is 0 or
    starts with a non-zero digit; an optional fraction of a point and
    digits; an optional exponent of e or E, a sign and digits. *)
Definition parse_number (s : str) : option (JsVal * str) :=
  let '(sign, s) :=
    match s with
    | c :: rest => if chr_eqb c "-" then (-1, rest) else (1, s)
    | [] => (1, s)
    end in
  let '(ip, s) := span_digits s in
  let int_ok :=
    match ip with
    | [] => false
    | d :: ds => negb (chr_eqb d "0") || match ds with [] => true | _ => false end
    end in
  if negb int_ok then None else
  let frac :=
    match s with
    | c :: rest =>
        if chr_eqb c "." then
          match span_digits rest with
          | ([], _) => None
          | (fp, after) => Some (fp, after)
          end
        else Some ([], s)
    | [] => Some ([], s)
    end in
  match frac with
  | None => None
  | Some (fp, s) =>
      let m := sign * read_digits (ip ++ fp) 0 in
      let k := Z.of_nat (length fp) in
      match s with
      | c :: rest =>
          if chr_eqb c "e" || chr_eqb c "E" then
            let '(esign, rest) :=
              match rest with
              | x :: rest' =>
                  if chr_eqb x "-" then (-1, rest')
                  else if chr_eqb x "+" then (1, rest')
                  else (1, rest)
              | [] => (1, rest)
              end in
            match span_digits rest with
            | ([], _) => None
            | (ed, after) =>
                Some (decimal_value m (esign * read_digits ed 0 - k), after)
            end
          else Some (decimal_value m (- k), s)
      | [] => Some (decimal_value m (- k), s)
      end
  end.

(** [{...}] keeps the last value given to a key, at the key's first place. *)
Fixpoint set_field (key : str) (v : JsVal) (fields : list (str * JsVal))
  : list (str * JsVal) :=
  match fields with
  | [] => [(key, v)]
  | (k', v') :: rest =>
      if str_eqb k' key then (k', v) :: rest
      else (k', v') :: set_field key v rest
  end.

Definition expect (word : str) (v : JsVal) (s : str) : Parsed JsVal :=
  if starts_with word s then Done v (skipn (length word) s) else Bad.

Fixpoint parse_value (fuel : nat) (s : str) : Parsed JsVal :=
  match fuel with
  | O => Starved
  | S fuel' =>
      match skip_ws s with
      | [] => Bad
      | c :: rest =>
          if chr_eqb c "n" then expect "ull" JNull rest
          else if chr_eqb c "t" then expect "rue" (JBool true) rest
          else if chr_eqb c "f" then expect "alse" (JBool false) rest
          else if chr_eqb c dq then
            match parse_string_body rest with
            | Some (body, after) => Done (JStr body) after
            | None => Bad
            end
          else if chr_eqb c "[" then
            match skip_ws rest with
            | c' :: after =>
                if chr_eqb c' "]" then Done (JArr []) after
                else
                  match parse_elements fuel' rest with
                  | Done items after' => Done (JArr items) after'
                  | Bad => Bad
                  | Starved => Starved
                  end
            | [] => Bad
            end
          else if chr_eqb c "{" then
            match skip_ws rest with
            | c' :: after =>
                if chr_eqb c' "}" then Done (JObj []) after
                else
                  match parse_members fuel' rest with
                  | Done members after' =>
                      Done (JObj (fold_left
                                    (fun acc kv => set_field (fst kv) (snd kv) acc)
                                    members [])) after'
                  | Bad => Bad
                  | Starved => Starved
                  end
            | [] => Bad
            end
          else
            match parse_number (c :: rest) with
            | Some (v, after) => Done v after
            | None => Bad
            end
      end
  end

  (* value (, value)* ] *)
with parse_elements (fuel : nat) (s : str) : Parsed (list JsVal) :=
  match fuel with
  | O => Starved
  | S fuel' =>
      match parse_value fuel' s with
      | Done v after =>
          match skip_ws after with
          | c :: after' =>
              if chr_eqb c "]" then Done [v] after'
              else if chr_eqb c "," then
                match parse_elements fuel' after' with
                | Done vs after'' => Done (v :: vs) after''
                | Bad => Bad
                | Starved => Starved
                end
              else Bad
          | [] => Bad
          end
      | Bad => Bad
      | Starved => Starved
      end
  end

  (* string : value (, string : value)* } *)
with parse_members (fuel : nat) (s : str) : Parsed (list (str * JsVal)) :=
  match fuel with
  | O => Starved
  | S fuel' =>
      match skip_ws s with
      | q :: rest =>
          if chr_eqb q dq then
            match parse_string_body rest with
            | Some (key, after) =>
                match skip_ws after with
                | c :: after1 =>
                    if chr_eqb c ":" then
                      match parse_value fuel' after1 with
                      | Done v after2 =>
                          match skip_ws after2 with
                          | c' :: after3 =>
                              if chr_eqb c' "}" then Done [(key, v)] after3
                              else if chr_eqb c' "," then
                                match parse_members fuel' after3 with
                                | Done ms after4 => Done ((key, v) :: ms) after4
                                | Bad => Bad
                                | Starved => Starved
                                end
                              else Bad
                          | [] => Bad
                          end
                      | Bad => Bad
                      | Starved => Starved
                      end
                    else Bad
                | [] => Bad
                end
            | None => Bad
            end
          else Bad
      | [] => Bad
      end
  end.

(** [JSON.parse(text)]; [None] is a SyntaxError. *)
Definition JSON_parse (text : str) : option JsVal :=
  match parse_value (2 * length text + 2) text with
  | Done v rest => match skip_ws rest with [] => Some v | _ => None end
  | Bad | Starved => None
  end.

(** ** Lookup strategies *)

Definition hex_digit (d : Z) : ascii :=
  if d <? 10 then ascii_of_nat (Z.to_nat (48 + d))
  else ascii_of_nat (Z.to_nat (55 + d)).

(** The characters [encodeURIComponent] leaves as they are. *)
Definition uri_unreserved (c : ascii) : bool :=
  is_lower c || is_upper c || is_digit c ||
  existsb (chr_eqb c) ("-_.!~*'()" : str).

Definition encodeURIComponent (s : str) : str :=
  flat_map
    (fun c =>
       if uri_unreserved c then [c]
       else ["%"%char; hex_digit (code c / 16); hex_digit (code c mod 16)])
    s.

Definition null_or (v : JsVal) : JsVal := jor v JNull.

(** [throw new Error(m)] unless the condition holds *)
Definition guard (cond : bool) (message : str) : M unit :=
  if cond then ret tt else throw message.

Definition tryNepCoderApi (url : str) : M JsVal :=
  let apiUrl :=
    "https://teraboxvideodownloader.nepcoderdevs.workers.dev/api/get-info?data="
    ++ encodeURIComponent url in
  data <- client_get apiUrl [] ;;
  guard (truthy data) "Empty response" ;;
  if truthy (jor (jor (field data "file_name") (field data "resolutions"))
                 (field data "download_link"))
  then
    ret (obj
      [("success", JBool true);
       ("data", obj
          [("filename", jor (field data "file_name") (JStr "Unknown"));
           ("size", jor (jor (field data "size") (field data "sizebytes"))
                        (JInt 0));
           ("sizeFormatted",
            JStr (formatSize (jor (field data "size") (field data "sizebytes"))));
           ("thumb", null_or (field data "thumb"));
           ("downloadUrl",
            null_or (jor (field data "download_link") (field data "dlink")));
           ("resolutions", null_or (field data "resolutions"));
           ("fastDownload",
            null_or (opt_field (field data "resolutions") "Fast Download"));
           ("hdVideo",
            null_or (opt_field (field data "resolutions") "HD Video"))]);
       ("source", JStr "nepcoderdevs")])
  else throw "Invalid response format".

Definition tryUdayApi (url : str) : M JsVal :=
  let apiUrl :=
    "https://terabox.udayscriptsx.workers.dev/api/get-info?data="
    ++ encodeURIComponent url in
  data <- client_get apiUrl [] ;;
  guard (truthy data) "Empty response" ;;
  if truthy (jor (field data "file_name") (field data "download_link"))
  then
    ret (obj
      [("success", JBool true);
       ("data", obj
          [("filename", jor (field data "file_name") (JStr "Unknown"));
           ("size", jor (field data "size") (JInt 0));
           ("sizeFormatted", JStr (formatSize (field data "size")));
           ("thumb", null_or (field data "thumb"));
           ("downloadUrl",
            null_or (jor (field data "download_link") (field data "dlink")));
           ("resolutions", null_or (field data "resolutions"))]);
       ("source", JStr "udayscripts")])
  else throw "Invalid response format".

(** [items.map(f)] for a callback that may throw *)
Fixpoint map_outcome {A B} (f : A -> Outcome B) (items : list A)
  : Outcome (list B) :=
  match items with
  | [] => Ret []
  | x :: rest =>
      match f x with
      | Throw e => Throw e
      | Ret y =>
          match map_outcome f rest with
          | Throw e => Throw e
          | Ret ys => Ret (y :: ys)
          end
      end
  end.

(** The callback of [tryDirectApi]'s [map]. *)
Definition direct_entry (f : JsVal) : Outcome JsVal :=
  match prop f "fs_id" with
  | Throw e => Throw e
  | Ret fs_id =>
      Ret (obj
        [("fs_id", JStr (toString fs_id));
         ("filename", field f "server_filename");
         ("size", field f "size");
         ("sizeFormatted", JStr (formatSize (field f "size")));
         ("isDir", JBool (is_int 1 (field f "isdir")));
         ("dlink", null_or (field f "dlink"));
         ("thumb",
          null_or (jor (opt_field (field f "thumbs") "url3")
                       (opt_field (field f "thumbs") "url2")))])
  end.

Definition direct_headers (baseUrl surl : str) : list (str * str) :=
  [("User-Agent" : str, user_agent);
   ("Accept" : str, "application/json, text/plain, */*" : str);
   ("Referer" : str, baseUrl ++ "/s/" ++ surl)].

Definition shorturlinfo_url (baseUrl surl : str) : str :=
  baseUrl ++ "/api/shorturlinfo?shorturl=" ++ surl ++ "&root=1".

Definition share_list_url (baseUrl surl : str) : str :=
  baseUrl ++ "/share/list?shorturl=" ++ surl ++ "&dir=/&root=1&page=1&num=100".

Definition tryDirectApi (url : str) : M JsVal :=
  surl <- lift (extractSurl url) ;;
  let surl := toString surl in
  let baseUrl := getBaseUrl url in
  let headers := direct_headers baseUrl surl in
  (* Get share info *)
  let infoUrl := shorturlinfo_url baseUrl surl in
  info <- client_get infoUrl headers ;;
  errno <- lift (prop info "errno") ;;
  guard (is_int 0 errno)
    ("Share info error: " ++ toString (jor (field info "errmsg") errno)) ;;
  let shareInfo :=
    obj [("shareid", field info "shareid");
         ("uk", field info "uk");
         ("sign", field info "sign");
         ("timestamp", field info "timestamp")] in
  (* Get file list *)
  let listUrl := share_list_url baseUrl surl in
  listing <- client_get listUrl headers ;;
  errno <- lift (prop listing "errno") ;;
  guard (is_int 0 errno)
    ("File list error: " ++ toString (jor (field listing "errmsg") errno)) ;;
  match jor (field listing "list") (JArr []) with
  | JArr items =>
      files <- lift (map_outcome direct_entry items) ;;
      guard (negb (length files =? 0)%nat) "No files found" ;;
      ret (obj
        [("success", JBool true);
         ("data", obj [("files", JArr files); ("shareInfo", shareInfo)]);
         ("source", JStr "direct")])
  | _ => throw "(listRes.data.list || []).map is not a function"
  end.

(** *** Page scrape *)

Definition any_char (c : ascii) : bool := true.

Definition not_dq (c : ascii) : bool := negb (chr_eqb c dq).

Definition comma_or_brace (c : ascii) : bool := chr_eqb c "," || chr_eqb c "}".

Definition quoted (name : str) : str := dq :: name ++ [dq].

Fixpoint seq_re (rs : list regex) : regex :=
  match rs with
  | [] => Eps
  | [r] => r
  | r :: rest => Cat r (seq_re rest)
  end.

(** The patterns of the scrape, written here with [Q] for the double
    quote character.

    [/Qlist Q\s*:\s*(\[[\s\S]*?\])(?=\s*[,}])/] without the space after
    [list]. *)
Definition re_list : regex :=
  seq_re [Lit (quoted "list"); Star is_space; Chr ":"; Star is_space;
          Grp (seq_re [Chr "["; StarLazy any_char; Chr "]"]);
          Ahead (seq_re [Star is_space; Cls comma_or_brace])].

(** [/Qserver_filenameQ\s*:\s*Q([^Q]+)Q/] *)
Definition re_filename : regex :=
  seq_re [Lit (quoted "server_filename"); Star is_space; Chr ":";
          Star is_space; Chr dq; Grp (Plus not_dq); Chr dq].

(** [/Qfs_idQ\s*:\s*(\d+)/] *)
Definition re_fs_id : regex :=
  seq_re [Lit (quoted "fs_id"); Star is_space; Chr ":"; Star is_space;
          Grp (Plus is_digit)].

(** [/QsizeQ\s*:\s*(\d+)/] *)
Definition re_size : regex :=
  seq_re [Lit (quoted "size"); Star is_space; Chr ":"; Star is_space;
          Grp (Plus is_digit)].

(** [/QdlinkQ\s*:\s*Q([^Q]+)Q/] *)
Definition re_dlink : regex :=
  seq_re [Lit (quoted "dlink"); Star is_space; Chr ":"; Star is_space;
          Chr dq; Grp (Plus not_dq); Chr dq].

(** The value of [parseInt(s)] *)
Definition parseInt_val (s : str) : JsVal :=
  match parseInt s with
  | Some n => JInt n
  | None => JNaN
  end.

(** The callback of [tryPageScrape]'s [map]. *)
Definition scrape_entry (f : JsVal) : Outcome JsVal :=
  match prop f "fs_id" with
  | Throw e => Throw e
  | Ret fs_id =>
      Ret (obj
        [("fs_id", JStr (toString fs_id));
         ("filename", jor (field f "server_filename") (field f "filename"));
         ("size", field f "size");
         ("sizeFormatted", JStr (formatSize (field f "size")));
         ("dlink", null_or (field f "dlink"));
         ("thumb", null_or (opt_field (field f "thumbs") "url3"))])
  end.

(** The [try] block over the captured list: [Ret (Some result)] when it
    returns the listing, [Ret None] when it runs to its end, [Throw] when
    [JSON.parse] or the mapping throws. *)
Definition scrape_list (capture : JsVal) : Outcome (option JsVal) :=
  match JSON_parse (toString capture) with
  | None => Throw "Unexpected token in JSON"
  | Some (JArr items) =>
      match map_outcome scrape_entry items with
      | Throw e => Throw e
      | Ret files =>
          if (0 <? length files)%nat
          then Ret (Some (obj [("success", JBool true);
                               ("data", obj [("files", JArr files)]);
                               ("source", JStr "scrape")]))
          else Ret None
      end
  | Some _ => Throw "list.map is not a function"
  end.

(** The single-file extraction at the end of [tryPageScrape]. *)
Definition scrape_single (html : str) : Outcome JsVal :=
  let fnMatch := search re_filename html in
  let fsMatch := search re_fs_id html in
  let sizeMatch := search re_size html in
  let dlinkMatch := search re_dlink html in
  match fnMatch, fsMatch with
  | Some fn, Some fs =>
      Ret (obj
        [("success", JBool true);
         ("data", obj
            [("files", JArr
               [obj
                  [("fs_id", group1 fs);
                   ("filename", JStr (strip_backslashes (toString (group1 fn))));
                   ("size",
                    match sizeMatch with
                    | Some sz => parseInt_val (toString (group1 sz))
                    | None => JInt 0
                    end);
                   ("sizeFormatted",
                    match sizeMatch with
                    | Some sz =>
                        JStr (formatSize (parseInt_val (toString (group1 sz))))
                    | None => JStr "Unknown"
                    end);
                   ("dlink",
                    match dlinkMatch with
                    | Some dl =>
                        JStr (strip_backslashes (toString (group1 dl)))
                    | None => JNull
                    end)]])]);
         ("source", JStr "scrape")])
  | _, _ => Throw "Could not extract data from page"
  end.

(** The body of [tryPageScrape] once the page is in hand as a string. *)
Definition scrape_html (html : str) : Outcome JsVal :=
  if includes html "verify" || includes html "验证"
  then Throw "Verification required"
  else
    (* Try to extract file list *)
    let listMatch := search re_list html in
    let listed :=
      match listMatch with
      | Some capture =>
          match scrape_list (group1 capture) with
          | Ret r => Ret r
          | Throw _ => Throw "Parse error"
          end
      | None => Ret None
      end in
    match listed with
    | Throw e => Throw e
    | Ret (Some result) => Ret result
    | Ret None => scrape_single html   (* Try single file *)
    end.

(** SameValueZero against a string, as [Array.prototype.includes] does. *)
Definition array_includes (items : list JsVal) (s : str) : bool :=
  existsb (fun v => match v with JStr x => str_eqb x s | _ => false end) items.

Definition tryPageScrape (url : str) : M JsVal :=
  html <- client_get url
    [("Accept" : str,
      "text/html,application/xhtml+xml,application/xml;q=0.9,*/*;q=0.8" : str)] ;;
  match html with
  | JStr text => lift (scrape_html text)
  | JUndefined =>
      throw "Cannot read properties of undefined (reading 'includes')"
  | JNull => throw "Cannot read properties of null (reading 'includes')"
  | JArr items =>
      if array_includes items "verify" || array_includes items "验证"
      then throw "Verification required"
      else throw "html.match is not a function"
  | _ => throw "html.includes is not a function"
  end.

(** The chain as the application wires it. *)
Definition getTeraboxData_app : str -> M JsVal :=
  getTeraboxData tryNepCoderApi tryUdayApi tryDirectApi tryPageScrape.

(** ** HttpFacade *)

Record Req : Type := mkReq {
  query : list (str * JsVal)   (* [req.query], as Express parsed it *)
}.

(** The response under construction.  Express starts every response with
    status 200; [res.json] sends a body and leaves the status alone.  The
    [headers] are those the handlers set with [res.header] and
    [res.redirect]; the ones Express adds when it sends ([X-Powered-By],
    [Content-Type], [Content-Length], [ETag]) are not part of the record. *)
Record Res : Type := mkRes {
  statusCode : Z;
  headers : list (str * str);
  sent : option JsVal
}.

Definition fresh_res : Res := mkRes 200 [] None.

Definition res_header (res : Res) (name value : str) : Res :=
  mkRes (statusCode res) (headers res ++ [(name, value)]) (sent res).

Definition res_json (res : Res) (body : JsVal) : Res :=
  mkRes (statusCode res) (headers res) (Some body).

(** [req.query.url].  Express gives a parameter that the query string
    names once as a string, and one it names several times as the array of
    its values. *)
Definition query_param (name : str) (q : list (str * JsVal)) : JsVal :=
  lookup name q.

(** The CORS middleware. *)
Definition cors (res : Res) : Res :=
  res_header (res_header res "Access-Control-Allow-Origin" "*")
    "Access-Control-Allow-Headers" "Content-Type".

Section Facade.

Variable getTeraboxData : str -> M JsVal.

(** [app.get('/api/get', async (req, res) => ...)].  The chain works on
    strings: a [url] that is not one (the array of a parameter named
    several times) is handed on in its string form. *)
Definition api_get (req : Req) (res : Res) : M Res :=
  let url := query_param "url" (query req) in
  if negb (truthy url)
  then ret (res_json res (obj [("success", JBool false);
                               ("error", JStr "URL parameter required")]))
  else
    console_log ("📥 Processing: " ++ toString url) ;;
    startTime <- Date_now ;;
    try_catch
      (result <- getTeraboxData (toString url) ;;
       finish <- Date_now ;;
       console_log ("✅ Done in " ++ toString (JInt (finish - startTime)) ++ "ms") ;;
       ret (res_json res result))
      (fun message =>
         console_error ("❌ Error: " ++ message) ;;
         ret (res_json res (obj [("success", JBool false);
                                 ("error", JStr message)]))).

(** A [GET /api/get] request through the middleware and the route. *)
Definition GET_api_get (req : Req) : M Res := api_get req (cors fresh_res).

End Facade.

(** ** The alias route *)

(** [res.redirect(path)]: status 302 and a [Location] header.  Express
    passes the path through [encodeUrl], which leaves unreserved characters
    and percent escapes as they are; the notice it writes as the body is
    not a JSON body. *)
Definition res_redirect (res : Res) (location : str) : Res :=
  mkRes 302 (headers res ++ [("Location" : str, location)]) (sent res).

(** [app.get('/api/list', (req, res) => ...)] *)
Definition api_list (req : Req) (res : Res) : M Res :=
  let url := query_param "url" (query req) in
  if negb (truthy url)
  then ret (res_json res (obj [("success", JBool false);
                               ("error", JStr "URL required")]))
  else ret (res_redirect res
              ("/api/get?url=" ++ encodeURIComponent (toString url))).

Definition GET_api_list (req : Req) : M Res := api_list req (cors fresh_res).

(** * The five-strategy variant

    The first variant in the source file: five strategies tried in a loop,
    plain [axios] with no instance defaults, and no error log. *)

Module V1.

(** [(await axios.get(url, { headers, timeout })).data]: plain [axios], so
    the program sets the headers of the call and no others. *)
Definition axios_get (url : str) (headers : list (str * str)) : M JsVal :=
  fun net w =>
    let w' := mkWorld (trace w ++ [EGet url headers]) (clock w) in
    match net (trace w) url headers with
    | NetOk data => (Ret data, w')
    | NetFail e => (Throw e, w')
    end.

(** The text of [formatSize] is the same in both variants. *)
Definition formatSize : JsVal -> str := formatSize.

(** [/\/s\/(1?[a-zA-Z0-9_-]+)/i] is the only pattern here. *)
Definition extractSurl (url : str) : Outcome JsVal :=
  match search re_path url with
  | Some cap => Ret (group1 cap)
  | None => Throw "Invalid URL"
  end.

Definition getBaseUrl (url : str) : str :=
  if includes url "1024tera.com" then "https://www.1024tera.com"
  else if includes url "1024terabox.com" then "https://www.1024terabox.com"
  else "https://www.terabox.com".

(** The callback of the [map] in [formatApiResponse]. *)
Definition api_entry (f : JsVal) : Outcome JsVal :=
  match prop f "fs_id" with
  | Throw e => Throw e
  | Ret fs_id =>
      Ret (obj
        [("fs_id", JStr (toString fs_id));
         ("filename", jor (field f "server_filename") (field f "filename"));
         ("size", field f "size");
         ("sizeFormatted", JStr (formatSize (field f "size")));
         ("dlink", field f "dlink");
         ("thumb", null_or (opt_field (field f "thumbs") "url3"))])
  end.

Definition formatApiResponse (data : JsVal) : Outcome JsVal :=
  if truthy (field data "file_name") then
    Ret (obj
      [("filename", field data "file_name");
       ("size", jor (field data "size") (field data "sizebytes"));
       ("sizeFormatted",
        JStr (formatSize (jor (field data "size") (field data "sizebytes"))));
       ("thumb", field data "thumb");
       ("downloadUrl", jor (field data "download_link") (field data "dlink"));
       ("resolutions", null_or (field data "resolutions"))])
  else if truthy (field data "list") then
    match field data "list" with
    | JArr items =>
        match map_outcome api_entry items with
        | Ret files => Ret (obj [("files", JArr files)])
        | Throw e => Throw e
        end
    | _ => Throw "data.list.map is not a function"
    end
  else Ret data.

Definition tryApi1 (url : str) : M JsVal :=
  let apiUrl :=
    "https://teraboxvideodownloader.nepcoderdevs.workers.dev/api/get-info?data="
    ++ encodeURIComponent url in
  data <- axios_get apiUrl [] ;;
  if truthy data &&
     truthy (jor (field data "file_name") (field data "resolutions"))
  then
    ret (obj
      [("success", JBool true);
       ("data", obj
          [("filename", field data "file_name");
           ("size", field data "size");
           ("sizeFormatted", JStr (formatSize (field data "size")));
           ("thumb", field data "thumb");
           ("downloadUrl",
            jor (field data "download_link") (field data "dlink"));
           ("resolutions", null_or (field data "resolutions"))]);
       ("source", JStr "api1")])
  else throw "No data from API 1".

Definition tryApi2 (url : str) : M JsVal :=
  let apiUrl :=
    "https://terabox.udayscriptsx.workers.dev/api/get-info?data="
    ++ encodeURIComponent url in
  data <- axios_get apiUrl [] ;;
  if truthy data && truthy (jor (field data "file_name") (field data "list"))
  then
    payload <- lift (formatApiResponse data) ;;
    ret (obj [("success", JBool true); ("data", payload);
              ("source", JStr "api2")])
  else throw "No data from API 2".

Definition tryApi3 (url : str) : M JsVal :=
  let apiUrl :=
    "https://teraboxdownloader.nepcoderdevs.workers.dev/api/get-info?data="
    ++ encodeURIComponent url in
  data <- axios_get apiUrl [] ;;
  if truthy data &&
     truthy (jor (field data "file_name") (field data "download_link"))
  then
    payload <- lift (formatApiResponse data) ;;
    ret (obj [("success", JBool true); ("data", payload);
              ("source", JStr "api3")])
  else throw "No data from API 3".

Definition api4_headers (baseUrl : str) : list (str * str) :=
  [("User-Agent" : str, user_agent);
   ("Accept" : str, "application/json" : str);
   ("Referer" : str, baseUrl)].

(** The callback of [tryApi4]'s [map]. *)
Definition api4_entry (f : JsVal) : Outcome JsVal :=
  match prop f "fs_id" with
  | Throw e => Throw e
  | Ret fs_id =>
      Ret (obj
        [("fs_id", JStr (toString fs_id));
         ("filename", field f "server_filename");
         ("size", field f "size");
         ("sizeFormatted", JStr (formatSize (field f "size")));
         ("isDir", JBool (is_int 1 (field f "isdir")));
         ("dlink", field f "dlink");
         ("thumb", null_or (opt_field (field f "thumbs") "url3"))])
  end.

Definition tryApi4 (url : str) : M JsVal :=
  surl <- lift (extractSurl url) ;;
  let surl := toString surl in
  let baseUrl := getBaseUrl url in
  let headers := api4_headers baseUrl in
  (* Get share info *)
  info <- axios_get (shorturlinfo_url baseUrl surl) headers ;;
  errno <- lift (prop info "errno") ;;
  guard (is_int 0 errno) ("API Error: " ++ toString errno) ;;
  (* Get file list *)
  listing <- axios_get (share_list_url baseUrl surl) headers ;;
  errno <- lift (prop listing "errno") ;;
  guard (is_int 0 errno) ("List Error: " ++ toString errno) ;;
  match jor (field listing "list") (JArr []) with
  | JArr items =>
      files <- lift (map_outcome api4_entry items) ;;
      ret (obj
        [("success", JBool true);
         ("data", obj
            [("files", JArr files);
             ("shareInfo", obj
                [("shareid", field info "shareid");
                 ("uk", field info "uk");
                 ("sign", field info "sign");
                 ("timestamp", field info "timestamp")])]);
         ("source", JStr "direct")])
  | _ => throw "(listRes.data.list || []).map is not a function"
  end.

(** The callback of [tryDirectScrape]'s [map]. *)
Definition scrape_entry (f : JsVal) : Outcome JsVal :=
  match prop f "fs_id" with
  | Throw e => Throw e
  | Ret fs_id =>
      Ret (obj
        [("fs_id", JStr (toString fs_id));
         ("filename", field f "server_filename");
         ("size", field f "size");
         ("sizeFormatted", JStr (formatSize (field f "size")));
         ("dlink", field f "dlink");
         ("thumb", null_or (opt_field (field f "thumbs") "url3"))])
  end.

(** The body of [tryDirectScrape] once the page is in hand as a string:
    whatever is thrown inside the [try] is swallowed. *)
Definition scrape_html (html : str) : Outcome JsVal :=
  let listed :=
    match search re_list html with
    | Some capture =>
        match JSON_parse (toString (group1 capture)) with
        | Some (JArr items) =>
            match map_outcome scrape_entry items with
            | Ret files =>
                Some (obj [("success", JBool true);
                           ("data", obj [("files", JArr files)]);
                           ("source", JStr "scrape")])
            | Throw _ => None
            end
        | _ => None
        end
    | None => None
    end in
  match listed with
  | Some result => Ret result
  | None => Throw "Could not parse page"
  end.

Definition tryDirectScrape (url : str) : M JsVal :=
  html <- axios_get url
    [("User-Agent" : str, user_agent);
     ("Accept" : str, "text/html,application/xhtml+xml" : str)] ;;
  match html with
  | JStr text => lift (scrape_html text)
  | JUndefined => throw "Cannot read properties of undefined (reading 'match')"
  | JNull => throw "Cannot read properties of null (reading 'match')"
  | _ => throw "html.match is not a function"
  end.

(** The [for] loop of [getTeraboxData] over the strategies left to try. *)
Fixpoint try_each (apis : list (str -> M JsVal)) (shareUrl : str)
    (lastError : str) : M JsVal :=
  match apis with
  | [] => ret (obj [("success", JBool false); ("error", JStr lastError)])
  | api :: rest =>
      step <- try_catch
                (result <- api shareUrl ;;
                 if truthy result && truthy (field result "success")
                 then ret (Some result, lastError)
                 else ret (None, lastError))
                (fun message => ret (None, message)) ;;
      match step with
      | (Some result, _) => ret result
      | (None, lastError') => try_each rest shareUrl lastError'
      end
  end.

Definition apis : list (str -> M JsVal) :=
  [tryApi1; tryApi2; tryApi3; tryApi4; tryDirectScrape].

Definition getTeraboxData (shareUrl : str) : M JsVal :=
  try_each apis shareUrl "All methods failed".

(** [app.get('/api/get', async (req, res) => ...)]; a [url] that is not a
    string is handed on in its string form here as well. *)
Definition api_get (getTeraboxData : str -> M JsVal) (req : Req) (res : Res)
  : M Res :=
  let url := query_param "url" (query req) in
  if negb (truthy url)
  then ret (res_json res (obj [("success", JBool false);
                               ("error", JStr "URL parameter required")]))
  else
    console_log ("Processing: " ++ toString url) ;;
    try_catch
      (result <- getTeraboxData (toString url) ;;
       ret (res_json res result))
      (fun message =>
         console_error ("Error: " ++ message) ;;
         ret (res_json res (obj [("success", JBool false);
                                 ("error", JStr message)]))).

Definition GET_api_get (getTeraboxData : str -> M JsVal) (req : Req) : M Res :=
  api_get getTeraboxData req (cors fresh_res).

End V1.

(** * The vocabulary of the claims *)


(** [s] divided by 1024, [i] times over. *)
Fixpoint div1024 (i : nat) (s : Z * nat) : Z * nat :=
  match i with
  | O => s
  | S j => div1024 j (div_1024 s)
  end.

(** The rational a decimal stands for. *)
Definition value (s : Z * nat) : Q :=
  (inject_Z (fst s) / inject_Z (10 ^ Z.of_nat (snd s)))%Q.

(** The magnitude of a decimal is below [10^21]. *)
Definition below_1e21 (s : Z * nat) : Prop :=
  Z.abs (fst s) < 10 ^ 21 * 10 ^ Z.of_nat (snd s).

(** No match of [r] starts inside [pre] when [pre] is followed by [rest]. *)
Fixpoint none_before (r : regex) (pre rest : str) : bool :=
  match pre with
  | [] => true
  | _ :: pre' =>
      match match_here r (pre ++ rest) with
      | Some _ => false
      | None => none_before r pre' rest
      end
  end.

(** [tok] is a maximal non-empty run of token characters before [rest]. *)
Definition token_run (tok rest : str) : Prop :=
  tok <> [] /\ forallb token_char tok = true /\
  match rest with [] => True | c :: _ => token_char c = false end.

Definition known_bases : list str :=
  ["https://www.1024tera.com" : str;
   "https://www.1024terabox.com" : str;
   "https://www.4funbox.com" : str;
   "https://www.teraboxapp.com" : str;
   "https://www.terabox.com" : str].

(** The base URLs known to the five-strategy variant. *)
Definition V1_known_bases : list str :=
  ["https://www.1024tera.com" : str;
   "https://www.1024terabox.com" : str;
   "https://www.terabox.com" : str].

(** The world after [console.log(label)]. *)
Definition logged (label : str) (w : World) : World :=
  mkWorld (trace w ++ [ELog label]) (clock w).

(** The result of an attempt when it is one flagged successful:
    [result.success] is truthy. *)
Definition flagged (o : Outcome JsVal) : option JsVal :=
  match o with
  | Ret r =>
      match prop r "success" with
      | Ret s => if truthy s then Some r else None
      | Throw _ => None
      end
  | Throw _ => None
  end.

(** The message of the error an attempt raises, either in the strategy or
    in reading [result.success]. *)
Definition raised (o : Outcome JsVal) : option str :=
  match o with
  | Throw e => Some e
  | Ret r =>
      match prop r "success" with
      | Throw e => Some e
      | Ret _ => None
      end
  end.

(** What an attempt adds to the error log. *)
Definition entries (tag : str) (o : Outcome JsVal) : list str :=
  match raised o with
  | Some e => [tag ++ e]
  | None => []
  end.

Definition failure_payload (errors : list str) : JsVal :=
  obj [("success", JBool false);
       ("error", JStr "All methods failed");
       ("details", JArr (map JStr errors))].

(** A strategy outcome is either a thrown error or a result carrying
    [success: true] and the strategy's own [source]. *)
Definition well_tagged (tag : str) (o : Outcome JsVal) : Prop :=
  match o with
  | Ret r => field r "success" = JBool true /\ field r "source" = JStr tag
  | Throw _ => True
  end.

(** A test double: a strategy that reports its call on the console and
    then gives the canned outcome. *)
Definition mock (name : str) (o : Outcome JsVal) : str -> M JsVal :=
  fun _ => console_log ("called " ++ name) ;; lift o.

Definition ok_result (source : string) : JsVal :=
  obj [("success", JBool true); ("data", obj []); ("source", JStr source)].

Definition url_required : JsVal :=
  obj [("success", JBool false); ("error", JStr "URL parameter required")].

Definition scrape_headers : list (str * str) :=
  [("User-Agent" : str, user_agent);
   ("Accept" : str,
    "text/html,application/xhtml+xml,application/xml;q=0.9,*/*;q=0.8" : str)].

(** A page whose embedded list is empty and that names one file. *)
Definition page_single : str :=
  "{" ++ quoted "list" ++ ":[]," ++
  quoted "server_filename" ++ ":" ++ quoted "holiday\/clip.mp4" ++ "," ++
  quoted "fs_id" ++ ":9041}".

(** A page whose embedded list is not JSON and that names one file. *)
Definition page_broken_list : str :=
  "{" ++ quoted "list" ++ ":[x]," ++
  quoted "server_filename" ++ ":" ++ quoted "clip.mp4" ++ "," ++
  quoted "fs_id" ++ ":9041}".

(** A share whose listing is empty: both upstream calls answer [errno] 0. *)
Definition empty_share : Net :=
  fun _ url _ =>
    if includes url "/api/shorturlinfo"
    then NetOk (obj [("errno", JInt 0); ("shareid", JInt 4021);
                     ("uk", JInt 77); ("sign", JStr "a1b2");
                     ("timestamp", JInt 1700000000)])
    else NetOk (obj [("errno", JInt 0); ("list", JArr [])]).

(** The five-strategy loop flags a result when [result && result.success]
    is truthy. *)
Definition V1_flagged (o : Outcome JsVal) : option JsVal :=
  match o with
  | Ret r => if truthy r && truthy (field r "success") then Some r else None
  | Throw _ => None
  end.

(** The message the five-strategy loop carries on after an attempt: the
    one raised, or else the one it had. *)
Definition V1_message (o : Outcome JsVal) (lastError : str) : str :=
  match o with
  | Throw e => e
  | Ret _ => lastError
  end.

(** The strategies of the list all fail when run one after the other from
    [w]: the last message and the world they leave. *)
Fixpoint V1_all_fail (apis : list (str -> M JsVal)) (shareUrl lastError : str)
    (net : Net) (w : World) : option (str * World) :=
  match apis with
  | [] => Some (lastError, w)
  | api :: rest =>
      let o := api shareUrl net w in
      match V1_flagged (fst o) with
      | Some _ => None
      | None =>
          V1_all_fail rest shareUrl
            (match fst o with Throw e => e | Ret _ => lastError end)
            net (snd o)
      end
  end.

(** * The vocabulary of the further properties *)

(** One of the two markers of a share link, in either case of letters. *)
Definition share_marker (l : str) : Prop :=
  map upper l = map upper "/s/" \/ map upper l = map upper "surl=".

(** The link has a marker directly followed by a token character. *)
Definition names_share (url : str) : Prop :=
  exists pre l c rest,
    url = pre ++ l ++ c :: rest /\ share_marker l /\ token_char c = true.

(** The strings a pattern can consume. *)
Fixpoint lang (r : regex) (s : str) : Prop :=
  match r with
  | Eps => s = []
  | Cls p => exists c, s = [c] /\ p c = true
  | Cat r1 r2 => exists s1 s2, s = s1 ++ s2 /\ lang r1 s1 /\ lang r2 s2
  | Opt r1 => s = [] \/ lang r1 s
  | Star p | StarLazy p => forallb p s = true
  | Grp r1 => lang r1 s
  | Ahead _ => s = []
  end.

(** The strings a capture group of the pattern can hold. *)
Fixpoint captured (r : regex) (g : str) : Prop :=
  match r with
  | Grp r1 => lang r1 g
  | Cat r1 r2 => captured r1 g \/ captured r2 g
  | Opt r1 | Ahead r1 => captured r1 g
  | _ => False
  end.

(** The pattern has a capture group on every way through it. *)
Fixpoint binds (r : regex) : bool :=
  match r with
  | Grp _ => true
  | Cat r1 r2 => binds r1 || binds r2
  | _ => false
  end.

(** The value of a hexadecimal digit. *)
Definition hex_value (c : ascii) : Z :=
  match digit_value 16 c with
  | Some v => v
  | None => 0
  end.

(** Reading percent escapes back: [%XY] is the byte with hexadecimal digits
    [X] and [Y]; every other character stands for itself. *)
Fixpoint percent_decode (s : str) : str :=
  match s with
  | [] => []
  | c :: rest =>
      if chr_eqb c "%" then
        match rest with
        | h1 :: h2 :: rest' =>
            byte_of (16 * hex_value h1 + hex_value h2) :: percent_decode rest'
        | _ => c :: percent_decode rest
        end
      else c :: percent_decode rest
  end.

(** The characters of an escaped component: the unreserved ones and the
    percent sign. *)
Definition component_char (c : ascii) : bool :=
  uri_unreserved c || chr_eqb c "%".

(** The endpoints of the mirror strategies, up to the escaped link. *)
Definition nepcoder_endpoint : str :=
  "https://teraboxvideodownloader.nepcoderdevs.workers.dev/api/get-info?data=".

Definition uday_endpoint : str :=
  "https://terabox.udayscriptsx.workers.dev/api/get-info?data=".

Definition nepcoder2_endpoint : str :=
  "https://teraboxdownloader.nepcoderdevs.workers.dev/api/get-info?data=".

(** A page without an embedded list that names one file and its size. *)
Definition page_sized : str :=
  "{" ++ quoted "server_filename" ++ ":" ++ quoted "clip.mp4" ++ "," ++
  quoted "fs_id" ++ ":9041," ++ quoted "size" ++ ":734003200}".

(** The world after one outbound GET on which the program sets the given
    headers. *)
Definition requested (url : str) (headers : list (str * str)) (w : World)
  : World :=
  mkWorld (trace w ++ [EGet url headers]) (clock w).

(** A record's formatted size is the formatting of the size beside it. *)
Definition size_consistent (o : JsVal) : Prop :=
  field o "sizeFormatted" = JStr (formatSize (field o "size")).

(** The payload of a result is consistent: each file of a listing, or the
    single-file record. *)
Definition payload_consistent (r : JsVal) : Prop :=
  match field (field r "data") "files" with
  | JArr files => Forall size_consistent files
  | _ => size_consistent (field r "data")
  end.

(** The fields of a normalised single-file record are all there. *)
Definition record_complete (d : JsVal) : Prop :=
  truthy (field d "filename") = true /\
  field d "size" <> JUndefined /\
  (exists s, field d "sizeFormatted" = JStr s) /\
  field d "thumb" <> JUndefined /\
  field d "downloadUrl" <> JUndefined /\
  field d "resolutions" <> JUndefined.

(** A file record of the vendor listing as [tryDirectApi] hands it on. *)
Definition direct_file (f : JsVal) : Prop :=
  (exists id, field f "fs_id" = JStr id) /\
  (exists b, field f "isDir" = JBool b) /\
  field f "dlink" <> JUndefined /\
  field f "thumb" <> JUndefined /\
  size_consistent f.

(** The kinds of events: an outbound request, a line on the error
    console. *)
Definition is_get (e : Event) : bool :=
  match e with EGet _ _ => true | _ => false end.

Definition is_error (e : Event) : bool :=
  match e with EError _ => true | _ => false end.

(** The number of outbound requests among the events. *)
Definition outbound (events : list Event) : nat :=
  length (filter is_get events).

(** What [tryDirectApi] answers once the share information is in hand with
    a status that is not zero. *)
Definition share_info_error (info : JsVal) : str :=
  match prop info "errno" with
  | Throw e => e
  | Ret errno =>
      "Share info error: " ++ toString (jor (field info "errmsg") errno)
  end.

(** A strategy that raises whatever the world is. *)
Definition always_raises (url : str) (net : Net) (api : str -> M JsVal) : Prop :=
  forall w, exists e, fst (api url net w) = Throw e.

(** A mirror that knows one file. *)
Definition one_file : Net :=
  fun _ _ _ =>
    NetOk (obj [("file_name", JStr "clip.mp4"); ("sizebytes", JStr "1536")]).

(** A vendor whose share holds one directory. *)
Definition one_folder : Net :=
  fun _ url _ =>
    if includes url "/api/shorturlinfo"
    then NetOk (obj [("errno", JInt 0); ("shareid", JInt 4021);
                     ("uk", JInt 77); ("sign", JStr "a1b2");
                     ("timestamp", JInt 1700000000)])
    else if includes url "/share/list"
    then NetOk (obj [("errno", JInt 0);
                     ("list", JArr [obj [("fs_id", JInt 9041);
                                         ("server_filename", JStr "holiday");
                                         ("isdir", JInt 1)]])])
    else NetFail "Request failed with status code 404".

(** A network that answers every request with an empty body. *)
Definition silent : Net := fun _ _ _ => NetOk (JStr "").

(** A network on which every page asks for a verification. *)
Definition challenge : Net :=
  fun _ _ _ => NetOk (JStr "<title>Please verify you are human</title>").

(** * Verification

    First the facts about decimal numerals that [parseInt] and [toFixed] rest on. *)

Lemma is_digit_digit_char (d : Z) :
  0 <= d < 10 -> is_digit (digit_char d) = true.
Proof.
  intros H.
  assert (d = 0 \/ d = 1 \/ d = 2 \/ d = 3 \/ d = 4 \/
          d = 5 \/ d = 6 \/ d = 7 \/ d = 8 \/ d = 9) as C by lia.
  repeat (destruct C as [-> | C]; [reflexivity |]). subst. reflexivity.
Qed.

Lemma code_digit_char (d : Z) :
  0 <= d < 10 -> code (digit_char d) = 48 + d.
Proof.
  intros H.
  assert (d = 0 \/ d = 1 \/ d = 2 \/ d = 3 \/ d = 4 \/
          d = 5 \/ d = 6 \/ d = 7 \/ d = 8 \/ d = 9) as C by lia.
  repeat (destruct C as [-> | C]; [reflexivity |]). subst. reflexivity.
Qed.

Lemma digits_fuel_all_digits (fuel : nat) :
  forall n acc, 0 <= n ->
    forallb is_digit acc = true ->
    forallb is_digit (digits_fuel fuel n acc) = true.
Proof.
  induction fuel as [| fuel IH]; intros n acc Hn Hacc; simpl; [exact Hacc |].
  assert (Hd : is_digit (digit_char (n mod 10)) = true)
    by (apply is_digit_digit_char, Z.mod_pos_bound; lia).
  destruct (n <? 10).
  - simpl. now rewrite Hd.
  - apply IH; [apply Z.div_pos; lia | simpl; now rewrite Hd].
Qed.

Lemma digits_fuel_nonempty (fuel : nat) :
  forall n acc, (0 < fuel)%nat -> digits_fuel fuel n acc <> [].
Proof.
  induction fuel as [| fuel IH]; intros n acc Hf; [lia |].
  simpl. destruct (n <? 10); [discriminate |].
  destruct fuel as [| fuel']; [simpl; discriminate | apply IH; lia].
Qed.

Lemma decimal_all_digits (n : Z) :
  0 <= n -> forallb is_digit (decimal n) = true.
Proof. intros H. now apply digits_fuel_all_digits. Qed.

Lemma decimal_nonempty (n : Z) : decimal n <> [].
Proof. apply digits_fuel_nonempty. lia. Qed.

Lemma read_digits_cons (c : ascii) (s : str) (a : Z) :
  read_digits (c :: s) a = read_digits s (a * 10 + (code c - 48)).
Proof. reflexivity. Qed.

Lemma read_digits_shift (s : str) :
  forall a, read_digits s a = a * 10 ^ Z.of_nat (length s) + read_digits s 0.
Proof.
  induction s as [| c s IH]; intros a.
  - unfold read_digits. simpl. lia.
  - rewrite !read_digits_cons, IH, (IH (0 * 10 + _)).
    change (length (c :: s)) with (S (length s)).
    rewrite Nat2Z.inj_succ, Z.pow_succ_r by lia. lia.
Qed.

Lemma read_digits_fuel (fuel : nat) :
  forall n acc, 0 <= n < 2 ^ Z.of_nat fuel ->
    read_digits (digits_fuel fuel n acc) 0 =
    n * 10 ^ Z.of_nat (length acc) + read_digits acc 0.
Proof.
  induction fuel as [| fuel IH]; intros n acc Hn.
  - simpl in *. assert (n = 0) by lia. subst. lia.
  - cbn [digits_fuel].
    assert (Hm : 0 <= n mod 10 < 10) by (apply Z.mod_pos_bound; lia).
    destruct (Z.ltb_spec n 10) as [Hlt | Hge].
    + rewrite read_digits_cons, read_digits_shift, code_digit_char by exact Hm.
      rewrite Z.mod_small by lia. lia.
    + rewrite IH.
      * rewrite read_digits_cons, (read_digits_shift acc (0 * 10 + _)),
          code_digit_char by exact Hm.
        change (length (digit_char (n mod 10) :: acc)) with (S (length acc)).
        rewrite Nat2Z.inj_succ, Z.pow_succ_r by lia.
        pose proof (Z.div_mod n 10). nia.
      * rewrite Nat2Z.inj_succ, Z.pow_succ_r in Hn by lia.
        split; [apply Z.div_pos; lia |].
        apply Z.div_lt_upper_bound; lia.
Qed.

Lemma read_digits_decimal (n : Z) : 0 <= n -> read_digits (decimal n) 0 = n.
Proof.
  intros Hn. unfold decimal. rewrite read_digits_fuel.
  - simpl. unfold read_digits. simpl. lia.
  - rewrite Nat2Z.inj_succ, Z2Nat.id by apply Z.log2_nonneg.
    destruct (Z.eq_dec n 0) as [-> | Hz]; [simpl; lia |].
    pose proof (Z.log2_spec n). lia.
Qed.

Lemma digit_value_10 (c : ascii) :
  is_digit c = true -> digit_value 10 c = Some (code c - 48).
Proof.
  intros H. unfold digit_value. rewrite H.
  unfold is_digit, in_range in H. apply andb_prop in H as [H1 H2].
  apply Z.leb_le in H1, H2.
  destruct (Z.ltb_spec (code c - 48) 10); [reflexivity | lia].
Qed.

Lemma digits_prefix_all_digits (s : str) :
  forall acc, s <> [] -> forallb is_digit s = true ->
    digits_prefix 10 s acc =
    Some (read_digits s (match acc with Some a => a | None => 0 end)).
Proof.
  induction s as [| c s IH]; intros acc Hne Hall; [congruence |].
  simpl in Hall. apply andb_prop in Hall as [Hc Hs].
  cbn [digits_prefix]. rewrite (digit_value_10 c Hc).
  destruct s as [| c' s'].
  - cbn [digits_prefix]. rewrite read_digits_cons. unfold read_digits.
    cbn [fold_left]. destruct acc; f_equal; lia.
  - rewrite IH by (congruence || exact Hs).
    rewrite (read_digits_cons c). destruct acc; repeat f_equal; lia.
Qed.

Lemma digit_not_special (c : ascii) :
  is_digit c = true ->
  is_space c = false /\ chr_eqb c "-" = false /\ chr_eqb c "+" = false /\
  chr_eqb "x" c = false /\ chr_eqb "X" c = false.
Proof.
  destruct c as [[] [] [] [] [] [] [] []]; intros H;
    try discriminate H; repeat split; reflexivity.
Qed.

Lemma parseInt_minus (s : str) :
  parseInt ("-"%char :: s) =
  let '(radix, s) :=
    if starts_with "0x" s || starts_with "0X" s
    then (16, skipn 2 s) else (10, s) in
  match digits_prefix radix s None with
  | Some n => Some (-1 * n)
  | None => None
  end.
Proof. reflexivity. Qed.

Lemma parseInt_digits (s : str) :
  s <> [] -> forallb is_digit s = true ->
  parseInt s = Some (read_digits s 0) /\
  parseInt ("-"%char :: s) = Some (- read_digits s 0).
Proof.
  intros Hne Hall.
  assert (Hdp : digits_prefix 10 s None = Some (read_digits s 0))
    by now apply digits_prefix_all_digits.
  assert (Hx : starts_with "0x" s || starts_with "0X" s = false).
  { destruct s as [| c0 [| c1 s']]; [congruence | |].
    - cbn [starts_with lit list_ascii_of_string].
      now rewrite !andb_false_r.
    - simpl in Hall. apply andb_prop in Hall as [_ Hall].
      apply andb_prop in Hall as [H1 _].
      destruct (digit_not_special c1 H1) as (_ & _ & _ & Hx1 & Hx2).
      cbn [starts_with lit list_ascii_of_string].
      rewrite Hx1, Hx2. now rewrite !andb_false_r. }
  destruct s as [| c s']; [congruence |].
  pose proof Hall as Hc. simpl in Hc. apply andb_prop in Hc as [Hc _].
  destruct (digit_not_special c Hc) as (Hsp & Hm & Hp & _ & _).
  split.
  - unfold parseInt. cbn [trim_start]. rewrite Hsp, Hm, Hp.
    cbv beta iota zeta. rewrite Hx, Hdp. f_equal; lia.
  - rewrite parseInt_minus. cbv beta iota zeta. rewrite Hx, Hdp. f_equal; lia.
Qed.

(** Below [10^21] an integer is printed with all its digits. *)
Lemma toString_int (b : Z) :
  Z.abs b < 10 ^ 21 ->
  toString (JInt b) = (if b <? 0 then lit "-" else lit "") ++ decimal (Z.abs b).
Proof.
  intros Hb. unfold JInt. cbn [toString]. unfold num_to_string.
  cbn [norm_dec]. destruct (Z.ltb_spec (Z.abs b) (10 ^ 21)); [reflexivity | lia].
Qed.

(** [parseInt] reads back the rendering of every integer below [10^21]. *)
Lemma parseInt_toString_int (b : Z) :
  Z.abs b < 10 ^ 21 -> parseInt (toString (JInt b)) = Some b.
Proof.
  intros Hb. rewrite toString_int by exact Hb.
  pose proof (parseInt_digits (decimal (Z.abs b)) (decimal_nonempty _)
                (decimal_all_digits _ (Z.abs_nonneg b))) as [Hpos Hneg].
  rewrite read_digits_decimal in * by apply Z.abs_nonneg.
  destruct (Z.ltb_spec b 0).
  - change (lit "-" ++ decimal (Z.abs b)) with ("-"%char :: decimal (Z.abs b)).
    rewrite Hneg. f_equal. lia.
  - change (lit "" ++ decimal (Z.abs b)) with (decimal (Z.abs b)).
    rewrite Hpos. f_equal. lia.
Qed.

(** ** The shape of [toFixed 2] *)



(** From [10^21] on, [toFixed] gives the number in exponent notation. *)
Lemma toFixed_large (f : nat) (m : Z) (k : nat) :
  ~ below_1e21 (m, k) ->
  toFixed f m k =
  (if m <? 0 then lit "-" else lit "") ++ num_to_string (Z.abs m) k.
Proof.
  unfold below_1e21. cbn [fst snd]. intros Hge. unfold toFixed.
  destruct (Z.leb_spec (10 ^ 21 * 10 ^ Z.of_nat k) (Z.abs m)); [reflexivity | lia].
Qed.

Lemma digits_fuel_acc (fuel : nat) :
  forall n acc, digits_fuel fuel n acc = digits_fuel fuel n [] ++ acc.
Proof.
  induction fuel as [| fuel IH]; intros n acc; [reflexivity |].
  cbn [digits_fuel]. destruct (n <? 10); [reflexivity |].
  rewrite IH, (IH _ [_]), <- app_assoc. reflexivity.
Qed.

Lemma digits_fuel_enough (f : nat) :
  forall f' n acc, (0 < f)%nat -> (0 < f')%nat ->
    0 <= n < 2 ^ Z.of_nat f -> 0 <= n < 2 ^ Z.of_nat f' ->
    digits_fuel f n acc = digits_fuel f' n acc.
Proof.
  induction f as [| f IH]; intros f' n acc Hp Hp' Hf Hf'; [lia |].
  destruct f' as [| f']; [lia |].
  cbn [digits_fuel]. destruct (Z.ltb_spec n 10); [reflexivity |].
  rewrite Nat2Z.inj_succ, Z.pow_succ_r in Hf, Hf' by lia.
  assert (Hq : 1 <= n / 10) by (apply Z.div_le_lower_bound; lia).
  assert (Hu : forall P, n < 2 * P -> n / 10 < P)
    by (intros; apply Z.div_lt_upper_bound; lia).
  assert (Hz : forall g, n / 10 < 2 ^ Z.of_nat g -> (0 < g)%nat).
  { intros [| g] Hg; [simpl in Hg |]; lia. }
  apply IH; try (split; [lia | apply Hu; lia]); apply Hz, Hu; lia.
Qed.

Lemma log2_fuel (n : Z) :
  0 <= n -> 0 <= n < 2 ^ Z.of_nat (S (Z.to_nat (Z.log2 n))).
Proof.
  intros Hn. rewrite Nat2Z.inj_succ, Z2Nat.id by apply Z.log2_nonneg.
  destruct (Z.eq_dec n 0) as [-> | Hz]; [simpl; lia |].
  pose proof (Z.log2_spec n). lia.
Qed.

Lemma decimal_times_10 (a : Z) :
  0 < a -> decimal (10 * a) = decimal a ++ "0".
Proof.
  intros Ha. unfold decimal at 1.
  cbn [digits_fuel]. destruct (Z.ltb_spec (10 * a) 10); [lia |].
  replace (10 * a / 10) with a by (apply Z.div_unique with 0; lia).
  replace ((10 * a) mod 10) with 0 by (apply Z.mod_unique with a; lia).
  rewrite digits_fuel_acc. f_equal.
  pose proof (log2_fuel (10 * a) ltac:(lia)) as Hl.
  rewrite Nat2Z.inj_succ, Z.pow_succ_r in Hl by lia.
  apply digits_fuel_enough; [| lia | lia | apply log2_fuel; lia].
  destruct (Z.to_nat (Z.log2 (10 * a))); [change (2 ^ Z.of_nat 0) with 1 in Hl |]; lia.
Qed.

(** ** The division loop of [formatSize] *)

Lemma pow10_pos (k : nat) : 0 < 10 ^ Z.of_nat k.
Proof. apply Z.pow_pos_nonneg; lia. Qed.

(** [ge_1024] and [div_1024] are the comparison with 1024 and the division
    by 1024 of the rationals the decimals stand for. *)
Lemma ge_1024_value (s : Z * nat) :
  ge_1024 s = true <-> (1024 <= value s)%Q.
Proof.
  destruct s as [m k]. unfold ge_1024, value. cbn [fst snd].
  pose proof (pow10_pos k) as Hk.
  rewrite Z.leb_le. unfold Qle, Qdiv, Qmult, Qinv, inject_Z. cbn [Qnum Qden].
  destruct (10 ^ Z.of_nat k) as [| p | p] eqn:E; try lia.
  cbn [Qnum Qden]. lia.
Qed.

Lemma div_1024_value (s : Z * nat) : (value (div_1024 s) == value s / 1024)%Q.
Proof.
  destruct s as [m k]. unfold div_1024, value. cbn [fst snd].
  pose proof (pow10_pos k) as Hk.
  rewrite Nat2Z.inj_add, Z.pow_add_r by lia.
  change (10 ^ Z.of_nat 10) with 10000000000.
  rewrite !inject_Z_mult. field.
  intros E. unfold Qeq, inject_Z in E. cbn [Qnum Qden] in E. lia.
Qed.

(** The loop leaves at the first [i] at which the magnitude is below 1024,
    or at 4. *)
Lemma size_loop_4 (s : Z * nat) :
  exists i, (i <= 4)%nat /\
    size_loop 4 s 0 = (div1024 i s, i) /\
    (forall j, (j < i)%nat -> ge_1024 (div1024 j s) = true) /\
    ((i < 4)%nat -> ge_1024 (div1024 i s) = false).
Proof.
  cbn [size_loop].
  destruct (ge_1024 s) eqn:E0; cbn [andb Nat.ltb Nat.leb];
    [| exists 0%nat; repeat split; [lia | intros; lia | intros; exact E0]].
  destruct (ge_1024 (div_1024 s)) eqn:E1; cbn [andb Nat.ltb Nat.leb];
    [| exists 1%nat; repeat split;
       [lia | intros j Hj; assert (j = 0)%nat as -> by lia; exact E0
        | intros; exact E1]].
  destruct (ge_1024 (div_1024 (div_1024 s))) eqn:E2;
    cbn [andb Nat.ltb Nat.leb];
    [| exists 2%nat; repeat split;
       [lia | intros j Hj;
              assert (j = 0 \/ j = 1)%nat as [-> | ->] by lia; assumption
        | intros; exact E2]].
  destruct (ge_1024 (div_1024 (div_1024 (div_1024 s)))) eqn:E3;
    cbn [andb Nat.ltb Nat.leb];
    [| exists 3%nat; repeat split;
       [lia | intros j Hj;
              assert (j = 0 \/ j = 1 \/ j = 2)%nat as [-> | [-> | ->]] by lia;
              assumption
        | intros; exact E3]].
  exists 4%nat. repeat split; [lia | | intros; lia].
  intros j Hj.
  assert (j = 0 \/ j = 1 \/ j = 2 \/ j = 3)%nat as [-> | [-> | [-> | ->]]] by lia;
    assumption.
Qed.

(** The loop is bounded by [i < 4]: more fuel than four rounds changes
    nothing. *)
Lemma size_loop_fuel (extra : nat) (s : Z * nat) :
  size_loop (4 + extra) s 0 = size_loop 4 s 0.
Proof.
  assert (H : forall fuel q i, (4 <= i)%nat -> size_loop fuel q i = (q, i)).
  { intros [| fuel] q i Hi; [reflexivity |]. cbn [size_loop].
    destruct (Nat.ltb_spec i 4); [lia |]. now rewrite andb_false_r. }
  cbn [size_loop Nat.add].
  repeat match goal with
         | |- context [if ?c then _ else _] => destruct c; [| reflexivity]
         end.
  apply H. lia.
Qed.


(** [toFixed 2] of a negative integer above [-10^21]: sign, digits, two
    zeros. *)
Lemma toFixed_2_negative_int (b : Z) :
  - 10 ^ 21 < b < 0 -> toFixed 2 b 0 = "-" ++ decimal (- b) ++ ".00".
Proof.
  intros Hb. unfold toFixed.
  change (10 ^ Z.of_nat 0) with 1. change (10 ^ Z.of_nat 2) with 100.
  destruct (Z.leb_spec (10 ^ 21 * 1) (Z.abs b)); [lia |].
  destruct (Z.ltb_spec b 0); [| lia].
  replace ((2 * Z.abs b * 100 + 1) / (2 * 1)) with (10 * (10 * - b))
    by (apply (Z.div_unique _ (2 * 1) _ 1); lia).
  destruct (Z.eqb_spec (10 * (10 * - b)) 0) as [E | _]; [lia |].
  rewrite !decimal_times_10 by lia.
  set (da := decimal (- b)).
  assert (Hne : da <> []) by apply decimal_nonempty.
  assert (Hpad : pad_zeros 3 ((da ++ "0") ++ "0") = da ++ "00").
  { unfold pad_zeros. rewrite <- app_assoc, length_app.
    assert (0 < length da)%nat by (destruct da; [congruence | cbn; lia]).
    replace (length (lit "0" ++ lit "0")) with 2%nat by reflexivity.
    replace (3 - (length da + 2))%nat with 0%nat by lia.
    reflexivity. }
  rewrite Hpad, length_app. change (length (lit "00")) with 2%nat.
  replace (length da + 2 - 2)%nat with (length da + 0)%nat by lia.
  rewrite firstn_app_2, skipn_app, Nat.add_0_r, skipn_all.
  replace (length da - length da)%nat with 0%nat by lia.
  cbn [firstn skipn app]. rewrite app_nil_r. reflexivity.
Qed.

(** ** Claims about [formatSize] *)





(** C10, as the code has it.  On a negative integer [formatSize] performs
    no division: the loop condition fails at once.  On a negative integer
    [b] above -10^21 it returns [b] printed with two decimals and the unit
    "B"; for example -5 gives "-5.00 B".  At -10^21 the string form of the
    number is "-1e+21", of which [parseInt] reads -1, and the result is
    "-1.00 B".  The function is the same in the two variants of the
    program. *)
Theorem formatSize_negative :
  (forall b, b < 0 -> size_loop 4 (b, O) 0 = ((b, O), 0%nat)) /\
  (forall b, - 10 ^ 21 < b < 0 ->
     formatSize (JInt b) = toFixed 2 b 0 ++ " B" /\
     formatSize (JInt b) = "-" ++ decimal (- b) ++ ".00 B") /\
  formatSize (JInt (-5)) = "-5.00 B" /\
  toString (JInt (- 10 ^ 21)) = "-1e+21" /\
  parseInt "-1e+21" = Some (-1) /\
  formatSize (JInt (- 10 ^ 21)) = "-1.00 B" /\
  (forall v, V1.formatSize v = formatSize v).
Proof.
  assert (Hloop : forall b, b < 0 -> size_loop 4 (b, O) 0 = ((b, O), 0%nat)).
  { intros b Hb. cbn [size_loop].
    replace (ge_1024 (b, O)) with false; [reflexivity |].
    symmetry. unfold ge_1024. cbn [fst snd]. apply Z.leb_gt.
    change (10 ^ Z.of_nat 0) with 1. lia. }
  split; [exact Hloop |].
  split; [| repeat split; vm_compute; reflexivity].
  intros b Hb.
  assert (Hfmt : formatSize (JInt b) = toFixed 2 b 0 ++ " B").
  { unfold formatSize.
    replace (truthy (JInt b)) with true
      by (symmetry; cbn; apply negb_true_iff, Z.eqb_neq; lia).
    cbn [negb]. rewrite parseInt_toString_int, Hloop by lia. reflexivity. }
  split; [exact Hfmt |].
  rewrite Hfmt, toFixed_2_negative_int by exact Hb.
  rewrite <- !app_assoc. reflexivity.
Qed.

Lemma formatSize_negative_witness :
  size_loop 4 (-2048, O) 0 = ((-2048, O), 0%nat) /\
  formatSize (JInt (-2048)) = "-2048.00 B".
Proof.
  split.
  - apply (proj1 formatSize_negative). lia.
  - apply (proj1 (proj2 formatSize_negative) (-2048)). lia.
Defined.

(** C10 as stated fails: the string form of -10^21 is in exponent
    notation, of which [parseInt] reads the leading digit only; -10^21
    comes back as "-1.00 B". *)
Lemma formatSize_exponent_input :
  ~ (forall b, b < 0 -> formatSize (JInt b) = toFixed 2 b 0 ++ " B") /\
  ~ (forall b, b < 0 -> formatSize (JInt b) = "-" ++ decimal (- b) ++ ".00 B").
Proof.
  split; intros H; specialize (H (- 10 ^ 21) eq_refl);
    vm_compute in H; discriminate H.
Qed.

(** ** Facts about the matcher *)

Lemma search_skip (r : regex) (pre rest : str) :
  none_before r pre rest = true -> search r (pre ++ rest) = search r rest.
Proof.
  induction pre as [| c pre IH]; intros H; [reflexivity |].
  cbn [none_before] in H.
  change ((c :: pre) ++ rest) with (c :: pre ++ rest) in *.
  destruct rest as [| d rest'] eqn:Er; cbn [search];
    destruct (match_here r (c :: pre ++ _)); try discriminate; now apply IH.
Qed.

Lemma search_here (r : regex) (s : str) (cap : option str) :
  match_here r s = Some cap -> search r s = Some cap.
Proof. intros H. destruct s; cbn [search]; now rewrite H. Qed.

Lemma run_LitI (l : str) :
  forall (l' : str) (X : Type) (s : str) cap (k : str -> option str -> option X),
    map upper l' = map upper l ->
    run (LitI l) X (l' ++ s) cap k = k s cap.
Proof.
  induction l as [| c l IH]; intros [| c' l'] X s cap k E;
    try discriminate E; [reflexivity |].
  injection E as Ec El. cbn [LitI run ChrI app].
  rewrite Ec. unfold chr_eqb. rewrite Ascii.eqb_refl. now apply IH.
Qed.

(** A greedy star takes the whole run of class characters when the
    continuation accepts what follows. *)
Lemma run_Star_all (p : ascii -> bool) (X : Type) (tok rest : str) cap
    (k : str -> option str -> option X) (x : X) :
  forallb p tok = true ->
  match rest with [] => True | c :: _ => p c = false end ->
  k rest cap = Some x ->
  run (Star p) X (tok ++ rest) cap k = Some x.
Proof.
  intros Htok Hrest Hk. cbn [run].
  induction tok as [| c tok IH].
  - destruct rest as [| d rest']; [exact Hk |]. cbn [app]. now rewrite Hrest.
  - cbn [forallb] in Htok. apply andb_prop in Htok as [Hc Htok].
    cbn [app]. rewrite Hc, (IH Htok). reflexivity.
Qed.

Lemma run_Cat (r1 r2 : regex) (X : Type) inp cap
    (k : str -> option str -> option X) :
  run (Cat r1 r2) X inp cap k =
  run r1 X inp cap (fun rest cap' => run r2 X rest cap' k).
Proof. reflexivity. Qed.

Lemma run_Cls (p : ascii -> bool) (X : Type) inp cap
    (k : str -> option str -> option X) :
  run (Cls p) X inp cap k =
  match inp with
  | c :: rest => if p c then k rest cap else None
  | [] => None
  end.
Proof. reflexivity. Qed.

Lemma run_Opt (r : regex) (X : Type) inp cap
    (k : str -> option str -> option X) :
  run (Opt r) X inp cap k =
  match run r X inp cap k with
  | Some x => Some x
  | None => k inp cap
  end.
Proof. reflexivity. Qed.

Lemma run_Grp (r : regex) (X : Type) inp cap
    (k : str -> option str -> option X) :
  run (Grp r) X inp cap k =
  run r X inp cap
    (fun rest _ => k rest (Some (firstn (length inp - length rest) inp))).
Proof. reflexivity. Qed.

Lemma run_Plus_all (p : ascii -> bool) (X : Type) (tok rest : str) cap
    (k : str -> option str -> option X) (x : X) :
  tok <> [] ->
  forallb p tok = true ->
  match rest with [] => True | c :: _ => p c = false end ->
  k rest cap = Some x ->
  run (Plus p) X (tok ++ rest) cap k = Some x.
Proof.
  intros Hne Htok Hrest Hk. destruct tok as [| c tok]; [congruence |].
  cbn [forallb] in Htok. apply andb_prop in Htok as [Hc Htok].
  unfold Plus. rewrite run_Cat, run_Cls. cbn [app]. rewrite Hc.
  now apply run_Star_all.
Qed.

Lemma run_Plus_none (p : ascii -> bool) (X : Type) (rest : str) cap
    (k : str -> option str -> option X) :
  match rest with [] => True | c :: _ => p c = false end ->
  run (Plus p) X rest cap k = None.
Proof.
  intros Hrest. unfold Plus. rewrite run_Cat, run_Cls.
  destruct rest; [reflexivity | now rewrite Hrest].
Qed.

(** The group [(1?[a-zA-Z0-9_-]+)] captures the whole token. *)
Lemma run_token_group (X : Type) (tok rest : str) cap
    (k : str -> option str -> option X) (x : X) :
  token_run tok rest ->
  k rest (Some tok) = Some x ->
  run (Grp (Cat (Opt (ChrI "1")) (Plus token_char))) X (tok ++ rest) cap k
  = Some x.
Proof.
  intros (Hne & Htok & Hrest) Hk.
  rewrite run_Grp.
  set (k' := fun (rest0 : str) (_ : option str) =>
               k rest0 (Some (firstn (length (tok ++ rest) - length rest0)
                                (tok ++ rest)))).
  assert (Hk' : forall c, k' rest c = Some x).
  { intros c. unfold k'. rewrite length_app.
    replace (length tok + length rest - length rest)%nat
      with (length tok + 0)%nat by lia.
    rewrite firstn_app_2. cbn [firstn]. now rewrite app_nil_r. }
  rewrite run_Cat, run_Opt.
  destruct (run (ChrI "1") X (tok ++ rest) cap
              (fun rest0 cap' => run (Plus token_char) X rest0 cap' k'))
    as [y |] eqn:Eopt.
  - (* the optional "1" was taken: the rest of the token follows *)
    unfold ChrI in Eopt. rewrite run_Cls in Eopt.
    destruct tok as [| c [| c1 t]]; [congruence | |]; cbn [app] in Eopt;
      destruct (chr_eqb (upper c) (upper "1")); try discriminate.
    + rewrite run_Plus_none in Eopt by exact Hrest. discriminate.
    + cbn [forallb] in Htok. apply andb_prop in Htok as [_ Htok].
      change (c1 :: t ++ rest) with ((c1 :: t) ++ rest) in Eopt.
      rewrite (run_Plus_all _ _ _ _ _ _ x) in Eopt; auto; congruence.
  - now apply run_Plus_all.
Qed.

Lemma match_here_token (l l' tok rest : str) :
  map upper l' = map upper l ->
  token_run tok rest ->
  match_here (Cat (LitI l) (Grp (Cat (Opt (ChrI "1")) (Plus token_char))))
    (l' ++ tok ++ rest) = Some (Some tok).
Proof.
  intros El Htok. unfold match_here. rewrite run_Cat.
  rewrite run_LitI by exact El.
  now apply run_token_group.
Qed.

(** ** Claims about the URL parser *)

(** C5, as the code has it.  [extractSurl] tries the path-form pattern and
    then the query-form pattern and returns the capture group of the first
    one that matches, and each pattern takes its leftmost match: the token
    (with its leading "1", when there is one) after the first [/s/] that is
    followed by a token character, or else after the first such [surl=].
    So a URL ending in [/s/1abc123] gives "1abc123" when no path-form match
    starts earlier, a URL ending in [?surl=xyz] gives "xyz" when it has no
    path-form match and no earlier query-form match, and a URL that matches
    neither pattern raises "Invalid TeraBox URL". *)
Theorem extractSurl_leftmost :
  (forall url,
     extractSurl url =
     match search re_path url with
     | Some cap => Ret (group1 cap)
     | None =>
         match search re_query url with
         | Some cap => Ret (group1 cap)
         | None => Throw "Invalid TeraBox URL"
         end
     end) /\
  (forall pre sl tok rest,
     map upper sl = map upper "/s/" ->
     token_run tok rest ->
     none_before re_path pre (sl ++ tok ++ rest) = true ->
     extractSurl (pre ++ sl ++ tok ++ rest) = Ret (JStr tok)) /\
  (forall pre q tok rest,
     map upper q = map upper "surl=" ->
     token_run tok rest ->
     search re_path (pre ++ q ++ tok ++ rest) = None ->
     none_before re_query pre (q ++ tok ++ rest) = true ->
     extractSurl (pre ++ q ++ tok ++ rest) = Ret (JStr tok)) /\
  (forall pre,
     none_before re_path pre "/s/1abc123" = true ->
     extractSurl (pre ++ "/s/1abc123") = Ret (JStr "1abc123")) /\
  (forall pre,
     search re_path (pre ++ "?surl=xyz") = None ->
     none_before re_query pre "?surl=xyz" = true ->
     extractSurl (pre ++ "?surl=xyz") = Ret (JStr "xyz")) /\
  (forall url,
     search re_path url = None -> search re_query url = None ->
     extractSurl url = Throw "Invalid TeraBox URL").
Proof.
  assert (Hunfold : forall url,
     extractSurl url =
     match search re_path url with
     | Some cap => Ret (group1 cap)
     | None =>
         match search re_query url with
         | Some cap => Ret (group1 cap)
         | None => Throw "Invalid TeraBox URL"
         end
     end).
  { intros url. unfold extractSurl. now destruct (search re_path url). }
  assert (Hpath : forall pre sl tok rest,
     map upper sl = map upper "/s/" ->
     token_run tok rest ->
     none_before re_path pre (sl ++ tok ++ rest) = true ->
     extractSurl (pre ++ sl ++ tok ++ rest) = Ret (JStr tok)).
  { intros pre sl tok rest Hsl Htok Hpre.
    rewrite Hunfold, search_skip by exact Hpre.
    rewrite (search_here _ _ (Some tok)); [reflexivity |].
    now apply match_here_token. }
  assert (Hquery : forall pre q tok rest,
     map upper q = map upper "surl=" ->
     token_run tok rest ->
     search re_path (pre ++ q ++ tok ++ rest) = None ->
     none_before re_query pre (q ++ tok ++ rest) = true ->
     extractSurl (pre ++ q ++ tok ++ rest) = Ret (JStr tok)).
  { intros pre q tok rest Hq Htok Hno Hpre.
    rewrite Hunfold, Hno, search_skip by exact Hpre.
    rewrite (search_here _ _ (Some tok)); [reflexivity |].
    now apply match_here_token. }
  repeat split; try assumption.
  - intros pre Hpre.
    apply (Hpath pre "/s/" "1abc123" []); [reflexivity | | exact Hpre].
    repeat split; discriminate || reflexivity.
  - intros pre Hno Hpre.
    rewrite Hunfold, Hno, search_skip by exact Hpre. reflexivity.
  - intros url H1 H2. now rewrite Hunfold, H1, H2.
Qed.

Lemma extractSurl_leftmost_witness :
  extractSurl ("https://1024terabox.com" ++ "/S/" ++ "1Ab-c_9" ++ "?pwd=1")
    = Ret (JStr "1Ab-c_9") /\
  extractSurl ("https://www.terabox.com/sharing/link?" ++ "surl=" ++ "xyz" ++ "&a=b")
    = Ret (JStr "xyz") /\
  extractSurl ("https://1024terabox.com" ++ "/s/1abc123") = Ret (JStr "1abc123") /\
  extractSurl ("https://www.terabox.com/sharing/link" ++ "?surl=xyz")
    = Ret (JStr "xyz") /\
  extractSurl "https://www.terabox.com/" = Throw "Invalid TeraBox URL".
Proof.
  destruct extractSurl_leftmost as (_ & Hpath & Hquery & Hp & Hq & Hnone).
  split; [| split; [| split; [| split]]].
  - apply Hpath; [reflexivity | | reflexivity].
    repeat split; discriminate || reflexivity.
  - apply Hquery; [reflexivity | | reflexivity | reflexivity].
    repeat split; discriminate || reflexivity.
  - apply Hp. reflexivity.
  - apply Hq; reflexivity.
  - apply Hnone; reflexivity.
Defined.

(** C5 as stated fails: a URL can end in [/s/1abc123] and still carry an
    earlier path-form segment, and a URL can end in [?surl=xyz] after a
    path-form segment; the earlier match is returned. *)
Lemma extractSurl_earlier_segment_wins :
  ~ (forall pre, extractSurl (pre ++ "/s/1abc123") = Ret (JStr "1abc123")) /\
  ~ (forall pre, extractSurl (pre ++ "?surl=xyz") = Ret (JStr "xyz")).
Proof.
  split; intros H.
  - specialize (H "https://www.terabox.com/s/zzz").
    vm_compute in H. discriminate H.
  - specialize (H "https://www.terabox.com/s/zzz").
    vm_compute in H. discriminate H.
Qed.

(** C9.  [getBaseUrl] is total: on every string it returns one member of
    the fixed set of base URLs, the one of the first known host substring
    found when testing them in the order 1024tera.com, 1024terabox.com,
    4funbox.com, teraboxapp.com, and the canonical base when none occurs.
    The function of the five-strategy variant is total in the same way,
    over its own three bases: it tests 1024tera.com, then 1024terabox.com,
    and falls back on the canonical base. *)
Theorem getBaseUrl_total (url : str) :
  In (getBaseUrl url) known_bases /\
  NoDup known_bases /\
  (includes url "1024tera.com" = true ->
   getBaseUrl url = "https://www.1024tera.com") /\
  (includes url "1024tera.com" = false ->
   includes url "1024terabox.com" = true ->
   getBaseUrl url = "https://www.1024terabox.com") /\
  (includes url "1024tera.com" = false ->
   includes url "1024terabox.com" = false ->
   includes url "4funbox.com" = true ->
   getBaseUrl url = "https://www.4funbox.com") /\
  (includes url "1024tera.com" = false ->
   includes url "1024terabox.com" = false ->
   includes url "4funbox.com" = false ->
   includes url "teraboxapp.com" = true ->
   getBaseUrl url = "https://www.teraboxapp.com") /\
  (includes url "1024tera.com" = false ->
   includes url "1024terabox.com" = false ->
   includes url "4funbox.com" = false ->
   includes url "teraboxapp.com" = false ->
   getBaseUrl url = "https://www.terabox.com") /\
  In (V1.getBaseUrl url) V1_known_bases /\
  NoDup V1_known_bases /\
  (includes url "1024tera.com" = true ->
   V1.getBaseUrl url = "https://www.1024tera.com") /\
  (includes url "1024tera.com" = false ->
   includes url "1024terabox.com" = true ->
   V1.getBaseUrl url = "https://www.1024terabox.com") /\
  (includes url "1024tera.com" = false ->
   includes url "1024terabox.com" = false ->
   V1.getBaseUrl url = "https://www.terabox.com").
Proof.
  split; [| split; [| split; [| split; [| split; [| split; [| split;
    [| split; [| split]]]]]]]].
  - unfold getBaseUrl, known_bases.
    destruct (includes url "1024tera.com"); [cbn; auto |].
    destruct (includes url "1024terabox.com"); [cbn; auto |].
    destruct (includes url "4funbox.com"); [cbn; auto |].
    destruct (includes url "teraboxapp.com"); cbn; auto 6.
  - unfold known_bases.
    repeat (constructor; [cbn; intuition discriminate |]). constructor.
  - unfold getBaseUrl. intros H. now rewrite H.
  - unfold getBaseUrl. intros H1 H2. now rewrite H1, H2.
  - unfold getBaseUrl. intros H1 H2 H3. now rewrite H1, H2, H3.
  - unfold getBaseUrl. intros H1 H2 H3 H4. now rewrite H1, H2, H3, H4.
  - unfold getBaseUrl. intros H1 H2 H3 H4. now rewrite H1, H2, H3, H4.
  - unfold V1.getBaseUrl, V1_known_bases.
    destruct (includes url "1024tera.com"); [cbn; auto |].
    destruct (includes url "1024terabox.com"); cbn; auto.
  - unfold V1_known_bases.
    repeat (constructor; [cbn; intuition discriminate |]). constructor.
  - unfold V1.getBaseUrl.
    repeat split; intros;
      repeat match goal with H : includes _ _ = _ |- _ => rewrite H; clear H end;
      reflexivity.
Qed.

Lemma getBaseUrl_total_witness :
  getBaseUrl "https://1024tera.com/s/1x" = "https://www.1024tera.com" /\
  getBaseUrl "https://1024terabox.com/s/1x" = "https://www.1024terabox.com" /\
  getBaseUrl "https://4funbox.com/s/1x" = "https://www.4funbox.com" /\
  getBaseUrl "https://teraboxapp.com/s/1x" = "https://www.teraboxapp.com" /\
  getBaseUrl "not a link" = "https://www.terabox.com" /\
  V1.getBaseUrl "https://1024tera.com/s/1x" = "https://www.1024tera.com" /\
  V1.getBaseUrl "https://1024terabox.com/s/1x" = "https://www.1024terabox.com" /\
  V1.getBaseUrl "https://4funbox.com/s/1x" = "https://www.terabox.com".
Proof.
  pose proof (getBaseUrl_total "https://1024tera.com/s/1x")
    as (_ & _ & H1 & _ & _ & _ & _ & _ & _ & V1 & _).
  pose proof (getBaseUrl_total "https://1024terabox.com/s/1x")
    as (_ & _ & _ & H2 & _ & _ & _ & _ & _ & _ & V2 & _).
  pose proof (getBaseUrl_total "https://4funbox.com/s/1x")
    as (_ & _ & _ & _ & H3 & _ & _ & _ & _ & _ & _ & V3).
  pose proof (getBaseUrl_total "https://teraboxapp.com/s/1x")
    as (_ & _ & _ & _ & _ & H4 & _).
  pose proof (getBaseUrl_total "not a link") as (_ & _ & _ & _ & _ & _ & H5 & _).
  split; [apply H1; reflexivity |].
  split; [apply H2; reflexivity |].
  split; [apply H3; reflexivity |].
  split; [apply H4; reflexivity |].
  split; [apply H5; reflexivity |].
  split; [apply V1; reflexivity |].
  split; [apply V2; reflexivity |].
  apply V3; reflexivity.
Defined.

(** ** Facts about the orchestrator *)

Lemma attempt_run (label tag : str) (strategy : str -> M JsVal)
    (shareUrl : str) (errors : list str) (net : Net) (w : World) :
  attempt label tag strategy shareUrl errors net w =
  let o := strategy shareUrl net (logged label w) in
  (Ret (flagged (fst o), match flagged (fst o) with
                         | Some _ => errors
                         | None => errors ++ entries tag (fst o)
                         end),
   snd o).
Proof.
  unfold attempt, try_catch, bind, console_log, emit, lift, ret, logged.
  cbv zeta.
  destruct (strategy shareUrl net _) as [[r | e] w']; cbn [fst snd flagged];
    [| unfold entries; reflexivity].
  unfold entries, raised.
  destruct (prop r "success") as [s | e]; [| reflexivity].
  destruct (truthy s); [reflexivity | now rewrite app_nil_r].
Qed.

(** The chain in terms of the four attempts, each running in the world its
    predecessor left. *)
Lemma chain_run (s1 s2 s3 s4 : str -> M JsVal) (shareUrl : str) (net : Net)
    (w0 : World) :
  let o1 := s1 shareUrl net (logged "Trying API 1..." w0) in
  let o2 := s2 shareUrl net (logged "Trying API 2..." (snd o1)) in
  let o3 := s3 shareUrl net (logged "Trying Direct API..." (snd o2)) in
  let o4 := s4 shareUrl net (logged "Trying Scrape..." (snd o3)) in
  getTeraboxData s1 s2 s3 s4 shareUrl net w0 =
  match flagged (fst o1) with
  | Some r => (Ret r, snd o1)
  | None =>
  match flagged (fst o2) with
  | Some r => (Ret r, snd o2)
  | None =>
  match flagged (fst o3) with
  | Some r => (Ret r, snd o3)
  | None =>
  match flagged (fst o4) with
  | Some r => (Ret r, snd o4)
  | None =>
      (Ret (failure_payload
              (entries "API1: " (fst o1) ++ entries "API2: " (fst o2) ++
               entries "Direct: " (fst o3) ++ entries "Scrape: " (fst o4))),
       snd o4)
  end end end end.
Proof.
  intros o1 o2 o3 o4. unfold getTeraboxData.
  unfold bind at 1. rewrite attempt_run. cbv zeta. fold o1.
  destruct (flagged (fst o1)); [reflexivity |].
  unfold bind at 1. rewrite attempt_run. cbv zeta. fold o2.
  destruct (flagged (fst o2)); [reflexivity |].
  unfold bind at 1. rewrite attempt_run. cbv zeta. fold o3.
  destruct (flagged (fst o3)); [reflexivity |].
  unfold bind at 1. rewrite attempt_run. cbv zeta. fold o4.
  destruct (flagged (fst o4)); [reflexivity |].
  unfold ret, failure_payload. cbn [app]. now rewrite <- !app_assoc.
Qed.

(** ** Facts about the strategies *)

Lemma well_tagged_flagged (tag : str) (o : Outcome JsVal) :
  well_tagged tag o ->
  match flagged o with
  | Some r => o = Ret r /\ field r "success" = JBool true /\
              field r "source" = JStr tag
  | None => exists e, o = Throw e
  end.
Proof.
  destruct o as [r | e]; cbn [well_tagged flagged]; [| intros _; now exists e].
  intros [Hs Ht].
  destruct r; try discriminate Hs.
  cbn [prop]. rewrite Hs. cbn [truthy]. repeat split; assumption.
Qed.

Ltac run_step :=
  match goal with
  | |- context [match ?n ?t ?u ?h with NetFail _ => _ | NetOk _ => _ end] =>
      destruct (n t u h)
  | |- context [match extractSurl ?u with Ret _ => _ | Throw _ => _ end] =>
      destruct (extractSurl u)
  | |- context [match prop ?v ?n with Ret _ => _ | Throw _ => _ end] =>
      destruct (prop v n)
  | |- context [match map_outcome ?f ?l with Ret _ => _ | Throw _ => _ end] =>
      destruct (map_outcome f l)
  | |- context [if ?c then _ else _] => destruct c
  | |- context [match jor ?a ?b with _ => _ end] => destruct (jor a b)
  end; cbn [fst snd well_tagged].

Lemma tryNepCoderApi_tagged (url : str) (net : Net) (w : World) :
  well_tagged "nepcoderdevs" (fst (tryNepCoderApi url net w)).
Proof.
  unfold tryNepCoderApi, bind, client_get, guard, ret, throw.
  repeat run_step; try exact I; split; reflexivity.
Qed.

Lemma tryUdayApi_tagged (url : str) (net : Net) (w : World) :
  well_tagged "udayscripts" (fst (tryUdayApi url net w)).
Proof.
  unfold tryUdayApi, bind, client_get, guard, ret, throw.
  repeat run_step; try exact I; split; reflexivity.
Qed.

Lemma tryDirectApi_tagged (url : str) (net : Net) (w : World) :
  well_tagged "direct" (fst (tryDirectApi url net w)).
Proof.
  unfold tryDirectApi, bind, client_get, guard, lift, ret, throw.
  repeat run_step; try exact I; split; reflexivity.
Qed.

Lemma scrape_html_tagged (html : str) : well_tagged "scrape" (scrape_html html).
Proof.
  unfold scrape_html.
  destruct (includes html "verify" || includes html "验证"); [exact I |].
  destruct (search re_list html) as [cap |].
  - unfold scrape_list.
    destruct (JSON_parse _) as [[] |]; try exact I.
    destruct (map_outcome scrape_entry items) as [files | e]; [| exact I].
    destruct (0 <? length files)%nat; [split; reflexivity |].
    unfold scrape_single.
    destruct (search re_filename html), (search re_fs_id html);
      try exact I; split; reflexivity.
  - unfold scrape_single.
    destruct (search re_filename html), (search re_fs_id html);
      try exact I; split; reflexivity.
Qed.

Lemma tryPageScrape_tagged (url : str) (net : Net) (w : World) :
  well_tagged "scrape" (fst (tryPageScrape url net w)).
Proof.
  unfold tryPageScrape, bind, client_get, lift, throw.
  destruct (net _ _ _) as [e | data]; [exact I |].
  destruct data; cbn [fst]; try exact I.
  - apply scrape_html_tagged.
  - destruct (_ || _); exact I.
Qed.

(** ** Facts about the five-strategy loop *)

(** The loop stops at the first strategy whose result is flagged
    successful, and otherwise goes on with the message of what was raised,
    if anything was. *)
Lemma V1_try_each_step (api : str -> M JsVal) (rest : list (str -> M JsVal))
    (shareUrl lastError : str) (net : Net) (w : World) :
  V1.try_each (api :: rest) shareUrl lastError net w =
  match api shareUrl net w with
  | (Ret r, w') =>
      if truthy r && truthy (field r "success") then (Ret r, w')
      else V1.try_each rest shareUrl lastError net w'
  | (Throw e, w') => V1.try_each rest shareUrl e net w'
  end.
Proof.
  cbn [V1.try_each]. unfold bind at 1. unfold try_catch, bind, ret.
  destruct (api shareUrl net w) as [[r | e] w']; [| reflexivity].
  now destruct (truthy r && truthy (field r "success")).
Qed.

Lemma V1_try_each_step_flagged (api : str -> M JsVal)
    (rest : list (str -> M JsVal)) (shareUrl lastError : str) (net : Net)
    (w : World) :
  V1.try_each (api :: rest) shareUrl lastError net w =
  let o := api shareUrl net w in
  match V1_flagged (fst o) with
  | Some r => (Ret r, snd o)
  | None =>
      V1.try_each rest shareUrl
        (match fst o with Throw e => e | Ret _ => lastError end) net (snd o)
  end.
Proof.
  rewrite V1_try_each_step. cbv zeta.
  destruct (api shareUrl net w) as [[r | e] w']; cbn [fst snd V1_flagged];
    [| reflexivity].
  now destruct (truthy r && truthy (field r "success")).
Qed.

(** The loop over five strategies in terms of the five attempts, each
    running in the world its predecessor left. *)
Lemma V1_chain_run (s1 s2 s3 s4 s5 : str -> M JsVal) (shareUrl lastError : str)
    (net : Net) (w0 : World) :
  let o1 := s1 shareUrl net w0 in
  let o2 := s2 shareUrl net (snd o1) in
  let o3 := s3 shareUrl net (snd o2) in
  let o4 := s4 shareUrl net (snd o3) in
  let o5 := s5 shareUrl net (snd o4) in
  V1.try_each [s1; s2; s3; s4; s5] shareUrl lastError net w0 =
  match V1_flagged (fst o1) with
  | Some r => (Ret r, snd o1)
  | None =>
  match V1_flagged (fst o2) with
  | Some r => (Ret r, snd o2)
  | None =>
  match V1_flagged (fst o3) with
  | Some r => (Ret r, snd o3)
  | None =>
  match V1_flagged (fst o4) with
  | Some r => (Ret r, snd o4)
  | None =>
  match V1_flagged (fst o5) with
  | Some r => (Ret r, snd o5)
  | None =>
      (Ret (obj [("success", JBool false);
                 ("error",
                  JStr (V1_message (fst o5) (V1_message (fst o4)
                         (V1_message (fst o3) (V1_message (fst o2)
                            (V1_message (fst o1) lastError))))))]),
       snd o5)
  end end end end end.
Proof.
  intros o1 o2 o3 o4 o5.
  rewrite V1_try_each_step_flagged. cbv zeta. fold o1.
  destruct (V1_flagged (fst o1)); [reflexivity |].
  rewrite V1_try_each_step_flagged. cbv zeta. fold o2.
  destruct (V1_flagged (fst o2)); [reflexivity |].
  rewrite V1_try_each_step_flagged. cbv zeta. fold o3.
  destruct (V1_flagged (fst o3)); [reflexivity |].
  rewrite V1_try_each_step_flagged. cbv zeta. fold o4.
  destruct (V1_flagged (fst o4)); [reflexivity |].
  rewrite V1_try_each_step_flagged. cbv zeta. fold o5.
  destruct (V1_flagged (fst o5)); reflexivity.
Qed.

(** What the five-strategy loop flags of a strategy that tags its
    successes. *)
Lemma V1_well_tagged_flagged (tag : str) (o : Outcome JsVal) :
  well_tagged tag o ->
  match V1_flagged o with
  | Some r => o = Ret r /\ field r "success" = JBool true /\
              field r "source" = JStr tag
  | None => exists e, o = Throw e
  end.
Proof.
  destruct o as [r | e]; cbn [well_tagged V1_flagged];
    [| intros _; now exists e].
  intros [Hs Ht].
  destruct r; try discriminate Hs.
  rewrite Hs. cbn [truthy andb]. repeat split; assumption.
Qed.

(** Each strategy of the five-strategy variant raises or returns a result
    carrying [success: true] and its own [source]. *)
Lemma V1_strategies_tagged (url : str) (net : Net) (w : World) :
  well_tagged "api1" (fst (V1.tryApi1 url net w)) /\
  well_tagged "api2" (fst (V1.tryApi2 url net w)) /\
  well_tagged "api3" (fst (V1.tryApi3 url net w)) /\
  well_tagged "direct" (fst (V1.tryApi4 url net w)) /\
  well_tagged "scrape" (fst (V1.tryDirectScrape url net w)).
Proof.
  split; [| split; [| split; [| split]]].
  - unfold V1.tryApi1, bind, V1.axios_get, ret, throw.
    destruct (net _ _ _); [exact I |].
    destruct (truthy data && _); [now split | exact I].
  - unfold V1.tryApi2, bind, V1.axios_get, lift, ret, throw.
    destruct (net _ _ _); [exact I |].
    destruct (truthy data && _); [| exact I].
    destruct (V1.formatApiResponse data); [now split | exact I].
  - unfold V1.tryApi3, bind, V1.axios_get, lift, ret, throw.
    destruct (net _ _ _); [exact I |].
    destruct (truthy data && _); [| exact I].
    destruct (V1.formatApiResponse data); [now split | exact I].
  - unfold V1.tryApi4, bind, V1.axios_get, lift, guard, ret, throw. cbv zeta.
    repeat match goal with
           | |- context [match V1.extractSurl ?x with _ => _ end] =>
               destruct (V1.extractSurl x)
           | |- context [match ?n ?t ?x ?h with NetFail _ => _ | NetOk _ => _ end] =>
               destruct (n t x h)
           | |- context [match prop ?v ?n with _ => _ end] => destruct (prop v n)
           | |- context [if is_int 0 ?x then _ else _] => destruct (is_int 0 x)
           | |- context [match jor ?a ?b with _ => _ end] => destruct (jor a b)
           | |- context [match map_outcome ?f ?l with _ => _ end] =>
               destruct (map_outcome f l)
           end; cbn [fst well_tagged]; try exact I; now split.
  - unfold V1.tryDirectScrape, bind, V1.axios_get, lift, throw.
    destruct (net _ _ _) as [e | data]; [exact I |].
    destruct data; cbn [fst]; try exact I.
    unfold V1.scrape_html.
    destruct (search re_list s); [| exact I].
    destruct (JSON_parse _) as [[] |]; try exact I.
    destruct (map_outcome _ _); [now split | exact I].
Qed.

(** The chain of the five-strategy variant always returns, and what it
    returns carries a boolean [success]. *)
Lemma V1_getTeraboxData_total (url : str) (net : Net) (w : World) :
  exists r w' b,
    V1.getTeraboxData url net w = (Ret r, w') /\ field r "success" = JBool b.
Proof.
  unfold V1.getTeraboxData, V1.apis. rewrite V1_chain_run. cbv zeta.
  destruct (V1_strategies_tagged url net w) as (T1 & _).
  apply V1_well_tagged_flagged in T1.
  destruct (V1_flagged (fst (V1.tryApi1 url net w))) as [r |];
    [exists r; do 2 eexists; split; [reflexivity | apply T1] |].
  match goal with |- context [V1.tryApi2 url net ?w1] =>
    destruct (V1_strategies_tagged url net w1) as (_ & T2 & _)
  end.
  apply V1_well_tagged_flagged in T2.
  destruct (V1_flagged (fst (V1.tryApi2 url net _))) as [r |];
    [exists r; do 2 eexists; split; [reflexivity | apply T2] |].
  match goal with |- context [V1.tryApi3 url net ?w1] =>
    destruct (V1_strategies_tagged url net w1) as (_ & _ & T3 & _)
  end.
  apply V1_well_tagged_flagged in T3.
  destruct (V1_flagged (fst (V1.tryApi3 url net _))) as [r |];
    [exists r; do 2 eexists; split; [reflexivity | apply T3] |].
  match goal with |- context [V1.tryApi4 url net ?w1] =>
    destruct (V1_strategies_tagged url net w1) as (_ & _ & _ & T4 & _)
  end.
  apply V1_well_tagged_flagged in T4.
  destruct (V1_flagged (fst (V1.tryApi4 url net _))) as [r |];
    [exists r; do 2 eexists; split; [reflexivity | apply T4] |].
  match goal with |- context [V1.tryDirectScrape url net ?w1] =>
    destruct (V1_strategies_tagged url net w1) as (_ & _ & _ & _ & T5)
  end.
  apply V1_well_tagged_flagged in T5.
  destruct (V1_flagged (fst (V1.tryDirectScrape url net _))) as [r |];
    [exists r; do 2 eexists; split; [reflexivity | apply T5] |].
  do 3 eexists. split; reflexivity.
Qed.

(** ** Claims about the orchestrator *)

(** C1.  The orchestrator runs the strategies in their fixed order and
    stops at the first success, in both variants of the program.  Whatever
    the strategies are, when strategy i is the first whose attempt returns
    a result flagged successful, the orchestrator returns that very result
    and leaves the world as strategy i left it, so no later strategy runs.
    For the strategies of the application the result's [source] is the
    identity of strategy i: nepcoderdevs, udayscripts, direct, scrape in
    the four-strategy variant; api1, api2, api3, direct, scrape in the
    five-strategy one. *)
Theorem orchestrator_first_success :
  (forall (s1 s2 s3 s4 : str -> M JsVal) (url : str) (net : Net) (w0 : World),
     let o1 := s1 url net (logged "Trying API 1..." w0) in
     let o2 := s2 url net (logged "Trying API 2..." (snd o1)) in
     let o3 := s3 url net (logged "Trying Direct API..." (snd o2)) in
     let o4 := s4 url net (logged "Trying Scrape..." (snd o3)) in
     (forall r, flagged (fst o1) = Some r ->
        getTeraboxData s1 s2 s3 s4 url net w0 = (Ret r, snd o1)) /\
     (forall r, flagged (fst o1) = None -> flagged (fst o2) = Some r ->
        getTeraboxData s1 s2 s3 s4 url net w0 = (Ret r, snd o2)) /\
     (forall r, flagged (fst o1) = None -> flagged (fst o2) = None ->
        flagged (fst o3) = Some r ->
        getTeraboxData s1 s2 s3 s4 url net w0 = (Ret r, snd o3)) /\
     (forall r, flagged (fst o1) = None -> flagged (fst o2) = None ->
        flagged (fst o3) = None -> flagged (fst o4) = Some r ->
        getTeraboxData s1 s2 s3 s4 url net w0 = (Ret r, snd o4))) /\
  (forall (url : str) (net : Net) (w0 : World),
     let o1 := tryNepCoderApi url net (logged "Trying API 1..." w0) in
     let o2 := tryUdayApi url net (logged "Trying API 2..." (snd o1)) in
     let o3 := tryDirectApi url net (logged "Trying Direct API..." (snd o2)) in
     let o4 := tryPageScrape url net (logged "Trying Scrape..." (snd o3)) in
     (forall r, flagged (fst o1) = Some r ->
        getTeraboxData_app url net w0 = (Ret r, snd o1) /\
        field r "source" = JStr "nepcoderdevs") /\
     (forall r, flagged (fst o1) = None -> flagged (fst o2) = Some r ->
        getTeraboxData_app url net w0 = (Ret r, snd o2) /\
        field r "source" = JStr "udayscripts") /\
     (forall r, flagged (fst o1) = None -> flagged (fst o2) = None ->
        flagged (fst o3) = Some r ->
        getTeraboxData_app url net w0 = (Ret r, snd o3) /\
        field r "source" = JStr "direct") /\
     (forall r, flagged (fst o1) = None -> flagged (fst o2) = None ->
        flagged (fst o3) = None -> flagged (fst o4) = Some r ->
        getTeraboxData_app url net w0 = (Ret r, snd o4) /\
        field r "source" = JStr "scrape")) /\
  (forall (s1 s2 s3 s4 s5 : str -> M JsVal) (url lastError : str) (net : Net)
          (w0 : World),
     let o1 := s1 url net w0 in
     let o2 := s2 url net (snd o1) in
     let o3 := s3 url net (snd o2) in
     let o4 := s4 url net (snd o3) in
     let o5 := s5 url net (snd o4) in
     (forall r, V1_flagged (fst o1) = Some r ->
        V1.try_each [s1; s2; s3; s4; s5] url lastError net w0 = (Ret r, snd o1)) /\
     (forall r, V1_flagged (fst o1) = None -> V1_flagged (fst o2) = Some r ->
        V1.try_each [s1; s2; s3; s4; s5] url lastError net w0 = (Ret r, snd o2)) /\
     (forall r, V1_flagged (fst o1) = None -> V1_flagged (fst o2) = None ->
        V1_flagged (fst o3) = Some r ->
        V1.try_each [s1; s2; s3; s4; s5] url lastError net w0 = (Ret r, snd o3)) /\
     (forall r, V1_flagged (fst o1) = None -> V1_flagged (fst o2) = None ->
        V1_flagged (fst o3) = None -> V1_flagged (fst o4) = Some r ->
        V1.try_each [s1; s2; s3; s4; s5] url lastError net w0 = (Ret r, snd o4)) /\
     (forall r, V1_flagged (fst o1) = None -> V1_flagged (fst o2) = None ->
        V1_flagged (fst o3) = None -> V1_flagged (fst o4) = None ->
        V1_flagged (fst o5) = Some r ->
        V1.try_each [s1; s2; s3; s4; s5] url lastError net w0 = (Ret r, snd o5))) /\
  (forall (url : str) (net : Net) (w0 : World),
     let o1 := V1.tryApi1 url net w0 in
     let o2 := V1.tryApi2 url net (snd o1) in
     let o3 := V1.tryApi3 url net (snd o2) in
     let o4 := V1.tryApi4 url net (snd o3) in
     let o5 := V1.tryDirectScrape url net (snd o4) in
     (forall r, V1_flagged (fst o1) = Some r ->
        V1.getTeraboxData url net w0 = (Ret r, snd o1) /\
        field r "source" = JStr "api1") /\
     (forall r, V1_flagged (fst o1) = None -> V1_flagged (fst o2) = Some r ->
        V1.getTeraboxData url net w0 = (Ret r, snd o2) /\
        field r "source" = JStr "api2") /\
     (forall r, V1_flagged (fst o1) = None -> V1_flagged (fst o2) = None ->
        V1_flagged (fst o3) = Some r ->
        V1.getTeraboxData url net w0 = (Ret r, snd o3) /\
        field r "source" = JStr "api3") /\
     (forall r, V1_flagged (fst o1) = None -> V1_flagged (fst o2) = None ->
        V1_flagged (fst o3) = None -> V1_flagged (fst o4) = Some r ->
        V1.getTeraboxData url net w0 = (Ret r, snd o4) /\
        field r "source" = JStr "direct") /\
     (forall r, V1_flagged (fst o1) = None -> V1_flagged (fst o2) = None ->
        V1_flagged (fst o3) = None -> V1_flagged (fst o4) = None ->
        V1_flagged (fst o5) = Some r ->
        V1.getTeraboxData url net w0 = (Ret r, snd o5) /\
        field r "source" = JStr "scrape")).
Proof.
  assert (Hgen : forall (s1 s2 s3 s4 : str -> M JsVal) url net w0,
     let o1 := s1 url net (logged "Trying API 1..." w0) in
     let o2 := s2 url net (logged "Trying API 2..." (snd o1)) in
     let o3 := s3 url net (logged "Trying Direct API..." (snd o2)) in
     let o4 := s4 url net (logged "Trying Scrape..." (snd o3)) in
     (forall r, flagged (fst o1) = Some r ->
        getTeraboxData s1 s2 s3 s4 url net w0 = (Ret r, snd o1)) /\
     (forall r, flagged (fst o1) = None -> flagged (fst o2) = Some r ->
        getTeraboxData s1 s2 s3 s4 url net w0 = (Ret r, snd o2)) /\
     (forall r, flagged (fst o1) = None -> flagged (fst o2) = None ->
        flagged (fst o3) = Some r ->
        getTeraboxData s1 s2 s3 s4 url net w0 = (Ret r, snd o3)) /\
     (forall r, flagged (fst o1) = None -> flagged (fst o2) = None ->
        flagged (fst o3) = None -> flagged (fst o4) = Some r ->
        getTeraboxData s1 s2 s3 s4 url net w0 = (Ret r, snd o4))).
  { intros. subst o1 o2 o3 o4.
    repeat split; intros; rewrite chain_run;
      repeat match goal with H : flagged _ = _ |- _ => rewrite H; clear H end;
      reflexivity. }
  assert (Hloop : forall (s1 s2 s3 s4 s5 : str -> M JsVal) url lastError net w0,
     let o1 := s1 url net w0 in
     let o2 := s2 url net (snd o1) in
     let o3 := s3 url net (snd o2) in
     let o4 := s4 url net (snd o3) in
     let o5 := s5 url net (snd o4) in
     (forall r, V1_flagged (fst o1) = Some r ->
        V1.try_each [s1; s2; s3; s4; s5] url lastError net w0 = (Ret r, snd o1)) /\
     (forall r, V1_flagged (fst o1) = None -> V1_flagged (fst o2) = Some r ->
        V1.try_each [s1; s2; s3; s4; s5] url lastError net w0 = (Ret r, snd o2)) /\
     (forall r, V1_flagged (fst o1) = None -> V1_flagged (fst o2) = None ->
        V1_flagged (fst o3) = Some r ->
        V1.try_each [s1; s2; s3; s4; s5] url lastError net w0 = (Ret r, snd o3)) /\
     (forall r, V1_flagged (fst o1) = None -> V1_flagged (fst o2) = None ->
        V1_flagged (fst o3) = None -> V1_flagged (fst o4) = Some r ->
        V1.try_each [s1; s2; s3; s4; s5] url lastError net w0 = (Ret r, snd o4)) /\
     (forall r, V1_flagged (fst o1) = None -> V1_flagged (fst o2) = None ->
        V1_flagged (fst o3) = None -> V1_flagged (fst o4) = None ->
        V1_flagged (fst o5) = Some r ->
        V1.try_each [s1; s2; s3; s4; s5] url lastError net w0 = (Ret r, snd o5))).
  { intros. subst o1 o2 o3 o4 o5.
    repeat split; intros; rewrite V1_chain_run; cbv zeta;
      repeat match goal with H : V1_flagged _ = _ |- _ => rewrite H; clear H end;
      reflexivity. }
  split; [exact Hgen |]. split; [| split; [exact Hloop |]].
  - intros url net w0 o1 o2 o3 o4.
    destruct (Hgen tryNepCoderApi tryUdayApi tryDirectApi tryPageScrape url net w0)
      as (H1 & H2 & H3 & H4).
    fold o1 o2 o3 o4 in H1, H2, H3, H4.
    pose proof (well_tagged_flagged _ _
                  (tryNepCoderApi_tagged url net (logged "Trying API 1..." w0))) as T1.
    pose proof (well_tagged_flagged _ _
                  (tryUdayApi_tagged url net (logged "Trying API 2..." (snd o1)))) as T2.
    pose proof (well_tagged_flagged _ _
                  (tryDirectApi_tagged url net (logged "Trying Direct API..." (snd o2)))) as T3.
    pose proof (well_tagged_flagged _ _
                  (tryPageScrape_tagged url net (logged "Trying Scrape..." (snd o3)))) as T4.
    fold o1 in T1. fold o2 in T2. fold o3 in T3. fold o4 in T4.
    unfold getTeraboxData_app.
    repeat split; intros.
    + now apply H1.
    + rewrite H in T1. tauto.
    + now apply H2.
    + rewrite H0 in T2. tauto.
    + now apply H3.
    + rewrite H5 in T3. tauto.
    + now apply H4.
    + rewrite H6 in T4. tauto.
  - intros url net w0 o1 o2 o3 o4 o5.
    destruct (Hloop V1.tryApi1 V1.tryApi2 V1.tryApi3 V1.tryApi4 V1.tryDirectScrape
                url "All methods failed" net w0) as (H1 & H2 & H3 & H4 & H5).
    fold o1 o2 o3 o4 o5 in H1, H2, H3, H4, H5.
    destruct (V1_strategies_tagged url net w0) as (T1 & _).
    destruct (V1_strategies_tagged url net (snd o1)) as (_ & T2 & _).
    destruct (V1_strategies_tagged url net (snd o2)) as (_ & _ & T3 & _).
    destruct (V1_strategies_tagged url net (snd o3)) as (_ & _ & _ & T4 & _).
    destruct (V1_strategies_tagged url net (snd o4)) as (_ & _ & _ & _ & T5).
    apply V1_well_tagged_flagged in T1, T2, T3, T4, T5.
    fold o1 in T1. fold o2 in T2. fold o3 in T3. fold o4 in T4. fold o5 in T5.
    unfold V1.getTeraboxData, V1.apis.
    split; [| split; [| split; [| split]]].
    + intros r F1. split; [now apply H1 |]. rewrite F1 in T1. tauto.
    + intros r F1 F2. split; [now apply H2 |]. rewrite F2 in T2. tauto.
    + intros r F1 F2 F3. split; [now apply H3 |]. rewrite F3 in T3. tauto.
    + intros r F1 F2 F3 F4. split; [now apply H4 |]. rewrite F4 in T4. tauto.
    + intros r F1 F2 F3 F4 F5. split; [now apply H5 |]. rewrite F5 in T5. tauto.
Qed.

(** Mocked strategies of which the second succeeds: the later ones are
    never called, and the result is the second's; in the loop of the
    five-strategy variant as well. *)
Lemma orchestrator_first_success_witness :
  getTeraboxData
    (mock "one" (Throw "down")) (mock "two" (Ret (ok_result "two")))
    (mock "three" (Ret (ok_result "three"))) (mock "four" (Throw "down"))
    "https://terabox.com/s/1abc" (fun _ _ _ => NetFail "offline")
    (mkWorld [] [])
  = (Ret (ok_result "two"),
     mkWorld [ELog "Trying API 1..."; ELog "called one";
              ELog "Trying API 2..."; ELog "called two"] []) /\
  V1.try_each
    [mock "one" (Throw "down"); mock "two" (Ret (ok_result "two"));
     mock "three" (Ret (ok_result "three")); mock "four" (Throw "down");
     mock "five" (Ret (ok_result "five"))]
    "https://terabox.com/s/1abc" "All methods failed"
    (fun _ _ _ => NetFail "offline") (mkWorld [] [])
  = (Ret (ok_result "two"),
     mkWorld [ELog "called one"; ELog "called two"] []).
Proof.
  split.
  - exact (proj1 (proj2 (proj1 orchestrator_first_success
             (mock "one" (Throw "down")) (mock "two" (Ret (ok_result "two")))
             (mock "three" (Ret (ok_result "three"))) (mock "four" (Throw "down"))
             "https://terabox.com/s/1abc" (fun _ _ _ => NetFail "offline")
             (mkWorld [] [])))
           (ok_result "two") eq_refl eq_refl).
  - exact (proj1 (proj2 (proj1 (proj2 (proj2 orchestrator_first_success))
             (mock "one" (Throw "down")) (mock "two" (Ret (ok_result "two")))
             (mock "three" (Ret (ok_result "three"))) (mock "four" (Throw "down"))
             (mock "five" (Ret (ok_result "five")))
             "https://terabox.com/s/1abc" "All methods failed"
             (fun _ _ _ => NetFail "offline") (mkWorld [] [])))
           (ok_result "two") eq_refl eq_refl).
Defined.

(** C2, as the code has it.  An attempt that raises (in the strategy, or in
    reading the flag of what it returned) adds its message, prefixed with
    the strategy's tag, to the error log; an attempt that returns a result
    not flagged successful without raising adds nothing.  When no strategy
    succeeds the payload's [details] is the log in strategy order; when all
    four raise it has exactly the four entries "API1: ", "API2: ",
    "Direct: ", "Scrape: " followed by the messages.  The four strategies
    of the application only fail by raising, so there every exhausted chain
    ends with those four entries. *)
Theorem orchestrator_error_log :
  (forall tag o e, raised o = Some e -> entries tag o = [tag ++ e]) /\
  (forall tag r s, prop r "success" = Ret s -> truthy s = false ->
     entries tag (Ret r) = []) /\
  (forall (s1 s2 s3 s4 : str -> M JsVal) (url : str) (net : Net) (w0 : World),
     let o1 := s1 url net (logged "Trying API 1..." w0) in
     let o2 := s2 url net (logged "Trying API 2..." (snd o1)) in
     let o3 := s3 url net (logged "Trying Direct API..." (snd o2)) in
     let o4 := s4 url net (logged "Trying Scrape..." (snd o3)) in
     (flagged (fst o1) = None -> flagged (fst o2) = None ->
      flagged (fst o3) = None -> flagged (fst o4) = None ->
      getTeraboxData s1 s2 s3 s4 url net w0 =
      (Ret (failure_payload
              (entries "API1: " (fst o1) ++ entries "API2: " (fst o2) ++
               entries "Direct: " (fst o3) ++ entries "Scrape: " (fst o4))),
       snd o4)) /\
     (forall e1 e2 e3 e4,
        fst o1 = Throw e1 -> fst o2 = Throw e2 ->
        fst o3 = Throw e3 -> fst o4 = Throw e4 ->
        getTeraboxData s1 s2 s3 s4 url net w0 =
        (Ret (failure_payload
                ["API1: " ++ e1; "API2: " ++ e2;
                 "Direct: " ++ e3; "Scrape: " ++ e4]),
         snd o4))) /\
  (forall (url : str) (net : Net) (w0 : World),
     let o1 := tryNepCoderApi url net (logged "Trying API 1..." w0) in
     let o2 := tryUdayApi url net (logged "Trying API 2..." (snd o1)) in
     let o3 := tryDirectApi url net (logged "Trying Direct API..." (snd o2)) in
     let o4 := tryPageScrape url net (logged "Trying Scrape..." (snd o3)) in
     flagged (fst o1) = None -> flagged (fst o2) = None ->
     flagged (fst o3) = None -> flagged (fst o4) = None ->
     exists e1 e2 e3 e4,
       fst o1 = Throw e1 /\ fst o2 = Throw e2 /\
       fst o3 = Throw e3 /\ fst o4 = Throw e4 /\
       getTeraboxData_app url net w0 =
       (Ret (failure_payload
               ["API1: " ++ e1; "API2: " ++ e2;
                "Direct: " ++ e3; "Scrape: " ++ e4]),
        snd o4)).
Proof.
  assert (Hthrow : forall (s1 s2 s3 s4 : str -> M JsVal) url net w0,
     let o1 := s1 url net (logged "Trying API 1..." w0) in
     let o2 := s2 url net (logged "Trying API 2..." (snd o1)) in
     let o3 := s3 url net (logged "Trying Direct API..." (snd o2)) in
     let o4 := s4 url net (logged "Trying Scrape..." (snd o3)) in
     forall e1 e2 e3 e4,
        fst o1 = Throw e1 -> fst o2 = Throw e2 ->
        fst o3 = Throw e3 -> fst o4 = Throw e4 ->
        getTeraboxData s1 s2 s3 s4 url net w0 =
        (Ret (failure_payload
                ["API1: " ++ e1; "API2: " ++ e2;
                 "Direct: " ++ e3; "Scrape: " ++ e4]),
         snd o4)).
  { intros s1 s2 s3 s4 url net w0 o1 o2 o3 o4 e1 e2 e3 e4 E1 E2 E3 E4.
    rewrite chain_run. fold o1 o2 o3 o4. rewrite E1, E2, E3, E4.
    reflexivity. }
  split; [| split; [| split]].
  - intros tag o e H. unfold entries. now rewrite H.
  - intros tag r s Hp Hs. unfold entries, raised. now rewrite Hp.
  - intros s1 s2 s3 s4 url net w0 o1 o2 o3 o4. split.
    + intros F1 F2 F3 F4. rewrite chain_run. fold o1 o2 o3 o4.
      now rewrite F1, F2, F3, F4.
    + now apply Hthrow.
  - intros url net w0 o1 o2 o3 o4 F1 F2 F3 F4.
    pose proof (well_tagged_flagged _ _
                  (tryNepCoderApi_tagged url net (logged "Trying API 1..." w0))) as T1.
    pose proof (well_tagged_flagged _ _
                  (tryUdayApi_tagged url net (logged "Trying API 2..." (snd o1)))) as T2.
    pose proof (well_tagged_flagged _ _
                  (tryDirectApi_tagged url net (logged "Trying Direct API..." (snd o2)))) as T3.
    pose proof (well_tagged_flagged _ _
                  (tryPageScrape_tagged url net (logged "Trying Scrape..." (snd o3)))) as T4.
    fold o1 in T1. fold o2 in T2. fold o3 in T3. fold o4 in T4.
    rewrite F1 in T1. rewrite F2 in T2. rewrite F3 in T3. rewrite F4 in T4.
    destruct T1 as [e1 E1], T2 as [e2 E2], T3 as [e3 E3], T4 as [e4 E4].
    exists e1, e2, e3, e4. repeat split; try assumption.
    now apply Hthrow.
Qed.

(** Four mocked strategies that all raise: four entries, in order. *)
Lemma orchestrator_error_log_witness :
  getTeraboxData
    (mock "one" (Throw "timeout")) (mock "two" (Throw "Empty response"))
    (mock "three" (Throw "No files found"))
    (mock "four" (Throw "Verification required"))
    "https://terabox.com/s/1abc" (fun _ _ _ => NetFail "offline")
    (mkWorld [] [])
  = (Ret (failure_payload
            ["API1: timeout" : str; "API2: Empty response" : str;
             "Direct: No files found" : str;
             "Scrape: Verification required" : str]),
     mkWorld [ELog "Trying API 1..."; ELog "called one";
              ELog "Trying API 2..."; ELog "called two";
              ELog "Trying Direct API..."; ELog "called three";
              ELog "Trying Scrape..."; ELog "called four"] []).
Proof.
  exact (proj2 (proj1 (proj2 (proj2 orchestrator_error_log))
           (mock "one" (Throw "timeout")) (mock "two" (Throw "Empty response"))
           (mock "three" (Throw "No files found"))
           (mock "four" (Throw "Verification required"))
           "https://terabox.com/s/1abc" (fun _ _ _ => NetFail "offline")
           (mkWorld [] []))
         "timeout" "Empty response" "No files found" "Verification required"
         eq_refl eq_refl eq_refl eq_refl).
Defined.

(** C2 as stated fails: a strategy that returns a result not flagged
    successful, without raising, leaves no entry in the log, so four failed
    attempts can end with fewer than four entries. *)
Lemma orchestrator_unflagged_result_not_logged :
  ~ (forall (s1 s2 s3 s4 : str -> M JsVal) (url : str) (net : Net) (w0 : World),
       let o1 := s1 url net (logged "Trying API 1..." w0) in
       let o2 := s2 url net (logged "Trying API 2..." (snd o1)) in
       let o3 := s3 url net (logged "Trying Direct API..." (snd o2)) in
       let o4 := s4 url net (logged "Trying Scrape..." (snd o3)) in
       flagged (fst o1) = None -> flagged (fst o2) = None ->
       flagged (fst o3) = None -> flagged (fst o4) = None ->
       exists (m1 m2 m3 m4 : str) (w' : World),
         getTeraboxData s1 s2 s3 s4 url net w0 =
         (Ret (failure_payload
                 ["API1: " ++ m1; "API2: " ++ m2;
                  "Direct: " ++ m3; "Scrape: " ++ m4]), w')).
Proof.
  intros H.
  specialize (H (mock "one" (Ret (obj [("success", JBool false);
                                       ("error", JStr "quota exceeded")])))
                (mock "two" (Throw "down")) (mock "three" (Throw "down"))
                (mock "four" (Throw "down"))
                "https://terabox.com/s/1abc" (fun _ _ _ => NetFail "offline")
                (mkWorld [] []) eq_refl eq_refl eq_refl eq_refl).
  destruct H as (m1 & m2 & m3 & m4 & w' & H).
  vm_compute in H. discriminate H.
Qed.

(** ** Facts about the vendor-direct strategy *)

Lemma prop_defined (v : JsVal) (name : str) :
  field v name <> JUndefined -> prop v name = Ret (field v name).
Proof. destruct v; cbn [field prop]; congruence. Qed.

Lemma client_get_direct (url baseUrl surl : str) (net : Net) (w : World) :
  client_get url (direct_headers baseUrl surl) net w =
  (match net (trace w) url (direct_headers baseUrl surl) with
   | NetOk data => Ret data
   | NetFail e => Throw e
   end,
   mkWorld (trace w ++ [EGet url (direct_headers baseUrl surl)]) (clock w)).
Proof.
  unfold client_get.
  change (filter _ client_defaults ++ direct_headers baseUrl surl)
    with (direct_headers baseUrl surl).
  now destruct (net _ _ _).
Qed.

(** [tryDirectApi] never returns a listing without files. *)
Lemma tryDirectApi_never_empty (url : str) (net : Net) (w w' : World)
    (r : JsVal) :
  tryDirectApi url net w = (Ret r, w') ->
  exists f fs, field (field r "data") "files" = JArr (f :: fs).
Proof.
  unfold tryDirectApi, bind, lift, guard, ret, throw. cbv zeta.
  repeat match goal with
         | |- context [match extractSurl ?x with _ => _ end] =>
             destruct (extractSurl x)
         | |- context [match ?n ?t ?x ?h with NetFail _ => _ | NetOk _ => _ end] =>
             destruct (n t x h)
         | |- context [match prop ?v ?n with _ => _ end] => destruct (prop v n)
         | |- context [if is_int 0 ?x then _ else _] => destruct (is_int 0 x)
         | |- context [match jor ?a ?b with _ => _ end] => destruct (jor a b)
         | |- context [match map_outcome ?f ?l with _ => _ end] =>
             destruct (map_outcome f l) as [[| file files] | ?]
         | |- _ => rewrite !client_get_direct
         end; cbn [Nat.eqb length negb fst snd]; intros H; try discriminate H.
  injection H as <- _. now exists file, files.
Qed.

(** With both calls reporting [errno] 0, an empty listing (an empty [list],
    or none at all) raises "No files found". *)
Lemma tryDirectApi_empty_listing (url : str) (net : Net) (w : World)
    (sv info listing : JsVal) :
  let surl := toString sv in
  let baseUrl := getBaseUrl url in
  let headers := direct_headers baseUrl surl in
  let infoUrl := shorturlinfo_url baseUrl surl in
  let listUrl := share_list_url baseUrl surl in
  let w1 := mkWorld (trace w ++ [EGet infoUrl headers]) (clock w) in
  let w2 := mkWorld (trace w1 ++ [EGet listUrl headers]) (clock w) in
  extractSurl url = Ret sv ->
  net (trace w) infoUrl headers = NetOk info ->
  is_int 0 (field info "errno") = true ->
  net (trace w1) listUrl headers = NetOk listing ->
  is_int 0 (field listing "errno") = true ->
  jor (field listing "list") (JArr []) = JArr [] ->
  tryDirectApi url net w = (Throw "No files found", w2).
Proof.
  intros surl baseUrl headers infoUrl listUrl w1 w2 Hs Hi Hie Hl Hle Hempty.
  subst surl baseUrl headers infoUrl listUrl w1 w2. cbn [trace clock] in *.
  assert (Pi : prop info "errno" = Ret (field info "errno")).
  { apply prop_defined. intros E. rewrite E in Hie. discriminate Hie. }
  assert (Pl : prop listing "errno" = Ret (field listing "errno")).
  { apply prop_defined. intros E. rewrite E in Hle. discriminate Hle. }
  unfold tryDirectApi, bind, lift, guard, ret, throw. cbv zeta.
  rewrite Hs. cbv beta iota. rewrite client_get_direct.
  rewrite Hi, Pi, Hie. cbv beta iota.
  rewrite client_get_direct. cbn [trace clock].
  rewrite Hl, Pl, Hle, Hempty. reflexivity.
Qed.

(** ** Claims about the HTTP facade *)

(** C7.  A [GET /api/get] whose query string has no [url] parameter (or an
    empty one) is answered with [{success: false, error: "URL parameter
    required"}]; whatever the orchestrator is, it is not run: the world is
    left as it was, with no console line and no outbound request.  The
    handlers of the two variants of the program both do so. *)
Theorem api_get_requires_url (orchestrator : str -> M JsVal) (req : Req)
    (net : Net) (w : World) :
  (query_param "url" (query req) = JUndefined ->
   GET_api_get orchestrator req net w =
   (Ret (mkRes 200 (headers (cors fresh_res)) (Some url_required)), w)) /\
  (query_param "url" (query req) = JStr "" ->
   GET_api_get orchestrator req net w =
   (Ret (mkRes 200 (headers (cors fresh_res)) (Some url_required)), w)) /\
  (query_param "url" (query req) = JUndefined ->
   V1.GET_api_get orchestrator req net w =
   (Ret (mkRes 200 (headers (cors fresh_res)) (Some url_required)), w)) /\
  (query_param "url" (query req) = JStr "" ->
   V1.GET_api_get orchestrator req net w =
   (Ret (mkRes 200 (headers (cors fresh_res)) (Some url_required)), w)).
Proof.
  split; [| split; [| split]]; intros H;
    unfold GET_api_get, api_get, V1.GET_api_get, V1.api_get; rewrite H;
    reflexivity.
Qed.

Lemma api_get_requires_url_witness :
  GET_api_get getTeraboxData_app (mkReq [("link" : str, JStr "x")])
    (fun _ _ _ => NetOk (obj [("file_name", JStr "a.mp4")])) (mkWorld [] [7])
  = (Ret (mkRes 200 (headers (cors fresh_res)) (Some url_required)),
     mkWorld [] [7]) /\
  GET_api_get getTeraboxData_app (mkReq [("url" : str, JStr "")])
    (fun _ _ _ => NetOk (obj [("file_name", JStr "a.mp4")])) (mkWorld [] [7])
  = (Ret (mkRes 200 (headers (cors fresh_res)) (Some url_required)),
     mkWorld [] [7]) /\
  V1.GET_api_get V1.getTeraboxData (mkReq [("link" : str, JStr "x")])
    (fun _ _ _ => NetOk (obj [("file_name", JStr "a.mp4")])) (mkWorld [] [7])
  = (Ret (mkRes 200 (headers (cors fresh_res)) (Some url_required)),
     mkWorld [] [7]) /\
  V1.GET_api_get V1.getTeraboxData (mkReq [("url" : str, JStr "")])
    (fun _ _ _ => NetOk (obj [("file_name", JStr "a.mp4")])) (mkWorld [] [7])
  = (Ret (mkRes 200 (headers (cors fresh_res)) (Some url_required)),
     mkWorld [] [7]).
Proof.
  split; [| split; [| split]].
  - apply (proj1 (api_get_requires_url getTeraboxData_app
                    (mkReq [("link" : str, JStr "x")]) _ _)).
    reflexivity.
  - apply (proj1 (proj2 (api_get_requires_url getTeraboxData_app
                           (mkReq [("url" : str, JStr "")]) _ _))).
    reflexivity.
  - apply (proj1 (proj2 (proj2 (api_get_requires_url V1.getTeraboxData
                                  (mkReq [("link" : str, JStr "x")]) _ _)))).
    reflexivity.
  - apply (proj2 (proj2 (proj2 (api_get_requires_url V1.getTeraboxData
                                  (mkReq [("url" : str, JStr "")]) _ _)))).
    reflexivity.
Defined.

(** The chain of the application always returns, and what it returns
    carries a boolean [success]. *)
Lemma getTeraboxData_app_total (url : str) (net : Net) (w : World) :
  exists r w' b,
    getTeraboxData_app url net w = (Ret r, w') /\ field r "success" = JBool b.
Proof.
  unfold getTeraboxData_app. rewrite chain_run.
  pose proof (well_tagged_flagged _ _
    (tryNepCoderApi_tagged url net (logged "Trying API 1..." w))) as T1.
  destruct (flagged (fst (tryNepCoderApi url net _))) as [r |];
    [exists r; do 2 eexists; split; [reflexivity | apply T1] |].
  match goal with |- context [tryUdayApi url net ?w1] =>
    pose proof (well_tagged_flagged _ _ (tryUdayApi_tagged url net w1)) as T2
  end.
  destruct (flagged (fst (tryUdayApi url net _))) as [r |];
    [exists r; do 2 eexists; split; [reflexivity | apply T2] |].
  match goal with |- context [tryDirectApi url net ?w1] =>
    pose proof (well_tagged_flagged _ _ (tryDirectApi_tagged url net w1)) as T3
  end.
  destruct (flagged (fst (tryDirectApi url net _))) as [r |];
    [exists r; do 2 eexists; split; [reflexivity | apply T3] |].
  match goal with |- context [tryPageScrape url net ?w1] =>
    pose proof (well_tagged_flagged _ _ (tryPageScrape_tagged url net w1)) as T4
  end.
  destruct (flagged (fst (tryPageScrape url net _))) as [r |];
    [exists r; do 2 eexists; split; [reflexivity | apply T4] |].
  do 3 eexists. split; reflexivity.
Qed.

(** The handler on a request that carries a [url]. *)
Lemma api_get_run (orchestrator : str -> M JsVal) (req : Req) (res : Res)
    (net : Net) (w : World) :
  truthy (query_param "url" (query req)) = true ->
  api_get orchestrator req res net w =
  let url := toString (query_param "url" (query req)) in
  let '(startTime, w1) := tick (logged ("📥 Processing: " ++ url) w) in
  match orchestrator url net w1 with
  | (Ret result, w2) =>
      let '(finish, w3) := tick w2 in
      (Ret (res_json res result),
       logged ("✅ Done in " ++ toString (JInt (finish - startTime)) ++ "ms") w3)
  | (Throw message, w2) =>
      (Ret (res_json res (obj [("success", JBool false);
                               ("error", JStr message)])),
       mkWorld (trace w2 ++ [EError ("❌ Error: " ++ message)]) (clock w2))
  end.
Proof.
  intros Hu. unfold api_get. rewrite Hu. cbn [negb].
  unfold bind at 1. unfold console_log, emit. fold (logged ("📥 Processing: " ++ toString (query_param "url" (query req))) w).
  unfold bind at 1. unfold Date_now. cbv zeta.
  destruct (tick _) as [t0 w1].
  unfold try_catch, bind.
  destruct (orchestrator _ net w1) as [[r | e] w2]; [| reflexivity].
  destruct (tick w2) as [t1 w3]. reflexivity.
Qed.

(** The handler of the five-strategy variant on a request that carries a
    [url]. *)
Lemma V1_api_get_run (orchestrator : str -> M JsVal) (req : Req) (res : Res)
    (net : Net) (w : World) :
  truthy (query_param "url" (query req)) = true ->
  V1.api_get orchestrator req res net w =
  let url := toString (query_param "url" (query req)) in
  match orchestrator url net (logged ("Processing: " ++ url) w) with
  | (Ret result, w2) => (Ret (res_json res result), w2)
  | (Throw message, w2) =>
      (Ret (res_json res (obj [("success", JBool false);
                               ("error", JStr message)])),
       mkWorld (trace w2 ++ [EError ("Error: " ++ message)]) (clock w2))
  end.
Proof.
  intros Hu. unfold V1.api_get. rewrite Hu. cbn [negb].
  unfold bind at 1. unfold console_log, emit.
  fold (logged ("Processing: " ++ toString (query_param "url" (query req))) w).
  unfold try_catch, bind. cbv zeta.
  now destruct (orchestrator _ net _) as [[r | e] w2].
Qed.

(** C8.  Every outcome of the [/api/get] handler is sent with status 200:
    the missing parameter, a result of the orchestrator (a strategy's
    success or the exhaustion payload), and an error escaping the
    orchestrator, which is turned into [{success: false, error}].  With the
    chain of the application the body always carries a boolean [success].
    This holds of the handler and the chain of each of the two variants of
    the program. *)
Theorem api_get_always_200 :
  (forall (orchestrator : str -> M JsVal) (req : Req) (net : Net) (w : World),
     exists res w',
       GET_api_get orchestrator req net w = (Ret res, w') /\
       statusCode res = 200 /\
       ((truthy (query_param "url" (query req)) = false /\
         sent res = Some url_required) \/
        (exists url w1 r w2,
           truthy (query_param "url" (query req)) = true /\
           orchestrator url net w1 = (Ret r, w2) /\ sent res = Some r) \/
        (exists url w1 e w2,
           truthy (query_param "url" (query req)) = true /\
           orchestrator url net w1 = (Throw e, w2) /\
           sent res = Some (obj [("success", JBool false);
                                 ("error", JStr e)])))) /\
  (forall (req : Req) (net : Net) (w : World),
     exists res w' body b,
       GET_api_get getTeraboxData_app req net w = (Ret res, w') /\
       statusCode res = 200 /\
       sent res = Some body /\ field body "success" = JBool b) /\
  (forall (orchestrator : str -> M JsVal) (req : Req) (net : Net) (w : World),
     let url := toString (query_param "url" (query req)) in
     let o := orchestrator url net (logged ("Processing: " ++ url) w) in
     exists res w',
       V1.GET_api_get orchestrator req net w = (Ret res, w') /\
       statusCode res = 200 /\
       ((truthy (query_param "url" (query req)) = false /\
         sent res = Some url_required) \/
        (exists r,
           truthy (query_param "url" (query req)) = true /\
           fst o = Ret r /\ sent res = Some r) \/
        (exists e,
           truthy (query_param "url" (query req)) = true /\
           fst o = Throw e /\
           sent res = Some (obj [("success", JBool false);
                                 ("error", JStr e)])))) /\
  (forall (req : Req) (net : Net) (w : World),
     exists res w' body b,
       V1.GET_api_get V1.getTeraboxData req net w = (Ret res, w') /\
       statusCode res = 200 /\
       sent res = Some body /\ field body "success" = JBool b).
Proof.
  split; [| split; [| split]].
  - intros orchestrator req net w. unfold GET_api_get.
    destruct (truthy (query_param "url" (query req))) eqn:Hu.
    + rewrite api_get_run by exact Hu. cbv zeta.
      destruct (tick _) as [t0 w1].
      destruct (orchestrator _ net w1) as [[r | e] w2] eqn:Ho.
      * destruct (tick w2) as [t1 w3].
        do 2 eexists. split; [reflexivity |]. split; [reflexivity |].
        right; left. do 4 eexists.
        split; [reflexivity | split; [exact Ho | reflexivity]].
      * do 2 eexists. split; [reflexivity |]. split; [reflexivity |].
        right; right. do 4 eexists.
        split; [reflexivity | split; [exact Ho | reflexivity]].
    + unfold api_get. rewrite Hu. cbn [negb].
      do 2 eexists. split; [reflexivity |]. split; [reflexivity |].
      left. split; reflexivity.
  - intros req net w. unfold GET_api_get.
    destruct (truthy (query_param "url" (query req))) eqn:Hu.
    + rewrite api_get_run by exact Hu. cbv zeta.
      destruct (tick _) as [t0 w1].
      match goal with
      | |- context [getTeraboxData_app ?u net w1] =>
          destruct (getTeraboxData_app_total u net w1) as (r & w2 & b & Hr & Hb);
          rewrite Hr
      end.
      destruct (tick w2) as [t1 w3].
      do 4 eexists. split; [reflexivity |]. repeat split. exact Hb.
    + unfold api_get. rewrite Hu. cbn [negb].
      do 4 eexists. split; [reflexivity |]. repeat split.
  - intros orchestrator req net w url o. unfold V1.GET_api_get.
    destruct (truthy (query_param "url" (query req))) eqn:Hu.
    + rewrite V1_api_get_run by exact Hu. cbv zeta. fold url. fold o.
      destruct o as [[r | e] w2].
      * do 2 eexists. split; [reflexivity |]. split; [reflexivity |].
        right; left. exists r. repeat split.
      * do 2 eexists. split; [reflexivity |]. split; [reflexivity |].
        right; right. exists e. repeat split.
    + unfold V1.api_get. rewrite Hu. cbn [negb].
      do 2 eexists. split; [reflexivity |]. split; [reflexivity |].
      left. split; reflexivity.
  - intros req net w. unfold V1.GET_api_get.
    destruct (truthy (query_param "url" (query req))) eqn:Hu.
    + rewrite V1_api_get_run by exact Hu. cbv zeta.
      match goal with
      | |- context [V1.getTeraboxData ?u net ?w1] =>
          destruct (V1_getTeraboxData_total u net w1) as (r & w2 & b & Hr & Hb);
          rewrite Hr
      end.
      do 4 eexists. split; [reflexivity |]. repeat split. exact Hb.
    + unfold V1.api_get. rewrite Hu. cbn [negb].
      do 4 eexists. split; [reflexivity |]. repeat split.
Qed.

(** ** Claims about the page scrape *)

Lemma strip_backslashes_clean (s : str) : ~ In "\"%char (strip_backslashes s).
Proof.
  unfold strip_backslashes. intros H. apply filter_In in H as [_ H].
  discriminate H.
Qed.

(** C3, as the code has it.  Once the page holds neither verification
    marker: when the list pattern does not match, or its capture parses to
    an empty list, the strategy goes on to the single-file extraction; when
    the capture fails to parse, or mapping its entries throws, it raises
    "Parse error" instead, and the single-file extraction is not tried.  The single-file extraction
    succeeds exactly when the filename and the numeric id patterns both
    match; its one file has size 0 and formatted size "Unknown" when the
    size pattern does not match, and the backslashes are stripped from the
    filename and from the download link. *)
Theorem scrape_fall_through (html : str) :
  includes html "verify" = false ->
  includes html "验证" = false ->
  (forall url net w,
     net (trace w) url scrape_headers = NetOk (JStr html) ->
     fst (tryPageScrape url net w) = scrape_html html) /\
  (search re_list html = None -> scrape_html html = scrape_single html) /\
  (forall cap,
     search re_list html = Some cap ->
     JSON_parse (toString (group1 cap)) = Some (JArr []) ->
     scrape_html html = scrape_single html) /\
  (forall cap,
     search re_list html = Some cap ->
     JSON_parse (toString (group1 cap)) = None ->
     scrape_html html = Throw "Parse error") /\
  (forall cap items e,
     search re_list html = Some cap ->
     JSON_parse (toString (group1 cap)) = Some (JArr items) ->
     map_outcome scrape_entry items = Throw e ->
     scrape_html html = Throw "Parse error") /\
  (forall fn fs,
     search re_filename html = Some fn ->
     search re_fs_id html = Some fs ->
     exists file,
       scrape_single html =
       Ret (obj [("success", JBool true);
                 ("data", obj [("files", JArr [file])]);
                 ("source", JStr "scrape")]) /\
       field file "fs_id" = group1 fs /\
       field file "filename" = JStr (strip_backslashes (toString (group1 fn))) /\
       (search re_size html = None ->
        field file "size" = JInt 0 /\
        field file "sizeFormatted" = JStr "Unknown") /\
       (forall sz, search re_size html = Some sz ->
        field file "size" = parseInt_val (toString (group1 sz)) /\
        field file "sizeFormatted" =
          JStr (formatSize (parseInt_val (toString (group1 sz))))) /\
       (search re_dlink html = None -> field file "dlink" = JNull) /\
       (forall dl, search re_dlink html = Some dl ->
        field file "dlink" = JStr (strip_backslashes (toString (group1 dl))))) /\
  (search re_filename html = None \/ search re_fs_id html = None ->
   scrape_single html = Throw "Could not extract data from page") /\
  (forall s, ~ In "\"%char (strip_backslashes s)).
Proof.
  intros Hv1 Hv2.
  assert (Hhead : scrape_html html =
            match search re_list html with
            | Some capture =>
                match scrape_list (group1 capture) with
                | Ret (Some result) => Ret result
                | Ret None => scrape_single html
                | Throw _ => Throw "Parse error"
                end
            | None => scrape_single html
            end).
  { unfold scrape_html. rewrite Hv1, Hv2. cbn [orb].
    destruct (search re_list html) as [cap |]; [| reflexivity].
    now destruct (scrape_list (group1 cap)) as [[r |] | e]. }
  split; [| split; [| split; [| split; [| split; [| split; [| split]]]]]].
  - intros url net w Hnet. unfold tryPageScrape, bind, client_get.
    change (filter _ client_defaults ++ _) with scrape_headers.
    rewrite Hnet. reflexivity.
  - intros Hl. now rewrite Hhead, Hl.
  - intros cap Hl Hp. rewrite Hhead, Hl. unfold scrape_list. now rewrite Hp.
  - intros cap Hl Hp. rewrite Hhead, Hl. unfold scrape_list. now rewrite Hp.
  - intros cap items e Hl Hp Hm. rewrite Hhead, Hl. unfold scrape_list.
    now rewrite Hp, Hm.
  - intros fn fs Hfn Hfs. unfold scrape_single. rewrite Hfn, Hfs.
    eexists. split; [reflexivity |].
    split; [reflexivity |]. split; [reflexivity |].
    split; [intros Hs; rewrite Hs; split; reflexivity |].
    split; [intros sz Hs; rewrite Hs; split; reflexivity |].
    split; [intros Hd; rewrite Hd; reflexivity |].
    intros dl Hd; rewrite Hd; reflexivity.
  - intros [H | H]; unfold scrape_single; rewrite H;
      [reflexivity | now destruct (search re_filename html)].
  - exact strip_backslashes_clean.
Qed.

Lemma scrape_fall_through_witness :
  scrape_html page_single = scrape_single page_single /\
  scrape_html page_broken_list = Throw "Parse error" /\
  exists file,
    scrape_single page_single =
    Ret (obj [("success", JBool true);
              ("data", obj [("files", JArr [file])]);
              ("source", JStr "scrape")]) /\
    field file "fs_id" = JStr "9041" /\
    field file "filename" = JStr "holiday/clip.mp4" /\
    field file "size" = JInt 0 /\
    field file "sizeFormatted" = JStr "Unknown" /\
    field file "dlink" = JNull.
Proof.
  pose proof (scrape_fall_through page_single eq_refl eq_refl)
    as (_ & _ & Hempty & _ & _ & Hsingle & _).
  pose proof (scrape_fall_through page_broken_list eq_refl eq_refl)
    as (_ & _ & _ & Hbroken & _).
  split; [apply (Hempty (Some (lit "[]"))); reflexivity |].
  split; [apply (Hbroken (Some (lit "[x]"))); reflexivity |].
  destruct (Hsingle (Some (lit "holiday\/clip.mp4")) (Some (lit "9041"))
              eq_refl eq_refl)
    as (file & Hrun & Hid & Hname & Hsize & _ & Hlink & _).
  exists file.
  split; [exact Hrun |]. split; [exact Hid |]. split; [exact Hname |].
  split; [exact (proj1 (Hsize eq_refl)) |].
  split; [exact (proj2 (Hsize eq_refl)) | exact (Hlink eq_refl)].
Defined.

(** C3 as stated fails: when the captured list does not parse, the strategy
    does not go on to the single-file extraction, although that extraction
    would succeed on the page. *)
Lemma scrape_parse_failure_raises :
  ~ (forall html cap,
       includes html "verify" = false ->
       includes html "验证" = false ->
       search re_list html = Some cap ->
       JSON_parse (toString (group1 cap)) = None ->
       scrape_html html = scrape_single html).
Proof.
  intros H.
  specialize (H page_broken_list (Some (lit "[x]"))
                eq_refl eq_refl eq_refl eq_refl).
  vm_compute in H. discriminate H.
Qed.

(** ** [JSON_parse] is never short of fuel *)

Lemma skip_ws_length (s : str) : (length (skip_ws s) <= length s)%nat.
Proof.
  induction s as [| c s IH]; cbn [skip_ws]; [lia |].
  destruct (is_json_ws c); cbn [length]; lia.
Qed.

Lemma skip_ws_cons (s : str) (c : ascii) (rest : str) :
  skip_ws s = c :: rest -> (length rest < length s)%nat.
Proof.
  intros H. pose proof (skip_ws_length s) as L. rewrite H in L.
  cbn [length] in L. lia.
Qed.

Lemma parse_string_body_length (n : nat) :
  forall s body after, (length s <= n)%nat ->
    parse_string_body s = Some (body, after) ->
    (length after < length s)%nat.
Proof.
  induction n as [| n IH]; intros s body after Hn H.
  - destruct s; [discriminate H | cbn [length] in Hn; lia].
  - destruct s as [| c rest]; [discriminate H |].
    cbn [parse_string_body] in H. cbn [length] in *.
    destruct (chr_eqb c dq); [injection H as _ <-; lia |].
    destruct (chr_eqb c "\").
    + destruct rest as [| e rest1]; [discriminate H |].
      destruct (chr_eqb e "u").
      * destruct rest1 as [| h1 [| h2 [| h3 [| h4 rest2]]]]; try discriminate H.
        destruct (hex4 h1 h2 h3 h4); [| discriminate H].
        destruct (parse_string_body rest2) as [[bd af] |] eqn:E; [| discriminate H].
        injection H as _ <-. apply IH in E; cbn [length] in *; lia.
      * destruct (simple_escape e); [| discriminate H].
        destruct (parse_string_body rest1) as [[bd af] |] eqn:E; [| discriminate H].
        injection H as _ <-. apply IH in E; cbn [length] in *; lia.
    + destruct (code c <? 32); [discriminate H |].
      destruct (parse_string_body rest) as [[bd af] |] eqn:E; [| discriminate H].
      injection H as _ <-. apply IH in E; lia.
Qed.

Lemma span_digits_length (s : str) :
  (length (snd (span_digits s)) <= length s)%nat.
Proof.
  induction s as [| c s IH]; cbn [span_digits]; [cbn; lia |].
  destruct (is_digit c); [| cbn; lia].
  destruct (span_digits s) as [ds after]. cbn [snd length] in *. lia.
Qed.

Lemma parse_number_length (s : str) (v : JsVal) (after : str) :
  parse_number s = Some (v, after) -> (length after <= length s)%nat.
Proof.
  unfold parse_number.
  set (signed := match s with
                 | [] => (1, s)
                 | c :: rest => if chr_eqb c "-" then (-1, rest) else (1, s)
                 end).
  assert (Hs : (length (snd signed) <= length s)%nat).
  { unfold signed. destruct s as [| c rest]; [cbn; lia |].
    destruct (chr_eqb c "-"); cbn; lia. }
  destruct signed as [sign s1]. cbn [snd] in Hs.
  pose proof (span_digits_length s1) as H1.
  destruct (span_digits s1) as [ip s2]. cbn [snd] in H1.
  match goal with |- context [if negb ?b then _ else _] => destruct b end;
    cbn [negb]; [| discriminate].
  assert (Hfrac : forall fp s3,
            match s2 with
            | [] => Some ([], s2)
            | c :: rest =>
                if chr_eqb c "."
                then match span_digits rest with
                     | ([], _) => None
                     | (fp0, after0) => Some (fp0, after0)
                     end
                else Some ([], s2)
            end = Some (fp, s3) -> (length s3 <= length s2)%nat).
  { intros fp s3 E. destruct s2 as [| c rest]; [injection E as _ <-; lia |].
    destruct (chr_eqb c "."); [| injection E as _ <-; lia].
    pose proof (span_digits_length rest) as L.
    destruct (span_digits rest) as [[| d ds] a]; [discriminate E |].
    injection E as _ <-. cbn [snd length] in *. lia. }
  destruct (match s2 with [] => _ | _ :: _ => _ end) as [[fp s3] |];
    [| discriminate].
  specialize (Hfrac fp s3 eq_refl).
  destruct s3 as [| c rest]; [intros E; injection E as _ <-; lia |].
  destruct (chr_eqb c "e" || chr_eqb c "E");
    [| intros E; injection E as _ <-; lia].
  set (esigned := match rest with
                  | [] => (1, rest)
                  | x :: rest' =>
                      if chr_eqb x "-" then (-1, rest')
                      else if chr_eqb x "+" then (1, rest') else (1, rest)
                  end).
  assert (He : (length (snd esigned) <= length rest)%nat).
  { unfold esigned. destruct rest as [| x rest']; [cbn; lia |].
    destruct (chr_eqb x "-"); [cbn; lia |].
    destruct (chr_eqb x "+"); cbn; lia. }
  destruct esigned as [esign rest1]. cbn [snd] in He.
  pose proof (span_digits_length rest1) as L.
  destruct (span_digits rest1) as [[| d ds] a]; [discriminate |].
  intros E. injection E as _ <-. cbn [snd length] in *. lia.
Qed.

Lemma expect_length (word : str) (v v' : JsVal) (s after : str) :
  expect word v s = Done v' after -> (length after <= length s)%nat.
Proof.
  unfold expect. destruct (starts_with word s); [| discriminate].
  intros E. injection E as _ <-. rewrite length_skipn. lia.
Qed.

Lemma expect_fed (word : str) (v : JsVal) (s : str) : expect word v s <> Starved.
Proof. unfold expect. destruct (starts_with word s); discriminate. Qed.

Lemma parse_value_S (fuel : nat) (s : str) :
  parse_value (S fuel) s =
  match skip_ws s with
  | [] => Bad
  | c :: rest =>
      if chr_eqb c "n" then expect "ull" JNull rest
      else if chr_eqb c "t" then expect "rue" (JBool true) rest
      else if chr_eqb c "f" then expect "alse" (JBool false) rest
      else if chr_eqb c dq then
        match parse_string_body rest with
        | Some (body, after) => Done (JStr body) after
        | None => Bad
        end
      else if chr_eqb c "[" then
        match skip_ws rest with
        | c' :: after =>
            if chr_eqb c' "]" then Done (JArr []) after
            else
              match parse_elements fuel rest with
              | Done items after' => Done (JArr items) after'
              | Bad => Bad
              | Starved => Starved
              end
        | [] => Bad
        end
      else if chr_eqb c "{" then
        match skip_ws rest with
        | c' :: after =>
            if chr_eqb c' "}" then Done (JObj []) after
            else
              match parse_members fuel rest with
              | Done members after' =>
                  Done (JObj (fold_left
                                (fun acc kv => set_field (fst kv) (snd kv) acc)
                                members [])) after'
              | Bad => Bad
              | Starved => Starved
              end
        | [] => Bad
        end
      else
        match parse_number (c :: rest) with
        | Some (v, after) => Done v after
        | None => Bad
        end
  end.
Proof. reflexivity. Qed.

Lemma parse_elements_S (fuel : nat) (s : str) :
  parse_elements (S fuel) s =
  match parse_value fuel s with
  | Done v after =>
      match skip_ws after with
      | c :: after' =>
          if chr_eqb c "]" then Done [v] after'
          else if chr_eqb c "," then
            match parse_elements fuel after' with
            | Done vs after'' => Done (v :: vs) after''
            | Bad => Bad
            | Starved => Starved
            end
          else Bad
      | [] => Bad
      end
  | Bad => Bad
  | Starved => Starved
  end.
Proof. reflexivity. Qed.

Lemma parse_members_S (fuel : nat) (s : str) :
  parse_members (S fuel) s =
  match skip_ws s with
  | q :: rest =>
      if chr_eqb q dq then
        match parse_string_body rest with
        | Some (key, after) =>
            match skip_ws after with
            | c :: after1 =>
                if chr_eqb c ":" then
                  match parse_value fuel after1 with
                  | Done v after2 =>
                      match skip_ws after2 with
                      | c' :: after3 =>
                          if chr_eqb c' "}" then Done [(key, v)] after3
                          else if chr_eqb c' "," then
                            match parse_members fuel after3 with
                            | Done ms after4 => Done ((key, v) :: ms) after4
                            | Bad => Bad
                            | Starved => Starved
                            end
                          else Bad
                      | [] => Bad
                      end
                  | Bad => Bad
                  | Starved => Starved
                  end
                else Bad
            | [] => Bad
            end
        | None => Bad
        end
      else Bad
  | [] => Bad
  end.
Proof. reflexivity. Qed.

(** No parser returns more input than it was given. *)
Lemma parse_length (fuel : nat) :
  (forall s v r, parse_value fuel s = Done v r -> (length r <= length s)%nat) /\
  (forall s vs r, parse_elements fuel s = Done vs r ->
                  (length r <= length s)%nat) /\
  (forall s ms r, parse_members fuel s = Done ms r ->
                  (length r <= length s)%nat).
Proof.
  induction fuel as [| fuel (IHv & IHe & IHm)];
    [repeat split; intros; discriminate |].
  split; [| split].
  - intros s v r. rewrite parse_value_S.
    destruct (skip_ws s) as [| c rest] eqn:Ews; [discriminate |].
    apply skip_ws_cons in Ews.
    destruct (chr_eqb c "n"); [intros E; apply expect_length in E; lia |].
    destruct (chr_eqb c "t"); [intros E; apply expect_length in E; lia |].
    destruct (chr_eqb c "f"); [intros E; apply expect_length in E; lia |].
    destruct (chr_eqb c dq).
    { destruct (parse_string_body rest) as [[body after] |] eqn:E;
        [| discriminate].
      apply (parse_string_body_length _ _ _ _ (le_n _)) in E.
      intros D. injection D as _ <-. lia. }
    destruct (chr_eqb c "[").
    { destruct (skip_ws rest) as [| c' after] eqn:Ews'; [discriminate |].
      apply skip_ws_cons in Ews'.
      destruct (chr_eqb c' "]"); [intros D; injection D as _ <-; lia |].
      destruct (parse_elements fuel rest) as [items after' | |] eqn:E;
        try discriminate.
      apply IHe in E. intros D. injection D as _ <-. lia. }
    destruct (chr_eqb c "{").
    { destruct (skip_ws rest) as [| c' after] eqn:Ews'; [discriminate |].
      apply skip_ws_cons in Ews'.
      destruct (chr_eqb c' "}"); [intros D; injection D as _ <-; lia |].
      destruct (parse_members fuel rest) as [members after' | |] eqn:E;
        try discriminate.
      apply IHm in E. intros D. injection D as _ <-. lia. }
    destruct (parse_number (c :: rest)) as [[n after] |] eqn:E; [| discriminate].
    apply parse_number_length in E. cbn [length] in E.
    intros D. injection D as _ <-. lia.
  - intros s vs r. rewrite parse_elements_S.
    destruct (parse_value fuel s) as [v after | |] eqn:E; try discriminate.
    apply IHv in E.
    destruct (skip_ws after) as [| c after'] eqn:Ews; [discriminate |].
    apply skip_ws_cons in Ews.
    destruct (chr_eqb c "]"); [intros D; injection D as _ <-; lia |].
    destruct (chr_eqb c ","); [| discriminate].
    destruct (parse_elements fuel after') as [vs' after'' | |] eqn:E';
      try discriminate.
    apply IHe in E'. intros D. injection D as _ <-. lia.
  - intros s ms r. rewrite parse_members_S.
    destruct (skip_ws s) as [| q rest] eqn:Ews; [discriminate |].
    apply skip_ws_cons in Ews.
    destruct (chr_eqb q dq); [| discriminate].
    destruct (parse_string_body rest) as [[key after] |] eqn:Ek;
      [| discriminate].
    apply (parse_string_body_length _ _ _ _ (le_n _)) in Ek.
    destruct (skip_ws after) as [| c after1] eqn:Ews1; [discriminate |].
    apply skip_ws_cons in Ews1.
    destruct (chr_eqb c ":"); [| discriminate].
    destruct (parse_value fuel after1) as [v after2 | |] eqn:Ev;
      try discriminate.
    apply IHv in Ev.
    destruct (skip_ws after2) as [| c' after3] eqn:Ews2; [discriminate |].
    apply skip_ws_cons in Ews2.
    destruct (chr_eqb c' "}"); [intros D; injection D as _ <-; lia |].
    destruct (chr_eqb c' ","); [| discriminate].
    destruct (parse_members fuel after3) as [ms' after4 | |] eqn:Em;
      try discriminate.
    apply IHm in Em. intros D. injection D as _ <-. lia.
Qed.

(** Two units of fuel for every character and two to spare are enough. *)
Lemma parse_fed (fuel : nat) :
  (forall s, (2 * length s + 2 <= fuel)%nat -> parse_value fuel s <> Starved) /\
  (forall s, (2 * length s + 3 <= fuel)%nat ->
             parse_elements fuel s <> Starved) /\
  (forall s, (2 * length s + 3 <= fuel)%nat ->
             parse_members fuel s <> Starved).
Proof.
  induction fuel as [| fuel (IHv & IHe & IHm)];
    [repeat split; intros; lia |].
  pose proof (parse_length fuel) as (Lv & Le & Lm).
  split; [| split].
  - intros s Hf. rewrite parse_value_S.
    destruct (skip_ws s) as [| c rest] eqn:Ews; [discriminate |].
    apply skip_ws_cons in Ews.
    destruct (chr_eqb c "n"); [apply expect_fed |].
    destruct (chr_eqb c "t"); [apply expect_fed |].
    destruct (chr_eqb c "f"); [apply expect_fed |].
    destruct (chr_eqb c dq);
      [destruct (parse_string_body rest) as [[? ?] |]; discriminate |].
    destruct (chr_eqb c "[").
    { destruct (skip_ws rest) as [| c' after]; [discriminate |].
      destruct (chr_eqb c' "]"); [discriminate |].
      pose proof (IHe rest ltac:(lia)) as F.
      destruct (parse_elements fuel rest); congruence. }
    destruct (chr_eqb c "{").
    { destruct (skip_ws rest) as [| c' after]; [discriminate |].
      destruct (chr_eqb c' "}"); [discriminate |].
      pose proof (IHm rest ltac:(lia)) as F.
      destruct (parse_members fuel rest); congruence. }
    destruct (parse_number (c :: rest)) as [[? ?] |]; discriminate.
  - intros s Hf. rewrite parse_elements_S.
    pose proof (IHv s ltac:(lia)) as F.
    destruct (parse_value fuel s) as [v after | |] eqn:E;
      [| discriminate | congruence].
    apply Lv in E.
    destruct (skip_ws after) as [| c after'] eqn:Ews; [discriminate |].
    apply skip_ws_cons in Ews.
    destruct (chr_eqb c "]"); [discriminate |].
    destruct (chr_eqb c ","); [| discriminate].
    pose proof (IHe after' ltac:(lia)) as F'.
    destruct (parse_elements fuel after'); congruence.
  - intros s Hf. rewrite parse_members_S.
    destruct (skip_ws s) as [| q rest] eqn:Ews; [discriminate |].
    apply skip_ws_cons in Ews.
    destruct (chr_eqb q dq); [| discriminate].
    destruct (parse_string_body rest) as [[key after] |] eqn:Ek;
      [| discriminate].
    apply (parse_string_body_length _ _ _ _ (le_n _)) in Ek.
    destruct (skip_ws after) as [| c after1] eqn:Ews1; [discriminate |].
    apply skip_ws_cons in Ews1.
    destruct (chr_eqb c ":"); [| discriminate].
    pose proof (IHv after1 ltac:(lia)) as F.
    destruct (parse_value fuel after1) as [v after2 | |] eqn:Ev;
      [| discriminate | congruence].
    apply Lv in Ev.
    destruct (skip_ws after2) as [| c' after3] eqn:Ews2; [discriminate |].
    apply skip_ws_cons in Ews2.
    destruct (chr_eqb c' "}"); [discriminate |].
    destruct (chr_eqb c' ","); [| discriminate].
    pose proof (IHm after3 ltac:(lia)) as F'.
    destruct (parse_members fuel after3); congruence.
Qed.

(** [JSON_parse] answers [None] only for text that is not JSON. *)
Lemma parse_value_fed (text : str) :
  parse_value (2 * length text + 2) text <> Starved.
Proof. apply parse_fed. lia. Qed.

(** ** The five-strategy variant against the claims *)

(** X22.  The loop of the five-strategy variant, for a list of strategies
    of any length: when the strategies before [api] all fail, run one after
    the other, and [api] returns a flagged result in the world they leave,
    the loop returns that result and the world [api] left, so no strategy
    after it runs. *)
Lemma V1_try_each_first_success (before : list (str -> M JsVal)) :
  forall (api : str -> M JsVal) (after : list (str -> M JsVal))
         (shareUrl lastError lastError' : str) (net : Net) (w w' : World)
         (r : JsVal),
    V1_all_fail before shareUrl lastError net w = Some (lastError', w') ->
    V1_flagged (fst (api shareUrl net w')) = Some r ->
    V1.try_each (before ++ api :: after) shareUrl lastError net w =
    (Ret r, snd (api shareUrl net w')).
Proof.
  induction before as [| b before IH];
    intros api after shareUrl lastError lastError' net w w' r Hfail Hflag.
  - cbn [V1_all_fail] in Hfail. injection Hfail as _ <-.
    cbn [app]. rewrite V1_try_each_step_flagged. cbv zeta. now rewrite Hflag.
  - cbn [V1_all_fail] in Hfail. cbv zeta in Hfail.
    change ((b :: before) ++ api :: after) with (b :: before ++ api :: after).
    rewrite V1_try_each_step_flagged. cbv zeta.
    destruct (V1_flagged (fst (b shareUrl net w))); [discriminate Hfail |].
    now apply (IH _ _ _ _ lastError').
Qed.

(** When every strategy fails the loop reports the last message raised. *)
Lemma V1_try_each_exhausted (apis : list (str -> M JsVal)) :
  forall (shareUrl lastError lastError' : str) (net : Net) (w w' : World),
    V1_all_fail apis shareUrl lastError net w = Some (lastError', w') ->
    V1.try_each apis shareUrl lastError net w =
    (Ret (obj [("success", JBool false); ("error", JStr lastError')]), w').
Proof.
  induction apis as [| api apis IH];
    intros shareUrl lastError lastError' net w w' Hfail.
  - cbn [V1_all_fail] in Hfail. injection Hfail as <- <-. reflexivity.
  - cbn [V1_all_fail] in Hfail. cbv zeta in Hfail.
    rewrite V1_try_each_step_flagged. cbv zeta.
    destruct (V1_flagged (fst (api shareUrl net w))); [discriminate Hfail |].
    now apply IH.
Qed.

Lemma V1_getBaseUrl_known (url : str) :
  In (V1.getBaseUrl url) known_bases.
Proof.
  unfold V1.getBaseUrl, known_bases.
  destruct (includes url "1024tera.com"); [cbn; auto |].
  destruct (includes url "1024terabox.com"); cbn; auto 6.
Qed.

(** Only the path form is known to this variant. *)
Lemma V1_extractSurl_no_query_form :
  V1.extractSurl "https://www.terabox.com/sharing/link?surl=xyz"
  = Throw "Invalid URL".
Proof. reflexivity. Qed.

Lemma V1_missing_url (orchestrator : str -> M JsVal) (req : Req)
    (net : Net) (w : World) :
  truthy (query_param "url" (query req)) = false ->
  V1.GET_api_get orchestrator req net w =
  (Ret (mkRes 200 (headers (cors fresh_res)) (Some url_required)), w).
Proof.
  intros H. unfold V1.GET_api_get, V1.api_get. now rewrite H.
Qed.

Lemma V1_status_200 (orchestrator : str -> M JsVal) (req : Req)
    (net : Net) (w : World) :
  exists res w',
    V1.GET_api_get orchestrator req net w = (Ret res, w') /\
    statusCode res = 200 /\ sent res <> None.
Proof.
  unfold V1.GET_api_get, V1.api_get.
  destruct (truthy (query_param "url" (query req))); cbn [negb].
  - unfold bind at 1. unfold console_log, emit, try_catch, bind.
    destruct (orchestrator _ net _) as [[r | e] w2];
      do 2 eexists; (split; [reflexivity |]); split;
      (reflexivity || discriminate).
  - do 2 eexists. split; [reflexivity |]. split; [reflexivity | discriminate].
Qed.

(** With both calls reporting [errno] 0, [tryApi4] turns an empty listing
    into a success that carries no file. *)
Lemma V1_tryApi4_empty_listing (url : str) (net : Net) (w : World)
    (sv info listing : JsVal) :
  let surl := toString sv in
  let baseUrl := V1.getBaseUrl url in
  let headers := V1.api4_headers baseUrl in
  let infoUrl := shorturlinfo_url baseUrl surl in
  let listUrl := share_list_url baseUrl surl in
  let w1 := mkWorld (trace w ++ [EGet infoUrl headers]) (clock w) in
  let w2 := mkWorld (trace w1 ++ [EGet listUrl headers]) (clock w) in
  V1.extractSurl url = Ret sv ->
  net (trace w) infoUrl headers = NetOk info ->
  is_int 0 (field info "errno") = true ->
  net (trace w1) listUrl headers = NetOk listing ->
  is_int 0 (field listing "errno") = true ->
  jor (field listing "list") (JArr []) = JArr [] ->
  V1.tryApi4 url net w =
  (Ret (obj
     [("success", JBool true);
      ("data", obj
         [("files", JArr []);
          ("shareInfo", obj
             [("shareid", field info "shareid");
              ("uk", field info "uk");
              ("sign", field info "sign");
              ("timestamp", field info "timestamp")])]);
      ("source", JStr "direct")]), w2).
Proof.
  intros surl baseUrl headers infoUrl listUrl w1 w2 Hs Hi Hie Hl Hle Hempty.
  subst surl baseUrl headers infoUrl listUrl w1 w2. cbn [trace clock] in *.
  assert (Pi : prop info "errno" = Ret (field info "errno")).
  { apply prop_defined. intros E. rewrite E in Hie. discriminate Hie. }
  assert (Pl : prop listing "errno" = Ret (field listing "errno")).
  { apply prop_defined. intros E. rewrite E in Hle. discriminate Hle. }
  unfold V1.tryApi4, bind, lift, guard, ret, throw, V1.axios_get. cbv zeta.
  rewrite Hs. cbv beta iota. rewrite Hi, Pi, Hie. cbv beta iota.
  cbn [trace clock]. rewrite Hl, Pl, Hle, Hempty. reflexivity.
Qed.

(** C6.  On a share whose listing is empty, with both upstream calls
    reporting a zero status, [tryDirectApi] raises "No files found", as the
    claim says; [tryApi4], the same strategy in the five-strategy variant,
    returns a success carrying zero files. *)
Theorem vendor_direct_empty_listing :
  fst (tryDirectApi "https://www.terabox.com/s/1abc123" empty_share
         (mkWorld [] []))
  = Throw "No files found" /\
  fst (V1.tryApi4 "https://www.terabox.com/s/1abc123" empty_share
         (mkWorld [] []))
  = Ret (obj
      [("success", JBool true);
       ("data", obj
          [("files", JArr []);
           ("shareInfo", obj
              [("shareid", JInt 4021); ("uk", JInt 77);
               ("sign", JStr "a1b2"); ("timestamp", JInt 1700000000)])]);
       ("source", JStr "direct")]).
Proof. split; vm_compute; reflexivity. Qed.

(** The page scrape of this variant has no single-file extraction: an
    empty embedded list is a success without files, and a list that does
    not parse ends in "Could not parse page". *)
Lemma V1_scrape_html_examples :
  V1.scrape_html page_single =
  Ret (obj [("success", JBool true);
            ("data", obj [("files", JArr [])]);
            ("source", JStr "scrape")]) /\
  V1.scrape_html page_broken_list = Throw "Could not parse page".
Proof. split; vm_compute; reflexivity. Qed.

(** Exhaustion in this variant reports the last message only. *)
Lemma V1_getTeraboxData_exhausted :
  fst (V1.getTeraboxData "https://www.terabox.com/s/1abc123"
         (fun _ _ _ => NetFail "Network Error") (mkWorld [] []))
  = Ret (obj [("success", JBool false); ("error", JStr "Network Error")]).
Proof. vm_compute. reflexivity. Qed.

(** * Further properties of the code *)

(** ** Further properties of [formatSize] *)

Lemma digit_value_10_none (c : ascii) :
  is_digit c = false -> digit_value 10 c = None.
Proof.
  intros H. unfold digit_value. rewrite H.
  destruct (is_lower c) eqn:El.
  - unfold is_lower, in_range in El. apply andb_prop in El as [E1 _].
    apply Z.leb_le in E1. destruct (Z.ltb_spec (code c - 97 + 10) 10); [lia | reflexivity].
  - destruct (is_upper c) eqn:Eu; [| reflexivity].
    unfold is_upper, in_range in Eu. apply andb_prop in Eu as [E1 _].
    apply Z.leb_le in E1. destruct (Z.ltb_spec (code c - 65 + 10) 10); [lia | reflexivity].
Qed.

Lemma digits_prefix_tail (s tail : str) :
  forall acc, s <> [] -> forallb is_digit s = true ->
    match tail with [] => True | c :: _ => is_digit c = false end ->
    digits_prefix 10 (s ++ tail) acc =
    Some (read_digits s (match acc with Some a => a | None => 0 end)).
Proof.
  induction s as [| c s IH]; intros acc Hne Hall Ht; [congruence |].
  simpl in Hall. apply andb_prop in Hall as [Hc Hs].
  cbn [app digits_prefix]. rewrite (digit_value_10 c Hc).
  destruct s as [| c' s'].
  - cbn [app]. rewrite read_digits_cons. unfold read_digits. cbn [fold_left].
    destruct tail as [| d tail]; cbn [digits_prefix].
    + destruct acc; f_equal; lia.
    + rewrite (digit_value_10_none d Ht). destruct acc; f_equal; lia.
  - rewrite IH by (congruence || assumption).
    rewrite (read_digits_cons c). destruct acc; repeat f_equal; lia.
Qed.

Lemma decimal_small (n : Z) : 0 <= n < 10 -> decimal n = [digit_char n].
Proof.
  intros Hn. unfold decimal. cbn [digits_fuel].
  destruct (Z.ltb_spec n 10); [| lia]. now rewrite Z.mod_small by lia.
Qed.

Lemma decimal_step (n : Z) :
  10 <= n -> decimal n = decimal (n / 10) ++ [digit_char (n mod 10)].
Proof.
  intros Hn. unfold decimal at 1. cbn [digits_fuel].
  destruct (Z.ltb_spec n 10); [lia |].
  rewrite digits_fuel_acc. f_equal.
  assert (Hq : 1 <= n / 10) by (apply Z.div_le_lower_bound; lia).
  pose proof (log2_fuel n ltac:(lia)) as Hl.
  rewrite Nat2Z.inj_succ, Z.pow_succ_r in Hl by lia.
  assert (Hu : n / 10 < 2 ^ Z.of_nat (Z.to_nat (Z.log2 n)))
    by (apply Z.div_lt_upper_bound; lia).
  apply digits_fuel_enough; [| lia | lia | apply log2_fuel; lia].
  destruct (Z.to_nat (Z.log2 n)); [change (2 ^ Z.of_nat 0) with 1 in Hu |]; lia.
Qed.

(** A decimal numeral of a positive integer does not read as a
    hexadecimal prefix, whatever follows it. *)
Lemma decimal_not_hex (n : Z) (tail : str) :
  0 < n ->
  starts_with "0x" (decimal n ++ tail) || starts_with "0X" (decimal n ++ tail)
  = false.
Proof.
  intros Hn. destruct (Z.ltb_spec n 10) as [Hs | Hb].
  - rewrite decimal_small by lia.
    assert (n = 1 \/ n = 2 \/ n = 3 \/ n = 4 \/ n = 5 \/
            n = 6 \/ n = 7 \/ n = 8 \/ n = 9) as C by lia.
    repeat (destruct C as [-> | C]; [reflexivity |]). subst. reflexivity.
  - pose proof (decimal_all_digits n ltac:(lia)) as Hd.
    rewrite decimal_step in * by lia.
    pose proof (decimal_nonempty (n / 10)) as Hne.
    destruct (decimal (n / 10)) as [| c0 [| c1 q]]; [congruence | |];
      cbn [app forallb] in *;
      apply andb_prop in Hd as [_ Hd]; apply andb_prop in Hd as [H1 _];
      destruct (digit_not_special _ H1) as (_ & _ & _ & Hx1 & Hx2);
      cbn [starts_with lit list_ascii_of_string];
      rewrite Hx1, Hx2; now rewrite !andb_false_r.
Qed.

(** [toFixed(2)] of a non-negative number below [10^21]: the nearest
    hundredth, printed as its whole part, a point and two digits. *)
Lemma toFixed_2_render (m : Z) (k : nat) :
  0 <= m -> below_1e21 (m, k) ->
  let n := (2 * m * 100 + 10 ^ Z.of_nat k) / (2 * 10 ^ Z.of_nat k) in
  toFixed 2 m k =
  decimal (n / 100) ++ "." ++ [digit_char (n / 10 mod 10); digit_char (n mod 10)].
Proof.
  intros Hm Hb n. unfold below_1e21 in Hb. cbn [fst snd] in Hb.
  pose proof (pow10_pos k) as Hk.
  assert (Hn : 0 <= n) by (apply Z.div_pos; lia).
  unfold toFixed. rewrite Z.abs_eq in * by lia.
  destruct (Z.leb_spec (10 ^ 21 * 10 ^ Z.of_nat k) m); [lia |].
  destruct (Z.ltb_spec m 0); [lia |].
  change (10 ^ Z.of_nat 2) with 100. fold n.
  assert (Hds : (if n =? 0 then lit "0" else decimal n) = decimal n)
    by (destruct (Z.eqb_spec n 0) as [-> |]; reflexivity).
  rewrite Hds. cbn [app]. change (lit "" ++ ?x) with x.
  destruct (Z.ltb_spec n 10) as [H10 | H10].
  - rewrite (decimal_small n) by lia.
    replace (n / 100) with 0 by (symmetry; apply Z.div_small; lia).
    replace (n / 10) with 0 by (symmetry; apply Z.div_small; lia).
    rewrite (Z.mod_small n 10) by lia. reflexivity.
  - rewrite (decimal_step n) by lia.
    destruct (Z.ltb_spec n 100) as [H100 | H100].
    + assert (Hq : 0 <= n / 10 < 10)
        by (split; [apply Z.div_pos; lia | apply Z.div_lt_upper_bound; lia]).
      rewrite (decimal_small (n / 10)) by lia.
      replace (n / 100) with 0 by (symmetry; apply Z.div_small; lia).
      rewrite (Z.mod_small (n / 10)) by lia. reflexivity.
    + assert (Hq : 10 <= n / 10) by (apply Z.div_le_lower_bound; lia).
      rewrite (decimal_step (n / 10)) by lia.
      replace (n / 10 / 10) with (n / 100) by (rewrite Z.div_div by lia; reflexivity).
      set (q := decimal (n / 100)).
      assert (Hq0 : q <> []) by apply decimal_nonempty.
      rewrite <- app_assoc. cbn [app].
      set (d1 := digit_char ((n / 10) mod 10)). set (d2 := digit_char (n mod 10)).
      assert (Hlen : length (q ++ [d1; d2]) = (length q + 2)%nat)
        by (rewrite length_app; reflexivity).
      assert (Hpad : pad_zeros 3 (q ++ [d1; d2]) = q ++ [d1; d2]).
      { unfold pad_zeros. rewrite Hlen.
        replace (3 - (length q + 2))%nat with 0%nat
          by (destruct q; [congruence | cbn [length]; lia]).
        reflexivity. }
      rewrite Hpad, Hlen.
      replace (length q + 2 - 2)%nat with (length q + 0)%nat by lia.
      rewrite firstn_app_2, skipn_app, Nat.add_0_r, skipn_all.
      replace (length q - length q)%nat with 0%nat by lia.
      cbn [firstn skipn app]. now rewrite app_nil_r.
Qed.

Lemma div1024_closed (i : nat) :
  forall m k, div1024 i (m, k) = (m * 9765625 ^ Z.of_nat i, (k + 10 * i)%nat).
Proof.
  induction i as [| i IH]; intros m k.
  - cbn [div1024]. f_equal; [change (9765625 ^ Z.of_nat 0) with 1 |]; lia.
  - cbn [div1024]. unfold div_1024. cbn [fst snd]. rewrite IH.
    f_equal; [| lia].
    rewrite Nat2Z.inj_succ, Z.pow_succ_r by lia. lia.
Qed.

Lemma pow10_split (i : nat) :
  10 ^ Z.of_nat (10 * i) = 9765625 ^ Z.of_nat i * 1024 ^ Z.of_nat i.
Proof.
  rewrite Nat2Z.inj_mul, Z.pow_mul_r by lia.
  change (10 ^ Z.of_nat 10) with (9765625 * 1024). apply Z.pow_mul_l.
Qed.

(** X1.  For a byte count [b] with [0 < b < 2^53], [formatSize] prints the
    hundredth nearest to [b / 1024^i], the upper one of the two at a tie,
    as its whole part, a point and two digits, followed by the unit of
    index [i]: the number [n] of hundredths printed is the one integer with
    [n - 1/2 <= 100 * b / 1024^i < n + 1/2].  The unit is the one [b] falls
    in: [1024^i <= b], and [b < 1024^(i+1)] unless the unit is the last
    one, TB. *)
Theorem formatSize_precise (b : Z) :
  0 < b < 2 ^ 53 ->
  exists (i : nat) (n : Z) (unit : str),
    nth_error u i = Some unit /\
    formatSize (JInt b) =
      decimal (n / 100) ++ "." ++
      [digit_char (n / 10 mod 10); digit_char (n mod 10)] ++ " " ++ unit /\
    0 <= n /\
    - 1024 ^ Z.of_nat i <= 2 * (100 * b - n * 1024 ^ Z.of_nat i)
      < 1024 ^ Z.of_nat i /\
    1024 ^ Z.of_nat i <= b /\
    ((i < 4)%nat -> b < 1024 ^ Z.of_nat (S i)).
Proof.
  intros Hb.
  unfold formatSize.
  replace (truthy (JInt b)) with true
    by (symmetry; cbn; apply negb_true_iff, Z.eqb_neq; lia).
  cbn [negb]. rewrite parseInt_toString_int by lia.
  destruct (size_loop_4 (b, O)) as (i & Hi & Hloop & Hge & Hlt).
  rewrite Hloop.
  assert (Hge' : forall j, (j < i)%nat -> 1024 ^ Z.of_nat (S j) <= b).
  { intros j Hj. specialize (Hge j Hj). rewrite div1024_closed in Hge.
    unfold ge_1024 in Hge. cbn [fst snd Nat.add] in Hge. apply Z.leb_le in Hge.
    rewrite pow10_split in Hge. rewrite Nat2Z.inj_succ, Z.pow_succ_r by lia.
    assert (0 < 9765625 ^ Z.of_nat j) by (apply Z.pow_pos_nonneg; lia).
    nia. }
  assert (Hlt' : (i < 4)%nat -> b < 1024 ^ Z.of_nat (S i)).
  { intros Hj. specialize (Hlt Hj). rewrite div1024_closed in Hlt.
    unfold ge_1024 in Hlt. cbn [fst snd Nat.add] in Hlt. apply Z.leb_gt in Hlt.
    rewrite pow10_split in Hlt. rewrite Nat2Z.inj_succ, Z.pow_succ_r by lia.
    assert (0 < 9765625 ^ Z.of_nat i) by (apply Z.pow_pos_nonneg; lia).
    nia. }
  rewrite div1024_closed. cbn [fst snd Nat.add].
  set (m := b * 9765625 ^ Z.of_nat i).
  set (k := (10 * i)%nat).
  assert (Hpow : 10 ^ Z.of_nat k = 9765625 ^ Z.of_nat i * 1024 ^ Z.of_nat i)
    by apply pow10_split.
  assert (Hp5 : 0 < 9765625 ^ Z.of_nat i) by (apply Z.pow_pos_nonneg; lia).
  assert (Hp2 : 0 < 1024 ^ Z.of_nat i) by (apply Z.pow_pos_nonneg; lia).
  assert (Hm : 0 <= m) by (unfold m; nia).
  assert (Hbelow : below_1e21 (m, k)).
  { unfold below_1e21. cbn [fst snd]. rewrite Z.abs_eq by lia.
    rewrite Hpow. unfold m.
    assert (b < 10 ^ 21 * 1024 ^ Z.of_nat i).
    { assert (2 ^ 53 < 10 ^ 21) by (vm_compute; reflexivity). nia. }
    nia. }
  rewrite (toFixed_2_render m k Hm Hbelow). cbv zeta.
  set (n := (2 * m * 100 + 10 ^ Z.of_nat k) / (2 * 10 ^ Z.of_nat k)).
  assert (Hu : exists unit, nth_error u i = Some unit /\
                            nth i u (lit "undefined") = unit).
  { assert (i = 0 \/ i = 1 \/ i = 2 \/ i = 3 \/ i = 4)%nat
      as [-> | [-> | [-> | [-> | ->]]]] by lia;
      eexists; split; reflexivity. }
  destruct Hu as (unit & Hnth & Hunit).
  exists i, n, unit. rewrite Hunit.
  split; [exact Hnth |].
  split; [now rewrite <- !app_assoc |].
  pose proof (pow10_pos k) as Hk.
  assert (Hn : 0 <= n) by (apply Z.div_pos; lia).
  split; [exact Hn |].
  split.
  - pose proof (Z.div_mod (2 * m * 100 + 10 ^ Z.of_nat k) (2 * 10 ^ Z.of_nat k)
                  ltac:(lia)) as Hdm.
    pose proof (Z.mod_pos_bound (2 * m * 100 + 10 ^ Z.of_nat k)
                  (2 * 10 ^ Z.of_nat k) ltac:(lia)) as Hmod.
    fold n in Hdm.
    set (rm := (2 * m * 100 + 10 ^ Z.of_nat k) mod (2 * 10 ^ Z.of_nat k)) in *.
    rewrite Hpow in *. unfold m in *.
    set (P5 := 9765625 ^ Z.of_nat i) in *.
    set (P2 := 1024 ^ Z.of_nat i) in *.
    assert (H1 : P5 * (200 * b - 2 * P2 * n) < P5 * P2) by nia.
    assert (H2 : - (P5 * P2) <= P5 * (200 * b - 2 * P2 * n)) by nia.
    assert (H3 : 200 * b - 2 * P2 * n < P2) by nia.
    assert (H4 : - P2 <= 200 * b - 2 * P2 * n) by nia.
    lia.
  - split; [| exact Hlt'].
    destruct i as [| j]; [change (1024 ^ Z.of_nat 0) with 1; lia |].
    apply Hge'. lia.
Qed.

Lemma formatSize_precise_witness :
  exists (i : nat) (n : Z) (unit : str),
    nth_error u i = Some unit /\
    formatSize (JInt 1048575) =
      decimal (n / 100) ++ "." ++
      [digit_char (n / 10 mod 10); digit_char (n mod 10)] ++ " " ++ unit /\
    0 <= n /\
    - 1024 ^ Z.of_nat i <= 2 * (100 * 1048575 - n * 1024 ^ Z.of_nat i)
      < 1024 ^ Z.of_nat i /\
    1024 ^ Z.of_nat i <= 1048575 /\
    ((i < 4)%nat -> 1048575 < 1024 ^ Z.of_nat (S i)).
Proof. apply (formatSize_precise 1048575). lia. Defined.

(** X2.  A size that comes as text is formatted from its leading integer:
    the decimal numeral of [n] followed by anything that does not start
    with a digit (a fraction, a unit, nothing) gives what the number [n]
    gives. *)
Theorem formatSize_leading_integer (n : Z) (tail : str) :
  0 < n < 2 ^ 53 ->
  match tail with [] => True | c :: _ => is_digit c = false end ->
  formatSize (JStr (decimal n ++ tail)) = formatSize (JInt n).
Proof.
  intros Hn Ht.
  pose proof (decimal_nonempty n) as Hne.
  pose proof (decimal_all_digits n ltac:(lia)) as Hd.
  assert (Hp : parseInt (decimal n ++ tail) = Some n).
  { unfold parseInt.
    destruct (decimal n) as [| c ds] eqn:Ed; [congruence |].
    pose proof Hd as Hc. cbn [forallb] in Hc. apply andb_prop in Hc as [Hc _].
    destruct (digit_not_special c Hc) as (Hsp & Hm & Hpl & _ & _).
    cbn [app trim_start]. rewrite Hsp, Hm, Hpl. cbv beta iota zeta.
    change (c :: ds ++ tail) with ((c :: ds) ++ tail). rewrite <- Ed.
    rewrite decimal_not_hex by lia.
    rewrite digits_prefix_tail by (congruence || assumption).
    rewrite read_digits_decimal by lia. f_equal. lia. }
  unfold formatSize at 1. cbn [toString].
  replace (truthy (JStr (decimal n ++ tail))) with true
    by (cbn [truthy]; destruct (decimal n); [congruence | reflexivity]).
  cbn [negb]. rewrite Hp.
  unfold formatSize.
  replace (truthy (JInt n)) with true
    by (symmetry; cbn; apply negb_true_iff, Z.eqb_neq; lia).
  cbn [negb]. rewrite parseInt_toString_int by lia. reflexivity.
Qed.

Lemma formatSize_leading_integer_witness :
  formatSize (JStr "1536 bytes") = formatSize (JInt 1536) /\
  formatSize (JStr "1536.9") = "1.50 KB".
Proof.
  split.
  - apply (formatSize_leading_integer 1536 " bytes"); [lia | reflexivity].
  - transitivity (formatSize (JInt 1536)); [| reflexivity].
    apply (formatSize_leading_integer 1536 ".9"); [lia | reflexivity].
Defined.

Lemma formatSize_falsy (v : JsVal) :
  truthy v = false -> formatSize v = formatSize (JInt 0).
Proof. intros H. unfold formatSize. now rewrite H. Qed.

Lemma formatSize_jor_zero (v : JsVal) :
  formatSize (jor v (JInt 0)) = formatSize v.
Proof.
  unfold jor. destruct (truthy v) eqn:E; [reflexivity |].
  symmetry. now apply formatSize_falsy.
Qed.

(** ** Further properties of the URL parser *)

Lemma search_found (r : regex) (s : str) (cap : option str) :
  search r s = Some cap ->
  exists pre suf, s = pre ++ suf /\ match_here r suf = Some cap.
Proof.
  induction s as [| c s IH]; cbn [search].
  - destruct (match_here r []) eqn:E; [| discriminate].
    intros H. injection H as <-. now exists [], [].
  - destruct (match_here r (c :: s)) eqn:E.
    + intros H. injection H as <-. now exists [], (c :: s).
    + intros H. destruct (IH H) as (pre & suf & -> & Hm).
      now exists (c :: pre), suf.
Qed.

Lemma search_finds (r : regex) (pre suf : str) (cap : option str) :
  match_here r suf = Some cap -> search r (pre ++ suf) <> None.
Proof.
  intros Hm. induction pre as [| c pre IH].
  - cbn [app]. rewrite (search_here _ _ _ Hm). discriminate.
  - cbn [app search]. destruct (match_here r (c :: pre ++ suf)); [discriminate |].
    exact IH.
Qed.

Lemma run_LitI_inv (l : str) :
  forall (X : Type) (inp : str) cap (k : str -> option str -> option X) (x : X),
    run (LitI l) X inp cap k = Some x ->
    exists l' rest,
      inp = l' ++ rest /\ map upper l' = map upper l /\ k rest cap = Some x.
Proof.
  induction l as [| c l IH]; intros X inp cap k x H.
  - exists [], inp. repeat split. exact H.
  - cbn [LitI] in H. rewrite run_Cat in H. unfold ChrI in H. rewrite run_Cls in H.
    destruct inp as [| c' inp]; [discriminate |].
    destruct (chr_eqb (upper c') (upper c)) eqn:Ec; [| discriminate].
    destruct (IH _ _ _ _ _ H) as (l' & rest & -> & Hl & Hk).
    exists (c' :: l'), rest. repeat split; [| exact Hk].
    cbn [map]. f_equal; [| exact Hl].
    unfold chr_eqb in Ec. now apply Ascii.eqb_eq in Ec.
Qed.

Lemma token_split (s : str) :
  exists tok rest,
    s = tok ++ rest /\ forallb token_char tok = true /\
    match rest with [] => True | c :: _ => token_char c = false end.
Proof.
  induction s as [| c s (tok & rest & -> & Ht & Hr)].
  - now exists [], [].
  - destruct (token_char c) eqn:Ec.
    + exists (c :: tok), rest. cbn [forallb]. rewrite Ec, Ht. now repeat split.
    + exists [], (c :: tok ++ rest). now repeat split.
Qed.

Lemma upper_one (c : ascii) :
  chr_eqb (upper c) (upper "1") = true -> token_char c = true.
Proof.
  destruct c as [[] [] [] [] [] [] [] []]; intros H; try discriminate H;
    reflexivity.
Qed.

(** The group fails where no token character stands. *)
Lemma run_token_group_none (X : Type) (inp : str) cap
    (k : str -> option str -> option X) :
  match inp with [] => True | c :: _ => token_char c = false end ->
  run (Grp (Cat (Opt (ChrI "1")) (Plus token_char))) X inp cap k = None.
Proof.
  intros Hc. rewrite run_Grp, run_Cat, run_Opt.
  unfold ChrI at 1. rewrite run_Cls.
  destruct inp as [| c inp].
  - now rewrite run_Plus_none.
  - destruct (chr_eqb (upper c) (upper "1")) eqn:E.
    + apply upper_one in E. congruence.
    + now rewrite run_Plus_none.
Qed.

(** A match of either pattern is a marker followed by the whole run of token
    characters after it. *)
Lemma match_here_token_inv (l suf : str) (cap : option str) :
  match_here (Cat (LitI l) (Grp (Cat (Opt (ChrI "1")) (Plus token_char)))) suf
    = Some cap ->
  exists l' tok rest,
    suf = l' ++ tok ++ rest /\ map upper l' = map upper l /\
    token_run tok rest /\ cap = Some tok.
Proof.
  unfold match_here. rewrite run_Cat. intros H.
  apply run_LitI_inv in H as (l' & inp & -> & Hl & H).
  destruct (token_split inp) as (tok & rest & -> & Ht & Hr).
  destruct tok as [| c tok].
  - cbn [app] in H. rewrite run_token_group_none in H by exact Hr. discriminate.
  - assert (Hrun : token_run (c :: tok) rest) by (repeat split; [discriminate | exact Ht | exact Hr]).
    rewrite (run_token_group _ _ _ _ _ (Some (c :: tok)) Hrun eq_refl) in H.
    injection H as <-.
    exists l', (c :: tok), rest. now repeat split.
Qed.

Lemma extractSurl_found (url : str) (v : JsVal) :
  extractSurl url = Ret v ->
  exists pre l tok rest,
    url = pre ++ l ++ tok ++ rest /\ share_marker l /\ token_run tok rest /\
    v = JStr tok.
Proof.
  unfold extractSurl.
  destruct (search re_path url) as [cap |] eqn:Ep.
  - intros H. injection H as <-.
    apply search_found in Ep as (pre & suf & -> & Hm).
    apply match_here_token_inv in Hm as (l & tok & rest & -> & Hl & Ht & ->).
    exists pre, l, tok, rest.
    split; [reflexivity |]. split; [now left |]. split; [exact Ht | reflexivity].
  - destruct (search re_query url) as [cap |] eqn:Eq; [| discriminate].
    intros H. injection H as <-.
    apply search_found in Eq as (pre & suf & -> & Hm).
    apply match_here_token_inv in Hm as (l & tok & rest & -> & Hl & Ht & ->).
    exists pre, l, tok, rest.
    split; [reflexivity |]. split; [now right |]. split; [exact Ht | reflexivity].
Qed.

Lemma extractSurl_outcomes (url : str) :
  (exists v, extractSurl url = Ret v) \/
  extractSurl url = Throw "Invalid TeraBox URL".
Proof.
  unfold extractSurl.
  destruct (search re_path url); [left; eauto |].
  destruct (search re_query url); [left; eauto | now right].
Qed.

Lemma names_share_returns (url : str) :
  names_share url -> exists v, extractSurl url = Ret v.
Proof.
  intros (pre & l & c & rest & -> & Hl & Hc).
  destruct (token_split rest) as (tok & rest' & -> & Ht & Hr).
  assert (Hrun : token_run (c :: tok) rest').
  { repeat split; [discriminate | cbn [forallb]; now rewrite Hc, Ht | exact Hr]. }
  change (c :: tok ++ rest') with ((c :: tok) ++ rest').
  unfold extractSurl.
  destruct Hl as [Hl | Hl].
  - pose proof (search_finds _ pre _ _ (match_here_token "/s/" l _ _ Hl Hrun)) as Hs.
    fold re_path in Hs.
    destruct (search re_path _); [eauto | congruence].
  - pose proof (search_finds _ pre _ _ (match_here_token "surl=" l _ _ Hl Hrun)) as Hs.
    fold re_query in Hs.
    destruct (search re_path _); [eauto |].
    destruct (search re_query _); [eauto | congruence].
Qed.

(** X3.  What [extractSurl] returns is always a string of the link itself:
    the whole run of token characters (letters, digits, underscore, hyphen)
    that follows an occurrence of [/s/] or [surl=] in the link, in either
    case of letters, and that run is not empty. *)
Theorem extractSurl_share_id (url : str) (v : JsVal) :
  extractSurl url = Ret v ->
  exists pre l tok rest,
    url = pre ++ l ++ tok ++ rest /\ share_marker l /\
    tok <> [] /\ forallb token_char tok = true /\
    match rest with [] => True | c :: _ => token_char c = false end /\
    v = JStr tok.
Proof.
  intros H. apply extractSurl_found in H as (pre & l & tok & rest & E & Hl & (Hn & Ht & Hr) & Hv).
  exists pre, l, tok, rest. now repeat split.
Qed.

Lemma extractSurl_share_id_witness :
  exists pre l tok rest,
    lit "https://1024terabox.com/S/1Ab-c_9?pwd=1" = pre ++ l ++ tok ++ rest /\
    share_marker l /\ tok <> [] /\ forallb token_char tok = true /\
    match rest with [] => True | c :: _ => token_char c = false end /\
    JStr "1Ab-c_9" = JStr tok.
Proof.
  exact (extractSurl_share_id "https://1024terabox.com/S/1Ab-c_9?pwd=1"
           (JStr "1Ab-c_9") eq_refl).
Defined.

(** X4.  [extractSurl] raises its error exactly on the links that have no
    occurrence of [/s/] or [surl=] directly followed by a token character,
    and returns on all the others. *)
Theorem extractSurl_raises_iff (url : str) :
  (extractSurl url = Throw "Invalid TeraBox URL" <-> ~ names_share url) /\
  ((exists v, extractSurl url = Ret v) <-> names_share url).
Proof.
  assert (Hret : (exists v, extractSurl url = Ret v) <-> names_share url).
  { split; [| apply names_share_returns].
    intros (v & H).
    apply extractSurl_found in H as (pre & l & tok & rest & -> & Hl & (Hn & Ht & _) & _).
    destruct tok as [| c tok]; [congruence |].
    cbn [forallb] in Ht. apply andb_prop in Ht as [Hc _].
    exists pre, l, c, (tok ++ rest). now repeat split. }
  split; [| exact Hret].
  split.
  - intros H Hn. apply Hret in Hn as (v & Hv). congruence.
  - intros Hn. destruct (extractSurl_outcomes url) as [Hv | Ht]; [| exact Ht].
    now apply Hret in Hv.
Qed.

(** X5.  The two variants of [extractSurl] agree wherever the earlier one
    returns: it knows the path form only, so whatever it returns the later
    one returns too, and a link the later one rejects the earlier one
    rejects with its own message. *)
Theorem V1_extractSurl_agrees (url : str) :
  (forall v, V1.extractSurl url = Ret v -> extractSurl url = Ret v) /\
  (extractSurl url = Throw "Invalid TeraBox URL" ->
   V1.extractSurl url = Throw "Invalid URL") /\
  (forall v, V1.extractSurl url = Ret v ->
     exists pre l tok rest,
       url = pre ++ l ++ tok ++ rest /\ map upper l = map upper "/s/" /\
       token_run tok rest /\ v = JStr tok).
Proof.
  unfold V1.extractSurl, extractSurl.
  destruct (search re_path url) as [cap |] eqn:Ep.
  - split; [auto |]. split; [discriminate |].
    intros v [= <-].
    apply search_found in Ep as (pre & suf & -> & Hm).
    apply match_here_token_inv in Hm as (l & tok & rest & -> & Hl & Ht & ->).
    now exists pre, l, tok, rest.
  - split; [discriminate |]. split; [reflexivity | discriminate].
Qed.

Lemma getBaseUrl_cases (url : str) :
  getBaseUrl url = "https://www.1024tera.com" \/
  getBaseUrl url = "https://www.1024terabox.com" \/
  getBaseUrl url = "https://www.4funbox.com" \/
  getBaseUrl url = "https://www.teraboxapp.com" \/
  getBaseUrl url = "https://www.terabox.com".
Proof.
  unfold getBaseUrl.
  destruct (includes url "1024tera.com"); [auto |].
  destruct (includes url "1024terabox.com"); [auto |].
  destruct (includes url "4funbox.com"); [auto |].
  destruct (includes url "teraboxapp.com"); auto 6.
Qed.

(** X6.  A base URL resolves to itself: [getBaseUrl] is idempotent in both
    variants, and the later variant keeps every base the earlier one can
    return. *)
Theorem getBaseUrl_idempotent (url : str) :
  getBaseUrl (getBaseUrl url) = getBaseUrl url /\
  V1.getBaseUrl (V1.getBaseUrl url) = V1.getBaseUrl url /\
  getBaseUrl (V1.getBaseUrl url) = V1.getBaseUrl url.
Proof.
  split; [| split].
  - destruct (getBaseUrl_cases url) as [E | [E | [E | [E | E]]]];
      rewrite E; reflexivity.
  - unfold V1.getBaseUrl at 2 3.
    destruct (includes url "1024tera.com"); [reflexivity |].
    destruct (includes url "1024terabox.com"); reflexivity.
  - unfold V1.getBaseUrl.
    destruct (includes url "1024tera.com"); [reflexivity |].
    destruct (includes url "1024terabox.com"); reflexivity.
Qed.

Lemma starts_with_prefix (p s : str) :
  starts_with p s = true -> exists rest, s = p ++ rest.
Proof.
  revert s. induction p as [| c p IH]; intros s H; [now exists s |].
  destruct s as [| d s]; [discriminate |].
  cbn [starts_with] in H. apply andb_prop in H as [Hc Hp].
  unfold chr_eqb in Hc. apply Ascii.eqb_eq in Hc as ->.
  destruct (IH _ Hp) as (rest & ->). now exists rest.
Qed.

(** A run of token characters holds no host name: each has a dot. *)
Lemma includes_token (tok p : str) :
  forallb token_char tok = true ->
  forallb token_char p = false ->
  includes tok p = false.
Proof.
  intros Ht Hp. induction tok as [| c tok IH].
  - cbn [includes]. destruct p; [discriminate | reflexivity].
  - cbn [forallb] in Ht. apply andb_prop in Ht as [Hc Ht].
    cbn [includes]. rewrite (IH Ht), orb_false_r.
    destruct (starts_with p (c :: tok)) eqn:E; [| reflexivity].
    apply starts_with_prefix in E as (rest & E).
    assert (Hall : forallb token_char (p ++ rest) = true)
      by (rewrite <- E; cbn [forallb]; now rewrite Hc, Ht).
    rewrite forallb_app in Hall. apply andb_prop in Hall as [Hall _]. congruence.
Qed.

(** X7.  The [Referer] that [tryDirectApi] sends is a link to the same
    share: it is the resolved base followed by [/s/] and the share
    identifier, [extractSurl] reads that identifier back from it, and
    [getBaseUrl] resolves it to the same base. *)
Theorem referer_names_share (url tok : str) :
  extractSurl url = Ret (JStr tok) ->
  let referer := getBaseUrl url ++ "/s/" ++ tok in
  In ("Referer" : str, referer) (direct_headers (getBaseUrl url) tok) /\
  extractSurl referer = Ret (JStr tok) /\
  getBaseUrl referer = getBaseUrl url.
Proof.
  intros H referer. subst referer.
  apply extractSurl_found in H as (pre & l & tok' & rest & _ & _ & (Hn & Ht & _) & Hv).
  injection Hv as <-.
  assert (Hrun : token_run tok []) by now repeat split.
  split; [right; right; left; reflexivity |].
  assert (Hex : forall base,
            none_before re_path base ("/s/" ++ tok) = true ->
            extractSurl (base ++ "/s/" ++ tok) = Ret (JStr tok)).
  { intros base Hb. unfold extractSurl.
    rewrite search_skip by exact Hb.
    pose proof (match_here_token "/s/" "/s/" tok [] eq_refl Hrun) as Hm.
    rewrite app_nil_r in Hm. fold re_path in Hm.
    now rewrite (search_here _ _ _ Hm). }
  assert (Hinc : forall p, forallb token_char p = false -> includes tok p = false)
    by (intros p; now apply includes_token).
  pose proof (Hinc "1024tera.com" eq_refl) as H1.
  pose proof (Hinc "1024terabox.com" eq_refl) as H2.
  pose proof (Hinc "4funbox.com" eq_refl) as H3.
  pose proof (Hinc "teraboxapp.com" eq_refl) as H4.
  cbn [lit list_ascii_of_string] in H1, H2, H3, H4.
  destruct (getBaseUrl_cases url) as [E | [E | [E | [E | E]]]]; rewrite E;
    (split; [apply Hex; reflexivity |]).
  all: unfold getBaseUrl.
  all: cbn [includes starts_with lit list_ascii_of_string app chr_eqb Ascii.eqb Bool.eqb andb orb].
  all: try reflexivity.
  all: rewrite ?H1, ?H2, ?H3, ?H4; try reflexivity.
Qed.

Lemma referer_names_share_witness :
  In ("Referer" : str, lit "https://www.1024terabox.com/s/1Ab-c_9")
    (direct_headers (getBaseUrl "https://1024terabox.com/S/1Ab-c_9?pwd=1")
       "1Ab-c_9") /\
  extractSurl "https://www.1024terabox.com/s/1Ab-c_9" = Ret (JStr "1Ab-c_9") /\
  getBaseUrl "https://www.1024terabox.com/s/1Ab-c_9" =
  getBaseUrl "https://1024terabox.com/S/1Ab-c_9?pwd=1".
Proof.
  exact (referer_names_share "https://1024terabox.com/S/1Ab-c_9?pwd=1"
           "1Ab-c_9" eq_refl).
Defined.

(** ** Escaping and the mirror strategies *)

Lemma escape_byte (c : ascii) :
  byte_of (16 * hex_value (hex_digit (code c / 16))
           + hex_value (hex_digit (code c mod 16))) = c /\
  component_char (hex_digit (code c / 16)) = true /\
  component_char (hex_digit (code c mod 16)) = true.
Proof.
  destruct c as [[] [] [] [] [] [] [] []]; vm_compute; repeat split.
Qed.

Lemma unreserved_not_percent (c : ascii) :
  uri_unreserved c = true -> chr_eqb c "%" = false.
Proof.
  destruct c as [[] [] [] [] [] [] [] []]; intros H; try discriminate H;
    reflexivity.
Qed.

Lemma encodeURIComponent_cons (c : ascii) (s : str) :
  encodeURIComponent (c :: s) =
  (if uri_unreserved c then [c]
   else ["%"%char; hex_digit (code c / 16); hex_digit (code c mod 16)])
  ++ encodeURIComponent s.
Proof. reflexivity. Qed.

Lemma percent_decode_encode (s : str) :
  percent_decode (encodeURIComponent s) = s.
Proof.
  induction s as [| c s IH]; [reflexivity |].
  rewrite encodeURIComponent_cons.
  destruct (uri_unreserved c) eqn:Eu.
  - cbn [app percent_decode]. rewrite (unreserved_not_percent c Eu).
    now rewrite IH.
  - cbn [app percent_decode]. change (chr_eqb "%" "%") with true. cbv iota.
    rewrite IH. f_equal. apply escape_byte.
Qed.

Lemma encodeURIComponent_chars (s : str) :
  forallb component_char (encodeURIComponent s) = true.
Proof.
  induction s as [| c s IH]; [reflexivity |].
  rewrite encodeURIComponent_cons, forallb_app, IH, andb_true_r.
  destruct (uri_unreserved c) eqn:Eu.
  - cbn [forallb]. unfold component_char. now rewrite Eu.
  - cbn [forallb]. destruct (escape_byte c) as (_ & H1 & H2).
    now rewrite H1, H2.
Qed.

(** X8.  Percent escaping loses nothing: decoding the escapes of
    [encodeURIComponent s] gives [s] back, so two links are escaped to the
    same text only when they are the same link; and a string of unreserved
    characters is left as it is. *)
Theorem encodeURIComponent_round_trip :
  (forall s, percent_decode (encodeURIComponent s) = s) /\
  (forall a b, encodeURIComponent a = encodeURIComponent b -> a = b) /\
  (forall s, forallb uri_unreserved s = true -> encodeURIComponent s = s).
Proof.
  split; [exact percent_decode_encode |]. split.
  - intros a b H. rewrite <- (percent_decode_encode a), H.
    apply percent_decode_encode.
  - induction s as [| c s IH]; [reflexivity |].
    cbn [forallb]. intros H. apply andb_prop in H as [Hc Hs].
    rewrite encodeURIComponent_cons, Hc, (IH Hs). reflexivity.
Qed.

Lemma client_get_world (url : str) (headers : list (str * str)) (net : Net)
    (w : World) :
  snd (client_get url headers net w) =
  requested url
    (filter (fun h => negb (has_header (fst h) headers)) client_defaults
     ++ headers) w.
Proof. unfold client_get. now destruct (net _ _ _). Qed.

Lemma axios_get_world (url : str) (headers : list (str * str)) (net : Net)
    (w : World) :
  snd (V1.axios_get url headers net w) = requested url headers w.
Proof. unfold V1.axios_get. now destruct (net _ _ _). Qed.

Lemma tryNepCoderApi_world (url : str) (net : Net) (w : World) :
  snd (tryNepCoderApi url net w) =
  requested (nepcoder_endpoint ++ encodeURIComponent url) client_defaults w.
Proof.
  unfold tryNepCoderApi, bind, client_get, guard, ret, throw.
  destruct (net _ _ _) as [e | data]; [reflexivity |].
  destruct (truthy data); [| reflexivity].
  now destruct (truthy (jor _ _)).
Qed.

Lemma tryUdayApi_world (url : str) (net : Net) (w : World) :
  snd (tryUdayApi url net w) =
  requested (uday_endpoint ++ encodeURIComponent url) client_defaults w.
Proof.
  unfold tryUdayApi, bind, client_get, guard, ret, throw.
  destruct (net _ _ _) as [e | data]; [reflexivity |].
  destruct (truthy data); [| reflexivity].
  now destruct (truthy (jor _ _)).
Qed.

Lemma V1_mirror_world (url : str) (net : Net) (w : World) :
  snd (V1.tryApi1 url net w) =
    requested (nepcoder_endpoint ++ encodeURIComponent url) [] w /\
  snd (V1.tryApi2 url net w) =
    requested (uday_endpoint ++ encodeURIComponent url) [] w /\
  snd (V1.tryApi3 url net w) =
    requested (nepcoder2_endpoint ++ encodeURIComponent url) [] w.
Proof.
  unfold V1.tryApi1, V1.tryApi2, V1.tryApi3, bind, V1.axios_get, lift, ret, throw.
  repeat split; destruct (net _ _ _) as [e | data]; try reflexivity;
    destruct (truthy data && _); try reflexivity;
    now destruct (V1.formatApiResponse data).
Qed.

(** X9.  Whatever the network answers, each mirror strategy issues exactly
    one GET, to its fixed endpoint followed by the escaped link.  Of the
    headers of that request the program sets the instance's User-Agent in
    the four-strategy variant and none in the five-strategy one; what axios
    adds by default is not part of the statement.  The escaped link holds
    unreserved characters and percent signs only, so it cannot add a
    parameter to the query. *)
Theorem mirror_requests (url : str) (net : Net) (w : World) :
  snd (tryNepCoderApi url net w) =
    requested (nepcoder_endpoint ++ encodeURIComponent url)
      [("User-Agent" : str, user_agent)] w /\
  snd (tryUdayApi url net w) =
    requested (uday_endpoint ++ encodeURIComponent url)
      [("User-Agent" : str, user_agent)] w /\
  snd (V1.tryApi1 url net w) =
    requested (nepcoder_endpoint ++ encodeURIComponent url) [] w /\
  snd (V1.tryApi2 url net w) =
    requested (uday_endpoint ++ encodeURIComponent url) [] w /\
  snd (V1.tryApi3 url net w) =
    requested (nepcoder2_endpoint ++ encodeURIComponent url) [] w /\
  forallb component_char (encodeURIComponent url) = true.
Proof.
  split; [apply tryNepCoderApi_world |]. split; [apply tryUdayApi_world |].
  destruct (V1_mirror_world url net w) as (H1 & H2 & H3).
  repeat split; try assumption. apply encodeURIComponent_chars.
Qed.

Lemma null_or_defined (v : JsVal) : null_or v <> JUndefined.
Proof.
  unfold null_or, jor. destruct (truthy v) eqn:E; [| discriminate].
  intros ->. discriminate E.
Qed.

Lemma jor_defined (a b : JsVal) : b <> JUndefined -> jor a b <> JUndefined.
Proof.
  intros Hb. unfold jor. destruct (truthy a) eqn:E; [| exact Hb].
  intros ->. discriminate E.
Qed.

Lemma jor_truthy (a b : JsVal) : truthy b = true -> truthy (jor a b) = true.
Proof. intros Hb. unfold jor. now destruct (truthy a) eqn:E. Qed.

(** X10.  A result of [tryNepCoderApi] or [tryUdayApi] is a complete record:
    the filename is a truthy value (Unknown when the mirror gave none), the
    size is defined (0 when unknown), the formatted size is a string, and
    thumb, downloadUrl and resolutions are defined (null when absent); its
    source is the strategy's identity. *)
Theorem mirror_record_complete (url : str) (net : Net) (w w' : World)
    (r : JsVal) :
  tryNepCoderApi url net w = (Ret r, w') \/ tryUdayApi url net w = (Ret r, w') ->
  record_complete (field r "data") /\
  (exists source, field r "source" = JStr source /\
                  (source = "nepcoderdevs" \/ source = "udayscripts")).
Proof.
  intros [H | H]; revert H.
  - unfold tryNepCoderApi, bind, client_get, guard, ret, throw.
    destruct (net _ _ _) as [e | data]; [discriminate |].
    destruct (truthy data); [| discriminate].
    destruct (truthy (jor _ _)); [| discriminate].
    intros [= <- _]. split; [| eexists; split; [reflexivity | now left]].
    unfold record_complete.
    cbn [field obj map lookup str_eqb chr_eqb Ascii.eqb Bool.eqb lit
         list_ascii_of_string fst snd andb].
    repeat split; try apply null_or_defined.
    + now apply jor_truthy.
    + now apply jor_defined.
    + eauto.
  - unfold tryUdayApi, bind, client_get, guard, ret, throw.
    destruct (net _ _ _) as [e | data]; [discriminate |].
    destruct (truthy data); [| discriminate].
    destruct (truthy (jor _ _)); [| discriminate].
    intros [= <- _]. split; [| eexists; split; [reflexivity | now right]].
    unfold record_complete.
    cbn [field obj map lookup str_eqb chr_eqb Ascii.eqb Bool.eqb lit
         list_ascii_of_string fst snd andb].
    repeat split; try apply null_or_defined.
    + now apply jor_truthy.
    + now apply jor_defined.
    + eauto.
Qed.

Lemma mirror_record_complete_witness :
  exists r w',
    tryUdayApi "https://terabox.com/s/1abc"
      (fun _ _ _ => NetOk (obj [("download_link", JStr "https://d.example/x")]))
      (mkWorld [] []) = (Ret r, w') /\
    field (field r "data") "filename" = JStr "Unknown" /\
    field (field r "data") "size" = JInt 0 /\
    field (field r "data") "thumb" = JNull /\
    record_complete (field r "data").
Proof.
  do 2 eexists. split; [vm_compute; reflexivity |].
  split; [reflexivity |]. split; [reflexivity |]. split; [reflexivity |].
  eapply (mirror_record_complete "https://terabox.com/s/1abc"
            (fun _ _ _ => NetOk (obj [("download_link", JStr "https://d.example/x")]))
            (mkWorld [] [])).
  right. vm_compute. reflexivity.
Defined.

(** ** The matcher is sound, and what the page scrape captures *)

Lemma run_Star_inv (p : ascii -> bool) (X : Type) (inp : str) cap
    (k : str -> option str -> option X) (x : X) :
  run (Star p) X inp cap k = Some x ->
  exists s rest, inp = s ++ rest /\ forallb p s = true /\ k rest cap = Some x.
Proof.
  cbn [run]. induction inp as [| c inp IH].
  - intros H. now exists [], [].
  - destruct (p c) eqn:Ec.
    + match goal with
      | |- context [match ?f inp with _ => _ end] => destruct (f inp) as [y |] eqn:Es
      end.
      * intros H. injection H as <-.
        destruct (IH eq_refl) as (s & rest & -> & Hs & Hk).
        exists (c :: s), rest. cbn [forallb]. rewrite Ec, Hs. now repeat split.
      * intros H. now exists [], (c :: inp).
    + intros H. now exists [], (c :: inp).
Qed.

Lemma run_StarLazy_inv (p : ascii -> bool) (X : Type) (inp : str) cap
    (k : str -> option str -> option X) (x : X) :
  run (StarLazy p) X inp cap k = Some x ->
  exists s rest, inp = s ++ rest /\ forallb p s = true /\ k rest cap = Some x.
Proof.
  cbn [run]. induction inp as [| c inp IH].
  - destruct (k [] cap) eqn:Ek; [| discriminate].
    intros H. injection H as <-. now exists [], [].
  - destruct (k (c :: inp) cap) eqn:Ek.
    + intros H. injection H as <-. now exists [], (c :: inp).
    + destruct (p c) eqn:Ec; [| discriminate].
      intros H. destruct (IH H) as (s & rest & -> & Hs & Hk).
      exists (c :: s), rest. cbn [forallb]. rewrite Ec, Hs. now repeat split.
Qed.

(** Whatever the matcher hands to its continuation is the input less a
    string of the pattern's language, and the capture is the one it was
    given or one a group of the pattern took. *)
Lemma run_sound (r : regex) :
  forall (X : Type) (inp : str) cap (k : str -> option str -> option X) (x : X),
    run r X inp cap k = Some x ->
    exists s rest cap',
      inp = s ++ rest /\ lang r s /\ k rest cap' = Some x /\
      (cap' = cap \/ exists g, cap' = Some g /\ captured r g).
Proof.
  induction r as [| p | r1 IH1 r2 IH2 | r1 IH1 | p | p | r1 IH1 | r1 IH1];
    intros X inp cap k x H.
  - exists [], inp, cap. cbn [run] in H. now repeat split; auto.
  - rewrite run_Cls in H. destruct inp as [| c inp]; [discriminate |].
    destruct (p c) eqn:Ec; [| discriminate].
    exists [c], inp, cap. repeat split; auto. now exists c.
  - rewrite run_Cat in H.
    apply IH1 in H as (s1 & rest1 & cap1 & -> & Hl1 & H & Hc1).
    apply IH2 in H as (s2 & rest & cap2 & -> & Hl2 & H & Hc2).
    exists (s1 ++ s2), rest, cap2. rewrite <- app_assoc.
    split; [reflexivity |]. split; [now exists s1, s2 |]. split; [exact H |].
    cbn [captured].
    destruct Hc2 as [-> | (g & -> & Hg)]; [| right; exists g; auto].
    destruct Hc1 as [-> | (g & -> & Hg)]; [now left | right; exists g; auto].
  - rewrite run_Opt in H.
    destruct (run r1 X inp cap k) as [y |] eqn:E.
    + injection H as <-.
      apply IH1 in E as (s & rest & cap' & -> & Hl & Hk & Hc).
      exists s, rest, cap'. cbn [lang captured]. repeat split; auto.
    + exists [], inp, cap. cbn [lang]. repeat split; auto.
  - apply run_Star_inv in H as (s & rest & -> & Hs & Hk).
    exists s, rest, cap. repeat split; auto.
  - apply run_StarLazy_inv in H as (s & rest & -> & Hs & Hk).
    exists s, rest, cap. repeat split; auto.
  - rewrite run_Grp in H.
    apply IH1 in H as (s & rest & cap' & -> & Hl & Hk & _).
    rewrite length_app in Hk.
    replace (length s + length rest - length rest)%nat with (length s + 0)%nat
      in Hk by lia.
    rewrite firstn_app_2 in Hk. cbn [firstn] in Hk. rewrite app_nil_r in Hk.
    exists s, rest, (Some s). cbn [lang captured]. repeat split; auto.
    right. now exists s.
  - cbn [run] in H.
    destruct (run r1 (option str) inp cap (fun _ cap' => Some cap'))
      as [cap1 |] eqn:E; [| discriminate].
    apply IH1 in E as (s & rest & cap' & _ & _ & Hk & Hc).
    injection Hk as ->.
    exists [], inp, cap1. cbn [lang captured]. repeat split; auto.
Qed.

(** Past a pattern that binds, the capture is one of its groups'. *)
Lemma run_binds (r : regex) :
  forall (X : Type) (inp : str) cap (k : str -> option str -> option X) (x : X),
    binds r = true ->
    run r X inp cap k = Some x ->
    exists rest g, k rest (Some g) = Some x /\ captured r g.
Proof.
  induction r as [| p | r1 IH1 r2 IH2 | r1 IH1 | p | p | r1 IH1 | r1 IH1];
    intros X inp cap k x Hb H; try discriminate Hb.
  - rewrite run_Cat in H. cbn [binds] in Hb. cbn [captured].
    destruct (binds r2) eqn:E2.
    + apply run_sound in H as (s1 & rest1 & cap1 & _ & _ & H & _).
      apply IH2 in H as (rest & g & Hk & Hg); [| reflexivity].
      exists rest, g. auto.
    + rewrite orb_false_r in Hb.
      apply IH1 in H as (rest1 & g1 & H & Hg1); [| exact Hb].
      apply run_sound in H as (s2 & rest & cap2 & _ & _ & Hk & Hc).
      destruct Hc as [-> | (g & -> & Hg)]; [exists rest, g1 | exists rest, g]; auto.
  - rewrite run_Grp in H.
    apply run_sound in H as (s & rest & cap' & -> & Hl & Hk & _).
    rewrite length_app in Hk.
    replace (length s + length rest - length rest)%nat with (length s + 0)%nat
      in Hk by lia.
    rewrite firstn_app_2 in Hk. cbn [firstn] in Hk. rewrite app_nil_r in Hk.
    exists rest, s. auto.
Qed.

Lemma search_binds (r : regex) (s : str) (cap : option str) :
  binds r = true -> search r s = Some cap ->
  exists g, cap = Some g /\ captured r g.
Proof.
  intros Hb H. apply search_found in H as (pre & suf & _ & Hm).
  unfold match_here in Hm.
  apply run_binds in Hm as (rest & g & Hk & Hg); [| exact Hb].
  injection Hk as <-. now exists g.
Qed.

Lemma lang_Plus (p : ascii -> bool) (g : str) :
  lang (Plus p) g -> g <> [] /\ forallb p g = true.
Proof.
  intros (s1 & s2 & -> & (c & -> & Hc) & Hs). cbn [lang] in Hs.
  split; [discriminate |]. cbn [app forallb]. now rewrite Hc, Hs.
Qed.

Lemma lang_Chr (c : ascii) (s : str) : lang (Chr c) s -> s = [c].
Proof.
  intros (c' & -> & H). unfold chr_eqb in H. apply Ascii.eqb_eq in H. now subst.
Qed.

Lemma captured_Lit (l g : str) : ~ captured (Lit l) g.
Proof.
  induction l as [| c l IH]; cbn [Lit captured]; [tauto |].
  unfold Chr. cbn [captured]. tauto.
Qed.

Lemma digits_captured (name g : str) :
  captured (seq_re [Lit (quoted name); Star is_space; Chr ":"; Star is_space;
                    Grp (Plus is_digit)]) g ->
  g <> [] /\ forallb is_digit g = true.
Proof.
  cbn [seq_re captured]. unfold Chr. cbn [captured].
  intros [H | [[] | [[] | [[] | H]]]];
    [now apply captured_Lit in H | now apply lang_Plus].
Qed.

Lemma string_captured (name g : str) :
  captured (seq_re [Lit (quoted name); Star is_space; Chr ":"; Star is_space;
                    Chr dq; Grp (Plus not_dq); Chr dq]) g ->
  g <> [] /\ forallb not_dq g = true.
Proof.
  cbn [seq_re captured]. unfold Chr. cbn [captured].
  intros [H | [[] | [[] | [[] | [[] | [H | []]]]]]];
    [now apply captured_Lit in H | now apply lang_Plus].
Qed.

Lemma parseInt_val_digits (g : str) :
  g <> [] -> forallb is_digit g = true ->
  parseInt_val g = JInt (read_digits g 0) /\ 0 <= read_digits g 0.
Proof.
  intros Hn Hd. unfold parseInt_val.
  rewrite (proj1 (parseInt_digits g Hn Hd)). split; [reflexivity |].
  unfold read_digits.
  assert (H : forall a, 0 <= a ->
            0 <= fold_left (fun acc c => acc * 10 + (code c - 48)) g a).
  { clear Hn. induction g as [| c g IH]; intros a Ha; [exact Ha |].
    cbn [forallb] in Hd. apply andb_prop in Hd as [Hc Hd].
    cbn [fold_left]. apply IH; [exact Hd |].
    unfold is_digit, in_range in Hc. apply andb_prop in Hc as [Hc _].
    apply Z.leb_le in Hc. lia. }
  apply H. lia.
Qed.

Lemma JSON_parse_bracket (s : str) (v : JsVal) :
  JSON_parse ("["%char :: s) = Some v -> exists items, v = JArr items.
Proof.
  unfold JSON_parse. cbn [length].
  replace (2 * S (length s) + 2)%nat with (S (2 * length s + 3)) by lia.
  cbn [parse_value].
  change (skip_ws ("["%char :: s)) with ("["%char :: s). cbv iota.
  change (chr_eqb "[" "n") with false. change (chr_eqb "[" "t") with false.
  change (chr_eqb "[" "f") with false. change (chr_eqb "[" dq) with false.
  change (chr_eqb "[" "[") with true. cbv iota.
  destruct (skip_ws s) as [| c' after]; [discriminate |].
  destruct (chr_eqb c' "]").
  - destruct (skip_ws after); [| discriminate]. intros [= <-]. now exists [].
  - destruct (parse_elements _ s) as [items after' | |]; try discriminate.
    destruct (skip_ws after'); [| discriminate]. intros [= <-]. now exists items.
Qed.

(** X11.  What the list pattern of the page scrape captures is text in
    square brackets; so whenever [JSON.parse] accepts the capture, the
    value is an array. *)
Theorem list_capture_is_array (html : str) (cap : option str) :
  search re_list html = Some cap ->
  exists body,
    cap = Some ("[" ++ body ++ "]") /\
    (forall v, JSON_parse (toString (group1 cap)) = Some v ->
       exists items, v = JArr items).
Proof.
  intros H. apply search_binds in H as (g & -> & Hg); [| reflexivity].
  assert (Hb : exists body, g = "[" ++ body ++ "]").
  { revert Hg. unfold re_list. cbn [seq_re captured]. unfold Chr at 1 2.
    cbn [captured].
    intros [H | [[] | [[] | [[] | [H | H]]]]].
    - now apply captured_Lit in H.
    - cbn [lang] in H. destruct H as (s1 & s2 & -> & H1 & s3 & s4 & -> & _ & H4).
      apply lang_Chr in H1 as ->. apply lang_Chr in H4 as ->. now exists s3.
    - unfold Chr in H. cbn [captured] in H. destruct H as [[] | []]. }
  destruct Hb as (body & ->). exists body. split; [reflexivity |].
  intros v. apply JSON_parse_bracket.
Qed.

Lemma list_capture_is_array_witness :
  exists body,
    Some (lit "[]") = Some ("[" ++ body ++ "]") /\
    (forall v, JSON_parse (toString (group1 (Some (lit "[]")))) = Some v ->
       exists items, v = JArr items).
Proof.
  exact (list_capture_is_array page_single (Some (lit "[]")) eq_refl).
Defined.

(** The size fields of the single-file extraction: a non-negative integer
    and its formatting. *)
Lemma scrape_size_fields (html : str) :
  exists n,
    match search re_size html with
    | Some sz => parseInt_val (toString (group1 sz))
    | None => JInt 0
    end = JInt n /\ 0 <= n /\
    match search re_size html with
    | Some sz => JStr (formatSize (parseInt_val (toString (group1 sz))))
    | None => JStr "Unknown"
    end = JStr (formatSize (JInt n)).
Proof.
  destruct (search re_size html) as [sz |] eqn:Esz.
  - apply search_binds in Esz as (gs & -> & Hgs); [| reflexivity].
    apply digits_captured in Hgs as [Hs1 Hs2].
    destruct (parseInt_val_digits gs Hs1 Hs2) as [Hp Hpos].
    cbn [group1 toString]. rewrite Hp. eauto.
  - exists 0. repeat split; lia || reflexivity.
Qed.

Lemma scrape_single_fields (html : str) (r : JsVal) :
  scrape_single html = Ret r ->
  exists file n,
    field (field r "data") "files" = JArr [file] /\
    field file "size" = JInt n /\
    field file "sizeFormatted" = JStr (formatSize (JInt n)).
Proof.
  unfold scrape_single.
  destruct (search re_filename html) as [fn |]; [| discriminate].
  destruct (search re_fs_id html) as [fs |]; [| discriminate].
  intros H. injection H as <-.
  destruct (scrape_size_fields html) as (n & Hsz & _ & Hfmt).
  eexists _, n. split; [reflexivity |]. split; [exact Hsz | exact Hfmt].
Qed.

(** A string of digits reads as a number below the power of ten of its
    length. *)
Lemma read_digits_bound (g : str) :
  forallb is_digit g = true ->
  0 <= read_digits g 0 < 10 ^ Z.of_nat (length g).
Proof.
  induction g as [| c g IH]; intros Hd.
  - unfold read_digits. cbn. lia.
  - cbn [forallb] in Hd. apply andb_prop in Hd as [Hc Hd].
    specialize (IH Hd).
    rewrite read_digits_cons, read_digits_shift.
    change (length (c :: g)) with (S (length g)).
    rewrite Nat2Z.inj_succ, Z.pow_succ_r by lia.
    unfold is_digit, in_range in Hc. apply andb_prop in Hc as [H1 H2].
    apply Z.leb_le in H1, H2.
    assert (0 < 10 ^ Z.of_nat (length g)) by (apply Z.pow_pos_nonneg; lia).
    nia.
Qed.

(** X12.  When the single-file extraction of the page scrape succeeds, on a
    page whose size, if it names one, has at most fifteen digits, its
    result lists one file whose identifier is a non-empty string of digits,
    whose size is a non-negative integer below 10^15 (0 when the page names
    none) with the formatted size of that integer, and whose filename and
    download link hold neither a backslash nor a double quote; the link is
    null when the page names none. *)
Theorem scrape_single_shape (html : str) (r : JsVal) :
  scrape_single html = Ret r ->
  (forall digits, search re_size html = Some (Some digits) ->
     (length digits <= 15)%nat) ->
  exists file id n name,
    field (field r "data") "files" = JArr [file] /\
    field file "fs_id" = JStr id /\ id <> [] /\ forallb is_digit id = true /\
    field file "size" = JInt n /\ 0 <= n < 10 ^ 15 /\
    (search re_size html = None -> n = 0) /\
    field file "sizeFormatted" = JStr (formatSize (JInt n)) /\
    field file "filename" = JStr name /\
    ~ In "\"%char name /\ ~ In dq name /\
    (field file "dlink" = JNull \/
     exists link, field file "dlink" = JStr link /\
                  ~ In "\"%char link /\ ~ In dq link).
Proof.
  unfold scrape_single.
  destruct (search re_filename html) as [fn |] eqn:Efn; [| discriminate].
  destruct (search re_fs_id html) as [fs |] eqn:Efs; [| discriminate].
  intros H Hlen. injection H as <-.
  apply search_binds in Efn as (gn & -> & Hgn); [| reflexivity].
  apply search_binds in Efs as (gi & -> & Hgi); [| reflexivity].
  apply string_captured in Hgn as [_ Hgn].
  apply digits_captured in Hgi as [Hi1 Hi2].
  assert (Hstrip : forall g, forallb not_dq g = true ->
            ~ In "\"%char (strip_backslashes g) /\ ~ In dq (strip_backslashes g)).
  { intros g Hg. split; [apply strip_backslashes_clean |].
    unfold strip_backslashes. intros Hin. apply filter_In in Hin as [Hin _].
    rewrite forallb_forall in Hg. apply Hg in Hin. discriminate Hin. }
  destruct (Hstrip gn Hgn) as [Hn1 Hn2].
  assert (Hsize : exists n,
            match search re_size html with
            | Some sz => parseInt_val (toString (group1 sz))
            | None => JInt 0
            end = JInt n /\ 0 <= n < 10 ^ 15 /\
            (search re_size html = None -> n = 0) /\
            match search re_size html with
            | Some sz => JStr (formatSize (parseInt_val (toString (group1 sz))))
            | None => JStr "Unknown"
            end = JStr (formatSize (JInt n))).
  { destruct (search re_size html) as [sz |] eqn:Esz.
    - pose proof Esz as Hb.
      apply search_binds in Hb as (gs & -> & Hgs); [| reflexivity].
      apply digits_captured in Hgs as [Hs1 Hs2].
      destruct (parseInt_val_digits gs Hs1 Hs2) as [Hp Hpos].
      pose proof (read_digits_bound gs Hs2) as Hbd.
      specialize (Hlen gs eq_refl).
      assert (10 ^ Z.of_nat (length gs) <= 10 ^ 15)
        by (apply Z.pow_le_mono_r; lia).
      cbn [group1 toString]. rewrite Hp.
      exists (read_digits gs 0).
      split; [reflexivity |]. split; [lia |]. split; [discriminate | reflexivity].
    - exists 0. split; [reflexivity |]. split; [lia |]. split; reflexivity. }
  destruct Hsize as (n & Hsz & Hpos & Hnone & Hfmt).
  eexists _, gi, n, (strip_backslashes gn).
  split; [reflexivity |].
  split; [reflexivity |]. split; [exact Hi1 |]. split; [exact Hi2 |].
  split; [exact Hsz |]. split; [exact Hpos |]. split; [exact Hnone |].
  split; [exact Hfmt |].
  split; [reflexivity |]. split; [exact Hn1 |]. split; [exact Hn2 |].
  destruct (search re_dlink html) as [dl |] eqn:Edl; [right | now left].
  apply search_binds in Edl as (gd & -> & Hgd); [| reflexivity].
  apply string_captured in Hgd as [_ Hgd].
  destruct (Hstrip gd Hgd) as [Hd1 Hd2].
  exists (strip_backslashes gd). now repeat split.
Qed.

Lemma scrape_single_shape_witness :
  exists r, scrape_single page_sized = Ret r /\
  exists file id n name,
    field (field r "data") "files" = JArr [file] /\
    field file "fs_id" = JStr id /\ id <> [] /\ forallb is_digit id = true /\
    field file "size" = JInt n /\ 0 <= n < 10 ^ 15 /\
    (search re_size page_sized = None -> n = 0) /\
    field file "sizeFormatted" = JStr (formatSize (JInt n)) /\
    field file "filename" = JStr name /\
    ~ In "\"%char name /\ ~ In dq name /\
    (field file "dlink" = JNull \/
     exists link, field file "dlink" = JStr link /\
                  ~ In "\"%char link /\ ~ In dq link).
Proof.
  eexists. split; [vm_compute; reflexivity |].
  apply (scrape_single_shape page_sized).
  - vm_compute. reflexivity.
  - intros digits H. vm_compute in H. injection H as <-. cbn [length]. lia.
Defined.

(** ** Further properties of the vendor-direct strategy *)

Lemma tryDirectApi_run (url : str) (net : Net) (w : World) :
  match extractSurl url with
  | Throw e => tryDirectApi url net w = (Throw e, w)
  | Ret sv =>
      let surl := toString sv in
      let baseUrl := getBaseUrl url in
      let headers := direct_headers baseUrl surl in
      let w1 := requested (shorturlinfo_url baseUrl surl) headers w in
      let w2 := requested (share_list_url baseUrl surl) headers w1 in
      match net (trace w) (shorturlinfo_url baseUrl surl) headers with
      | NetFail e => tryDirectApi url net w = (Throw e, w1)
      | NetOk info =>
          if is_int 0 (field info "errno")
          then snd (tryDirectApi url net w) = w2
          else tryDirectApi url net w = (Throw (share_info_error info), w1)
      end
  end.
Proof.
  unfold tryDirectApi, bind, lift, guard, ret, throw. cbv zeta.
  destruct (extractSurl url) as [sv | e]; [| reflexivity].
  rewrite client_get_direct.
  destruct (net _ _ _) as [e | info]; [reflexivity |].
  unfold share_info_error.
  destruct (is_int 0 (field info "errno")) eqn:E0.
  - rewrite prop_defined by (intros E; rewrite E in E0; discriminate E0).
    rewrite E0. rewrite client_get_direct.
    destruct (net _ _ _) as [e | listing]; [reflexivity |].
    destruct (prop listing "errno") as [errno |]; [| reflexivity].
    destruct (is_int 0 errno); [| reflexivity].
    destruct (jor _ _); try reflexivity.
    destruct (map_outcome direct_entry items) as [files |]; [| reflexivity].
    now destruct (negb _).
  - destruct info; cbn [prop]; try reflexivity; rewrite E0; reflexivity.
Qed.

Lemma tryDirectApi_world (url : str) (net : Net) (w : World) :
  exists evs,
    snd (tryDirectApi url net w) = mkWorld (trace w ++ evs) (clock w) /\
    forallb is_get evs = true /\ (length evs <= 2)%nat.
Proof.
  pose proof (tryDirectApi_run url net w) as H.
  destruct (extractSurl url) as [sv | e].
  - cbv zeta in H.
    destruct (net _ _ _) as [e | info].
    + rewrite H. eexists [_]. repeat split. cbn; lia.
    + destruct (is_int 0 _).
      * rewrite H. unfold requested. cbn [trace clock].
        rewrite <- app_assoc. eexists [_; _]. repeat split. cbn; lia.
      * rewrite H. eexists [_]. repeat split. cbn; lia.
  - rewrite H. exists []. rewrite app_nil_r. destruct w. repeat split. cbn; lia.
Qed.

(** X13.  [tryDirectApi] asks the vendor at most twice.  On a link with no
    share identifier it raises without any request.  Otherwise it requests
    the share information from the resolved base; when that request fails,
    or answers with a status that is not zero, it raises (with the vendor's
    message, or else the status, after "Share info error: ") and the file
    list is never requested; only after a zero status does it request the
    file list, with the same headers. *)
Theorem tryDirectApi_requests (url : str) (net : Net) (w : World) :
  match extractSurl url with
  | Throw e => tryDirectApi url net w = (Throw e, w)
  | Ret sv =>
      let surl := toString sv in
      let baseUrl := getBaseUrl url in
      let headers := direct_headers baseUrl surl in
      let w1 := requested (shorturlinfo_url baseUrl surl) headers w in
      let w2 := requested (share_list_url baseUrl surl) headers w1 in
      match net (trace w) (shorturlinfo_url baseUrl surl) headers with
      | NetFail e => tryDirectApi url net w = (Throw e, w1)
      | NetOk info =>
          if is_int 0 (field info "errno")
          then snd (tryDirectApi url net w) = w2
          else tryDirectApi url net w = (Throw (share_info_error info), w1)
      end
  end /\
  exists evs,
    snd (tryDirectApi url net w) = mkWorld (trace w ++ evs) (clock w) /\
    forallb is_get evs = true /\ (length evs <= 2)%nat.
Proof. split; [apply tryDirectApi_run | apply tryDirectApi_world]. Qed.

Lemma map_outcome_Forall {A B} (f : A -> Outcome B) (P : B -> Prop)
    (items : list A) (ys : list B) :
  (forall x y, f x = Ret y -> P y) ->
  map_outcome f items = Ret ys -> Forall P ys /\ length ys = length items.
Proof.
  intros Hf. revert ys. induction items as [| x items IH]; intros ys H.
  - injection H as <-. now split.
  - cbn [map_outcome] in H. destruct (f x) as [y | e] eqn:Ex; [| discriminate].
    destruct (map_outcome f items) as [ys' | e]; [| discriminate].
    injection H as <-. destruct (IH ys' eq_refl) as [HF HL].
    split; [constructor; eauto | cbn [length]; now rewrite HL].
Qed.

(** What [tryDirectApi] returns: the mapped listing, which is not empty. *)
Lemma tryDirectApi_files (url : str) (net : Net) (w w' : World) (r : JsVal) :
  tryDirectApi url net w = (Ret r, w') ->
  exists items file files,
    map_outcome direct_entry items = Ret (file :: files) /\
    field (field r "data") "files" = JArr (file :: files).
Proof.
  unfold tryDirectApi, bind, lift, guard, ret, throw. cbv zeta.
  repeat match goal with
         | |- context [match extractSurl ?x with _ => _ end] =>
             destruct (extractSurl x)
         | |- context [match ?n ?t ?x ?h with NetFail _ => _ | NetOk _ => _ end] =>
             destruct (n t x h)
         | |- context [match prop ?v ?n with _ => _ end] => destruct (prop v n)
         | |- context [if is_int 0 ?x then _ else _] => destruct (is_int 0 x)
         | |- context [match jor ?a ?b with _ => _ end] => destruct (jor a b)
         | |- context [match map_outcome ?f ?l with _ => _ end] =>
             destruct (map_outcome f l) as [[| file files] | ?] eqn:Emap
         | |- _ => rewrite !client_get_direct
         end; cbn [Nat.eqb length negb fst snd]; intros H; try discriminate H.
  injection H as <- _. now exists items, file, files.
Qed.

Lemma direct_entry_file (f y : JsVal) : direct_entry f = Ret y -> direct_file y.
Proof.
  unfold direct_entry. destruct (prop f "fs_id"); [| discriminate].
  intros [= <-]. unfold direct_file, size_consistent.
  cbn [field obj map lookup str_eqb chr_eqb Ascii.eqb Bool.eqb lit
       list_ascii_of_string fst snd andb].
  repeat split; eauto using null_or_defined.
Qed.

(** X14.  A result of [tryDirectApi] lists at least one file; every file has
    a string identifier, a boolean directory flag, a download link and a
    thumbnail that are defined (null when absent), and the formatted size
    of its size; the source is direct.  The share information is copied
    from what the vendor answered to the request for it, whose status was
    zero, and the files are the entries of the list the vendor answered to
    the second request, whose status was zero as well. *)
Theorem tryDirectApi_listing (url : str) (net : Net) (w w' : World)
    (r : JsVal) :
  tryDirectApi url net w = (Ret r, w') ->
  exists file files,
    field (field r "data") "files" = JArr (file :: files) /\
    Forall direct_file (file :: files) /\
    field r "source" = JStr "direct" /\
    exists sv info listing items,
      let surl := toString sv in
      let baseUrl := getBaseUrl url in
      let headers := direct_headers baseUrl surl in
      let w1 := requested (shorturlinfo_url baseUrl surl) headers w in
      extractSurl url = Ret sv /\
      net (trace w) (shorturlinfo_url baseUrl surl) headers = NetOk info /\
      is_int 0 (field info "errno") = true /\
      field (field r "data") "shareInfo" =
      obj [("shareid", field info "shareid"); ("uk", field info "uk");
           ("sign", field info "sign"); ("timestamp", field info "timestamp")] /\
      net (trace w1) (share_list_url baseUrl surl) headers = NetOk listing /\
      is_int 0 (field listing "errno") = true /\
      jor (field listing "list") (JArr []) = JArr items /\
      map_outcome direct_entry items = Ret (file :: files).
Proof.
  intros H.
  destruct (tryDirectApi_files _ _ _ _ _ H) as (items & file & files & Hm & Hf).
  exists file, files. split; [exact Hf |].
  split; [apply (map_outcome_Forall _ _ _ _ direct_entry_file Hm) |].
  clear items Hm.
  revert H Hf. unfold tryDirectApi, bind, lift, guard, ret, throw. cbv zeta.
  destruct (extractSurl url) as [sv | e]; [| discriminate].
  rewrite client_get_direct.
  destruct (net _ _ _) as [e | info] eqn:En1; [discriminate |].
  destruct (prop info "errno") as [errno |] eqn:Ep; [| discriminate].
  destruct (is_int 0 errno) eqn:E0; [| discriminate].
  rewrite client_get_direct.
  match goal with
  | |- context [net ?t ?u ?h] =>
      destruct (net t u h) as [e | listing] eqn:En2; [discriminate |]
  end.
  destruct (prop listing "errno") as [errno' |] eqn:Ep'; [| discriminate].
  destruct (is_int 0 errno') eqn:E0'; [| discriminate].
  destruct (jor _ _) eqn:Ej; try discriminate.
  destruct (map_outcome direct_entry items) as [fs |] eqn:Em; [| discriminate].
  destruct (negb _); [| discriminate].
  intros [= <- _] Hf. split; [reflexivity |].
  assert (Hfs : fs = file :: files).
  { cbn [field obj map lookup str_eqb chr_eqb Ascii.eqb Bool.eqb lit
         list_ascii_of_string fst snd andb] in Hf. now injection Hf. }
  exists sv, info, listing, items. cbv zeta.
  split; [reflexivity |]. split; [exact En1 |].
  split; [destruct info; cbn [prop] in Ep; try discriminate Ep;
          now injection Ep as <- |].
  split; [reflexivity |]. split; [exact En2 |].
  split; [destruct listing; cbn [prop] in Ep'; try discriminate Ep';
          now injection Ep' as <- |].
  split; [exact Ej |]. now rewrite <- Hfs.
Qed.

Lemma tryDirectApi_listing_witness :
  exists r w',
    tryDirectApi "https://teraboxapp.com/s/1abc" one_folder (mkWorld [] [])
    = (Ret r, w') /\
    exists file files,
      field (field r "data") "files" = JArr (file :: files) /\
      Forall direct_file (file :: files) /\
      field r "source" = JStr "direct" /\
      exists sv info listing items,
        let surl := toString sv in
        let baseUrl := getBaseUrl "https://teraboxapp.com/s/1abc" in
        let headers := direct_headers baseUrl surl in
        let w1 :=
          requested (shorturlinfo_url baseUrl surl) headers (mkWorld [] []) in
        extractSurl "https://teraboxapp.com/s/1abc" = Ret sv /\
        one_folder [] (shorturlinfo_url baseUrl surl) headers = NetOk info /\
        is_int 0 (field info "errno") = true /\
        field (field r "data") "shareInfo" =
        obj [("shareid", field info "shareid"); ("uk", field info "uk");
             ("sign", field info "sign");
             ("timestamp", field info "timestamp")] /\
        one_folder (trace w1) (share_list_url baseUrl surl) headers
        = NetOk listing /\
        is_int 0 (field listing "errno") = true /\
        jor (field listing "list") (JArr []) = JArr items /\
        map_outcome direct_entry items = Ret (file :: files).
Proof.
  do 2 eexists. split; [vm_compute; reflexivity |].
  eapply (tryDirectApi_listing "https://teraboxapp.com/s/1abc" one_folder
            (mkWorld [] [])).
  vm_compute. reflexivity.
Defined.

(** ** Invariants of the chain *)

Lemma flagged_ret (o : Outcome JsVal) (r : JsVal) :
  flagged o = Some r -> o = Ret r.
Proof.
  destruct o as [r' | e]; cbn [flagged]; [| discriminate].
  destruct (prop r' "success") as [s | e]; [| discriminate].
  destruct (truthy s); [| discriminate]. now intros [= ->].
Qed.

(** What the chain returns is what one of its strategies returned, or the
    failure payload. *)
Lemma chain_result (s1 s2 s3 s4 : str -> M JsVal) (url : str) (net : Net)
    (w w' : World) (r : JsVal) :
  getTeraboxData s1 s2 s3 s4 url net w = (Ret r, w') ->
  (exists w1, s1 url net w1 = (Ret r, w')) \/
  (exists w1, s2 url net w1 = (Ret r, w')) \/
  (exists w1, s3 url net w1 = (Ret r, w')) \/
  (exists w1, s4 url net w1 = (Ret r, w')) \/
  (exists errors, r = failure_payload errors).
Proof.
  rewrite chain_run. cbv zeta.
  set (o1 := s1 url net _). set (o2 := s2 url net _).
  set (o3 := s3 url net _). set (o4 := s4 url net _).
  assert (Hret : forall (o : Outcome JsVal * World) r0,
            flagged (fst o) = Some r0 -> o = (Ret r0, snd o)).
  { intros [o wo] r0 E. apply flagged_ret in E. cbn [fst snd] in *. now subst. }
  destruct (flagged (fst o1)) as [r1 |] eqn:E1.
  { intros [= <- <-]. left. eexists. now apply Hret. }
  destruct (flagged (fst o2)) as [r2 |] eqn:E2.
  { intros [= <- <-]. right; left. eexists. now apply Hret. }
  destruct (flagged (fst o3)) as [r3 |] eqn:E3.
  { intros [= <- <-]. do 2 right; left. eexists. now apply Hret. }
  destruct (flagged (fst o4)) as [r4 |] eqn:E4.
  { intros [= <- <-]. do 3 right; left. eexists. now apply Hret. }
  intros [= <- _]. do 4 right. eauto.
Qed.

Lemma direct_entry_consistent (f y : JsVal) :
  direct_entry f = Ret y -> size_consistent y.
Proof.
  unfold direct_entry. destruct (prop f "fs_id"); [| discriminate].
  now intros [= <-].
Qed.

Lemma scrape_entry_consistent (f y : JsVal) :
  scrape_entry f = Ret y -> size_consistent y.
Proof.
  unfold scrape_entry. destruct (prop f "fs_id"); [| discriminate].
  now intros [= <-].
Qed.

Lemma tryNepCoderApi_consistent (url : str) (net : Net) (w w' : World)
    (r : JsVal) :
  tryNepCoderApi url net w = (Ret r, w') -> payload_consistent r.
Proof.
  unfold tryNepCoderApi, bind, client_get, guard, ret, throw.
  destruct (net _ _ _) as [e | data]; [discriminate |].
  destruct (truthy data); [| discriminate].
  destruct (truthy (jor _ _)); [| discriminate].
  intros [= <- _]. unfold payload_consistent, size_consistent.
  cbn [field obj map lookup str_eqb chr_eqb Ascii.eqb Bool.eqb lit
       list_ascii_of_string fst snd andb].
  now rewrite formatSize_jor_zero.
Qed.

Lemma tryUdayApi_consistent (url : str) (net : Net) (w w' : World)
    (r : JsVal) :
  tryUdayApi url net w = (Ret r, w') -> payload_consistent r.
Proof.
  unfold tryUdayApi, bind, client_get, guard, ret, throw.
  destruct (net _ _ _) as [e | data]; [discriminate |].
  destruct (truthy data); [| discriminate].
  destruct (truthy (jor _ _)); [| discriminate].
  intros [= <- _]. unfold payload_consistent, size_consistent.
  cbn [field obj map lookup str_eqb chr_eqb Ascii.eqb Bool.eqb lit
       list_ascii_of_string fst snd andb].
  now rewrite formatSize_jor_zero.
Qed.

Lemma tryDirectApi_consistent (url : str) (net : Net) (w w' : World)
    (r : JsVal) :
  tryDirectApi url net w = (Ret r, w') -> payload_consistent r.
Proof.
  intros H. apply tryDirectApi_files in H as (items & file & files & Hm & Hf).
  unfold payload_consistent. rewrite Hf.
  apply (map_outcome_Forall _ _ _ _ direct_entry_consistent Hm).
Qed.

(** What [scrape_html] returns: a mapped listing that is not empty, or the
    single-file extraction. *)
Lemma scrape_html_result (html : str) (r : JsVal) :
  scrape_html html = Ret r ->
  (exists items file files,
     map_outcome scrape_entry items = Ret (file :: files) /\
     r = obj [("success", JBool true);
              ("data", obj [("files", JArr (file :: files))]);
              ("source", JStr "scrape")]) \/
  scrape_single html = Ret r.
Proof.
  unfold scrape_html.
  destruct (includes html "verify" || includes html "验证"); [discriminate |].
  destruct (search re_list html) as [cap |]; [| now right].
  unfold scrape_list.
  destruct (JSON_parse _) as [[] |]; try discriminate.
  destruct (map_outcome scrape_entry items) as [[| file files] | e] eqn:Em;
    cbn [length Nat.ltb Nat.leb]; try discriminate.
  - now right.
  - intros [= <-]. left. now exists items, file, files.
Qed.

Lemma tryPageScrape_result (url : str) (net : Net) (w w' : World) (r : JsVal) :
  tryPageScrape url net w = (Ret r, w') ->
  exists html, scrape_html html = Ret r.
Proof.
  unfold tryPageScrape, bind, client_get, lift, throw.
  destruct (net _ _ _) as [e | data]; [discriminate |].
  destruct data; try discriminate.
  - intros [= H _]. now exists s.
  - destruct (_ || _); discriminate.
Qed.

Lemma tryPageScrape_consistent (url : str) (net : Net) (w w' : World)
    (r : JsVal) :
  tryPageScrape url net w = (Ret r, w') -> payload_consistent r.
Proof.
  intros H. apply tryPageScrape_result in H as (html & H).
  apply scrape_html_result in H as [(items & file & files & Hm & ->) | H].
  - unfold payload_consistent.
    change (field (field (obj _) "data") "files") with (JArr (file :: files)).
    apply (map_outcome_Forall _ _ _ _ scrape_entry_consistent Hm).
  - apply scrape_single_fields in H as (file & n & Hf & Hs & Hsf).
    unfold payload_consistent. rewrite Hf. constructor; [| constructor].
    unfold size_consistent. now rewrite Hsf, Hs.
Qed.

(** X15.  In every successful result of the chain, whichever strategy
    produced it, the formatted size of a record is [formatSize] of the size
    in the same record: for each file of a listing, or for the single-file
    record, defaults included. *)
Theorem sizeFormatted_consistent (url : str) (net : Net) (w w' : World)
    (r : JsVal) :
  getTeraboxData_app url net w = (Ret r, w') ->
  field r "success" = JBool true ->
  payload_consistent r.
Proof.
  intros H Hs. apply chain_result in H
    as [(w1 & H) | [(w1 & H) | [(w1 & H) | [(w1 & H) | (errors & ->)]]]].
  - now apply tryNepCoderApi_consistent in H.
  - now apply tryUdayApi_consistent in H.
  - now apply tryDirectApi_consistent in H.
  - now apply tryPageScrape_consistent in H.
  - discriminate Hs.
Qed.

Lemma sizeFormatted_consistent_witness :
  exists r w',
    getTeraboxData_app "https://terabox.com/s/1abc" one_file (mkWorld [] [])
    = (Ret r, w') /\
    field (field r "data") "size" = JStr "1536" /\
    field (field r "data") "sizeFormatted" = JStr "1.50 KB" /\
    payload_consistent r.
Proof.
  do 2 eexists. split; [vm_compute; reflexivity |].
  split; [reflexivity |]. split; [reflexivity |].
  eapply (sizeFormatted_consistent "https://terabox.com/s/1abc" one_file
            (mkWorld [] [])); vm_compute; reflexivity.
Defined.

(** X16.  Nothing the chain returns carries an empty list of files: no
    strategy of the four-strategy variant reports success with zero
    files. *)
Theorem success_has_files (url : str) (net : Net) (w w' : World) (r : JsVal) :
  getTeraboxData_app url net w = (Ret r, w') ->
  field (field r "data") "files" <> JArr [].
Proof.
  intros H. apply chain_result in H
    as [(w1 & H) | [(w1 & H) | [(w1 & H) | [(w1 & H) | (errors & ->)]]]].
  - revert H. unfold tryNepCoderApi, bind, client_get, guard, ret, throw.
    destruct (net _ _ _) as [e | data]; [discriminate |].
    destruct (truthy data); [| discriminate].
    destruct (truthy (jor _ _)); [| discriminate].
    intros [= <- _]. discriminate.
  - revert H. unfold tryUdayApi, bind, client_get, guard, ret, throw.
    destruct (net _ _ _) as [e | data]; [discriminate |].
    destruct (truthy data); [| discriminate].
    destruct (truthy (jor _ _)); [| discriminate].
    intros [= <- _]. discriminate.
  - apply tryDirectApi_files in H as (items & file & files & _ & ->). discriminate.
  - apply tryPageScrape_result in H as (html & H).
    apply scrape_html_result in H as [(items & file & files & _ & ->) | H].
    + discriminate.
    + apply scrape_single_fields in H as (file & n & -> & _).
      discriminate.
  - discriminate.
Qed.

Lemma success_has_files_witness :
  exists r w',
    getTeraboxData_app "https://terabox.com/s/1abc" empty_share (mkWorld [] [])
    = (Ret r, w') /\
    field r "success" = JBool false /\
    field (field r "data") "files" <> JArr [].
Proof.
  do 2 eexists. split; [vm_compute; reflexivity |]. split; [reflexivity |].
  eapply (success_has_files "https://terabox.com/s/1abc" empty_share
            (mkWorld [] [])). vm_compute. reflexivity.
Defined.

Lemma tryPageScrape_world (url : str) (net : Net) (w : World) :
  snd (tryPageScrape url net w) = requested url scrape_headers w.
Proof.
  unfold tryPageScrape, bind, client_get, lift, throw.
  change (filter _ client_defaults ++ _) with scrape_headers.
  destruct (net _ _ _) as [e | data]; [reflexivity |].
  destruct data; try reflexivity. now destruct (_ || _).
Qed.

Lemma getTeraboxData_app_world (url : str) (net : Net) (w : World) :
  exists evs,
    snd (getTeraboxData_app url net w) = mkWorld (trace w ++ evs) (clock w) /\
    existsb is_error evs = false /\
    (1 <= outbound evs <= 5)%nat /\
    hd_error evs = Some (ELog "Trying API 1...").
Proof.
  unfold getTeraboxData_app. rewrite chain_run. cbv zeta.
  set (o1 := tryNepCoderApi url net _).
  set (o2 := tryUdayApi url net _).
  set (o3 := tryDirectApi url net _).
  set (o4 := tryPageScrape url net _).
  assert (W1 : snd o1 = mkWorld (trace w ++ [ELog "Trying API 1...";
                 EGet (nepcoder_endpoint ++ encodeURIComponent url) client_defaults])
                 (clock w)).
  { unfold o1. rewrite tryNepCoderApi_world. unfold requested, logged.
    cbn [trace clock]. now rewrite <- app_assoc. }
  assert (W2 : snd o2 = mkWorld (trace w ++ [ELog "Trying API 1...";
                 EGet (nepcoder_endpoint ++ encodeURIComponent url) client_defaults;
                 ELog "Trying API 2...";
                 EGet (uday_endpoint ++ encodeURIComponent url) client_defaults])
                 (clock w)).
  { unfold o2. rewrite tryUdayApi_world, W1. unfold requested, logged.
    cbn [trace clock]. now rewrite <- !app_assoc. }
  destruct (tryDirectApi_world url net (logged "Trying Direct API..." (snd o2)))
    as (evs3 & W3 & G3 & L3).
  fold o3 in W3. rewrite W2 in W3. unfold logged in W3. cbn [trace clock] in W3.
  rewrite <- !app_assoc in W3. cbn [app] in W3.
  assert (W4 : snd o4 = mkWorld (trace w ++ [ELog "Trying API 1...";
                 EGet (nepcoder_endpoint ++ encodeURIComponent url) client_defaults;
                 ELog "Trying API 2...";
                 EGet (uday_endpoint ++ encodeURIComponent url) client_defaults;
                 ELog "Trying Direct API..."] ++ evs3
                 ++ [ELog "Trying Scrape..."; EGet url scrape_headers])
                 (clock w)).
  { unfold o4. rewrite tryPageScrape_world, W3. unfold requested, logged.
    cbn [trace clock]. rewrite <- !app_assoc. cbn [app].
    reflexivity. }
  assert (HG : forall evs, forallb is_get evs = true ->
            existsb is_error evs = false /\ outbound evs = length evs).
  { induction evs as [| e evs IH]; [now split |].
    cbn [forallb]. intros H. apply andb_prop in H as [He Hs].
    destruct (IH Hs) as [I1 I2]. unfold outbound in *.
    destruct e; try discriminate He. cbn. now rewrite I1, I2. }
  destruct (HG evs3 G3) as [E3 O3].
  assert (Hfinal : exists evs,
            snd o4 = mkWorld (trace w ++ evs) (clock w) /\
            existsb is_error evs = false /\
            (1 <= outbound evs <= 5)%nat /\
            hd_error evs = Some (ELog "Trying API 1...")).
  { eexists. split; [exact W4 |].
    cbn [app]. unfold outbound.
    cbn [existsb is_error orb filter is_get length hd_error].
    rewrite existsb_app, E3, filter_app, length_app.
    fold (outbound evs3). rewrite O3. cbn. repeat split; lia. }
  destruct (flagged (fst o1)); [eexists; split; [exact W1 | cbn; repeat split; lia] |].
  destruct (flagged (fst o2)); [eexists; split; [exact W2 | cbn; repeat split; lia] |].
  destruct (flagged (fst o3)).
  { eexists. split; [exact W3 |]. unfold outbound.
    cbn [existsb is_error orb filter is_get length hd_error].
    fold (outbound evs3). rewrite E3, O3. repeat split; lia. }
  destruct (flagged (fst o4)); exact Hfinal.
Qed.

(** X17.  A run of the chain only adds to the trace and leaves the clock
    alone; it starts with the console line of the first attempt, writes
    nothing to the error console, and issues at least one and at most five
    outbound requests. *)
Theorem chain_requests (url : str) (net : Net) (w : World) :
  exists evs,
    snd (getTeraboxData_app url net w) = mkWorld (trace w ++ evs) (clock w) /\
    existsb is_error evs = false /\
    (1 <= outbound evs <= 5)%nat /\
    hd_error evs = Some (ELog "Trying API 1...").
Proof. apply getTeraboxData_app_world. Qed.

(** X18.  A page that contains the verification marker makes the page
    scrape raise "Verification required" after its one request, whatever
    else the page holds; and when the three strategies before it have
    failed, the chain ends with the failure payload whose last detail is
    "Scrape: Verification required". *)
Theorem verification_required (s1 s2 s3 : str -> M JsVal) (url html : str)
    (net : Net) (w0 : World) :
  let o1 := s1 url net (logged "Trying API 1..." w0) in
  let o2 := s2 url net (logged "Trying API 2..." (snd o1)) in
  let o3 := s3 url net (logged "Trying Direct API..." (snd o2)) in
  let w4 := logged "Trying Scrape..." (snd o3) in
  net (trace w4) url scrape_headers = NetOk (JStr html) ->
  includes html "verify" = true \/ includes html "验证" = true ->
  tryPageScrape url net w4 =
    (Throw "Verification required", requested url scrape_headers w4) /\
  (flagged (fst o1) = None -> flagged (fst o2) = None ->
   flagged (fst o3) = None ->
   getTeraboxData s1 s2 s3 tryPageScrape url net w0 =
   (Ret (failure_payload
           (entries "API1: " (fst o1) ++ entries "API2: " (fst o2) ++
            entries "Direct: " (fst o3) ++
            ["Scrape: Verification required" : str])),
    requested url scrape_headers w4)).
Proof.
  intros o1 o2 o3 w4 Hnet Hmark.
  assert (Hs : tryPageScrape url net w4 =
               (Throw "Verification required", requested url scrape_headers w4)).
  { unfold tryPageScrape, bind, client_get, lift.
    change (filter _ client_defaults ++ _) with scrape_headers.
    rewrite Hnet. unfold scrape_html.
    destruct Hmark as [-> | ->]; [reflexivity | now rewrite orb_true_r]. }
  split; [exact Hs |].
  intros F1 F2 F3. rewrite chain_run. cbv zeta.
  fold o1 o2 o3 w4. rewrite F1, F2, F3, Hs. reflexivity.
Qed.

Lemma verification_required_witness :
  getTeraboxData (mock "one" (Throw "down")) (mock "two" (Throw "down"))
    (mock "three" (Throw "down")) tryPageScrape
    "https://terabox.com/s/1abc" challenge (mkWorld [] [])
  = (Ret (failure_payload
            ["API1: down" : str; "API2: down" : str; "Direct: down" : str;
             "Scrape: Verification required" : str]),
     mkWorld [ELog "Trying API 1..."; ELog "called one";
              ELog "Trying API 2..."; ELog "called two";
              ELog "Trying Direct API..."; ELog "called three";
              ELog "Trying Scrape...";
              EGet "https://terabox.com/s/1abc" scrape_headers] []).
Proof.
  exact (proj2 (verification_required
                  (mock "one" (Throw "down")) (mock "two" (Throw "down"))
                  (mock "three" (Throw "down"))
                  "https://terabox.com/s/1abc"
                  "<title>Please verify you are human</title>"
                  challenge (mkWorld [] []) eq_refl (or_introl eq_refl))
           eq_refl eq_refl eq_refl).
Defined.

(** ** Further properties of the HTTP facade *)

Lemma tick_trace (w : World) : trace (snd (tick w)) = trace w.
Proof. unfold tick. now destruct (clock w). Qed.

(** Reading the clock takes its first reading, or 0 from a clock that has
    run out. *)
Lemma tick_spec (w : World) :
  tick w = (hd 0 (clock w), mkWorld (trace w) (tl (clock w))).
Proof. unfold tick. destruct w as [tr [| t rest]]; reflexivity. Qed.

(** X19.  With the chain of the application, a [GET /api/get] that carries
    one [url] is answered with status 200, the CORS headers and, as the
    body, the result the chain returns when run after the Processing line
    and the first reading of the clock; the handler's [catch] is never
    entered.  The console shows the Processing line, the events of the
    chain and the Done line with the difference of the two readings of the
    clock, and no error line; the two readings are used up. *)
Theorem api_get_app_log (req : Req) (net : Net) (w : World) (url : str) :
  query_param "url" (query req) = JStr url -> url <> [] ->
  let processing := ELog ("📥 Processing: " ++ url) in
  let elapsed := hd 0 (tl (clock w)) - hd 0 (clock w) in
  let done := ELog ("✅ Done in " ++ toString (JInt elapsed) ++ "ms") in
  exists r evs,
    getTeraboxData_app url net
      (mkWorld (trace w ++ [processing]) (tl (clock w))) =
    (Ret r, mkWorld (trace w ++ [processing] ++ evs) (tl (clock w))) /\
    GET_api_get getTeraboxData_app req net w =
    (Ret (mkRes 200 (headers (cors fresh_res)) (Some r)),
     mkWorld (trace w ++ [processing] ++ evs ++ [done]) (tl (tl (clock w)))) /\
    (exists b, field r "success" = JBool b) /\
    existsb is_error evs = false /\
    (1 <= outbound evs <= 5)%nat.
Proof.
  intros Hq Hne processing elapsed done.
  assert (Hu : truthy (query_param "url" (query req)) = true)
    by (rewrite Hq; destruct url; [congruence | reflexivity]).
  unfold GET_api_get. rewrite api_get_run by exact Hu.
  rewrite Hq. cbn [toString]. cbv zeta.
  rewrite tick_spec. unfold logged at 1 2. cbn [trace clock].
  fold processing.
  set (w1 := mkWorld (trace w ++ [processing]) (tl (clock w))).
  destruct (getTeraboxData_app_total url net w1) as (r & w2 & b & Hr & Hb).
  destruct (getTeraboxData_app_world url net w1) as (evs & Hw & He & Ho & _).
  rewrite Hr in Hw. cbn [snd] in Hw. subst w2.
  unfold w1 in Hr at 2. cbn [trace clock] in Hr.
  rewrite <- app_assoc in Hr.
  exists r, evs. split; [exact Hr |].
  split; [| split; [now exists b | now split]].
  rewrite Hr. rewrite tick_spec. cbn [trace clock].
  unfold logged. cbn [trace clock]. fold elapsed. fold done.
  now rewrite <- !app_assoc.
Qed.

Lemma api_get_app_log_witness :
  exists r evs,
    getTeraboxData_app "https://terabox.com/s/1abc" one_file
      (mkWorld ([] ++ [ELog ("📥 Processing: " ++ "https://terabox.com/s/1abc")])
         [1750]) =
    (Ret r,
     mkWorld ([] ++ [ELog ("📥 Processing: " ++ "https://terabox.com/s/1abc")]
              ++ evs) [1750]) /\
    GET_api_get getTeraboxData_app
      (mkReq [("url" : str, JStr "https://terabox.com/s/1abc")])
      one_file (mkWorld [] [1000; 1750]) =
    (Ret (mkRes 200 (headers (cors fresh_res)) (Some r)),
     mkWorld ([] ++ [ELog ("📥 Processing: " ++ "https://terabox.com/s/1abc")]
              ++ evs ++ [ELog "✅ Done in 750ms"]) []) /\
    (exists b, field r "success" = JBool b) /\
    existsb is_error evs = false /\
    (1 <= outbound evs <= 5)%nat.
Proof.
  exact (api_get_app_log
           (mkReq [("url" : str, JStr "https://terabox.com/s/1abc")])
           one_file (mkWorld [] [1000; 1750]) "https://terabox.com/s/1abc"
           eq_refl ltac:(discriminate)).
Defined.

(** X20.  Every answer of [/api/get], in both variants and whatever the
    orchestrator does (return or raise), carries the two CORS headers and
    a JSON body. *)
Theorem api_get_headers (orchestrator : str -> M JsVal) (req : Req)
    (net : Net) (w : World) :
  (exists res w' body,
     GET_api_get orchestrator req net w = (Ret res, w') /\
     In ("Access-Control-Allow-Origin" : str, "*" : str) (headers res) /\
     In ("Access-Control-Allow-Headers" : str, "Content-Type" : str)
        (headers res) /\
     sent res = Some body) /\
  (exists res w' body,
     V1.GET_api_get orchestrator req net w = (Ret res, w') /\
     In ("Access-Control-Allow-Origin" : str, "*" : str) (headers res) /\
     In ("Access-Control-Allow-Headers" : str, "Content-Type" : str)
        (headers res) /\
     sent res = Some body).
Proof.
  assert (H1 : In ("Access-Control-Allow-Origin" : str, "*" : str)
                  (headers (cors fresh_res))) by (left; reflexivity).
  assert (H2 : In ("Access-Control-Allow-Headers" : str, "Content-Type" : str)
                  (headers (cors fresh_res))) by (right; left; reflexivity).
  split.
  - unfold GET_api_get.
    destruct (truthy (query_param "url" (query req))) eqn:Hu.
    + rewrite api_get_run by exact Hu. cbv zeta.
      destruct (tick _) as [t0 w1].
      destruct (orchestrator _ net w1) as [[r | e] w2].
      * destruct (tick w2) as [t1 w3]. do 3 eexists.
        split; [reflexivity |]. split; [exact H1 |]. split; [exact H2 |].
        reflexivity.
      * do 3 eexists.
        split; [reflexivity |]. split; [exact H1 |]. split; [exact H2 |].
        reflexivity.
    + unfold api_get. rewrite Hu. do 3 eexists.
      split; [reflexivity |]. split; [exact H1 |]. split; [exact H2 |].
      reflexivity.
  - unfold V1.GET_api_get.
    destruct (truthy (query_param "url" (query req))) eqn:Hu.
    + rewrite V1_api_get_run by exact Hu. cbv zeta.
      destruct (orchestrator _ net _) as [[r | e] w2]; do 3 eexists;
        (split; [reflexivity |]); (split; [exact H1 |]);
        (split; [exact H2 | reflexivity]).
    + unfold V1.api_get. rewrite Hu. do 3 eexists.
      split; [reflexivity |]. split; [exact H1 |]. split; [exact H2 |].
      reflexivity.
Qed.

(** X21.  The alias [/api/list] never runs a lookup.  When [req.query.url]
    is falsy (the query string does not name [url], or gives it an empty
    value) it answers with status 200 and the error "URL required".
    Otherwise it redirects (302) to [/api/get?url=] followed by the escaped
    string form of the parameter: the value itself when it is a string,
    and the values joined by commas when [url] was named several times.
    The escaped text holds unreserved characters and percent signs only
    and decodes back to that string form; no JSON body is sent.  The world
    is left as it was. *)
Theorem api_list_redirects (req : Req) (net : Net) (w : World) :
  let url := query_param "url" (query req) in
  let q := encodeURIComponent (toString url) in
  (truthy url = false ->
   GET_api_list req net w =
   (Ret (mkRes 200 (headers (cors fresh_res))
           (Some (obj [("success", JBool false);
                       ("error", JStr "URL required")]))), w)) /\
  (truthy url = true ->
   GET_api_list req net w =
   (Ret (mkRes 302
           (headers (cors fresh_res)
            ++ [("Location" : str, "/api/get?url=" ++ q)]) None), w) /\
   forallb component_char q = true /\
   percent_decode q = toString url) /\
  (url = JUndefined \/ url = JStr "" -> truthy url = false) /\
  (forall link, url = JStr link -> link <> [] ->
     truthy url = true /\ toString url = link) /\
  (forall values, url = JArr (map JStr values) ->
     truthy url = true /\ toString url = join "," values).
Proof.
  intros url q.
  split; [| split; [| split; [| split]]].
  - intros H. unfold GET_api_list, api_list. fold url. now rewrite H.
  - intros H.
    split; [| split; [apply encodeURIComponent_chars
                     | apply percent_decode_encode]].
    unfold GET_api_list, api_list. fold url. now rewrite H.
  - intros [-> | ->]; reflexivity.
  - intros link -> Hne. split; [| reflexivity].
    destruct link; [congruence | reflexivity].
  - intros values ->. split; [reflexivity |].
    cbn [toString]. f_equal. rewrite map_map.
    rewrite <- (map_id values) at 2.
    apply map_ext. intros a. reflexivity.
Qed.

Lemma api_list_redirects_witness :
  GET_api_list (mkReq [("url" : str, JStr "")])
    (fun _ _ _ => NetFail "offline") (mkWorld [] [])
  = (Ret (mkRes 200 (headers (cors fresh_res))
            (Some (obj [("success", JBool false);
                        ("error", JStr "URL required")]))), mkWorld [] []) /\
  GET_api_list (mkReq [("url" : str, JStr "https://terabox.com/s/1abc")])
    (fun _ _ _ => NetFail "offline") (mkWorld [] [])
  = (Ret (mkRes 302
            (headers (cors fresh_res)
             ++ [("Location" : str,
                  "/api/get?url=https%3A%2F%2Fterabox.com%2Fs%2F1abc" : str)])
            None), mkWorld [] []) /\
  GET_api_list (mkReq [("url" : str, JArr [JStr "a"; JStr "b"])])
    (fun _ _ _ => NetFail "offline") (mkWorld [] [])
  = (Ret (mkRes 302
            (headers (cors fresh_res)
             ++ [("Location" : str, "/api/get?url=a%2Cb" : str)])
            None), mkWorld [] []).
Proof.
  split; [| split].
  - apply (proj1 (api_list_redirects (mkReq [("url" : str, JStr "")])
                    (fun _ _ _ => NetFail "offline") (mkWorld [] []))).
    reflexivity.
  - apply (proj1 (proj2 (api_list_redirects
                    (mkReq [("url" : str, JStr "https://terabox.com/s/1abc")])
                    (fun _ _ _ => NetFail "offline") (mkWorld [] [])))).
    reflexivity.
  - apply (proj1 (proj2 (api_list_redirects
                    (mkReq [("url" : str, JArr [JStr "a"; JStr "b"])])
                    (fun _ _ _ => NetFail "offline") (mkWorld [] [])))).
    reflexivity.
Defined.

(** ** Further properties of the five-strategy variant *)

Lemma V1_try_each_first_success_witness :
  V1.try_each
    ([mock "one" (Throw "down");
      mock "two" (Ret (obj [("success", JBool false)]))]
     ++ mock "three" (Ret (ok_result "three"))
     :: [mock "four" (Ret (ok_result "four"))])
    "https://terabox.com/s/1abc" "All methods failed"
    (fun _ _ _ => NetFail "offline") (mkWorld [] [])
  = (Ret (ok_result "three"),
     mkWorld [ELog "called one"; ELog "called two"; ELog "called three"] []).
Proof.
  exact (V1_try_each_first_success
           [mock "one" (Throw "down");
            mock "two" (Ret (obj [("success", JBool false)]))]
           (mock "three" (Ret (ok_result "three")))
           [mock "four" (Ret (ok_result "four"))]
           "https://terabox.com/s/1abc" "All methods failed" "down"
           (fun _ _ _ => NetFail "offline") (mkWorld [] [])
           (mkWorld [ELog "called one"; ELog "called two"] [])
           (ok_result "three") eq_refl eq_refl).
Defined.

(** X23.  In the five-strategy variant only the last error survives.  When
    every strategy of the list raises, the strategies before the last one
    all fail when run one after the other, and the failure payload carries
    the message the last strategy raises in the world they leave, whatever
    the others raised and whatever the initial message was; the world is
    the one the last strategy leaves. *)
Theorem V1_last_error_wins (init : list (str -> M JsVal)) :
  forall (final : str -> M JsVal) (url lastError : str) (net : Net) (w : World),
    Forall (always_raises url net) (init ++ [final]) ->
    exists lastError' w_last e,
      V1_all_fail init url lastError net w = Some (lastError', w_last) /\
      fst (final url net w_last) = Throw e /\
      V1.try_each (init ++ [final]) url lastError net w =
      (Ret (obj [("success", JBool false); ("error", JStr e)]),
       snd (final url net w_last)).
Proof.
  induction init as [| api init IH]; intros final url lastError net w HF.
  - cbn [app] in *. apply Forall_inv in HF.
    destruct (HF w) as (e & He). exists lastError, w, e.
    split; [reflexivity |]. split; [exact He |].
    rewrite V1_try_each_step.
    destruct (final url net w) as [[r | e'] w']; cbn [fst] in He;
      [discriminate He |]. now injection He as ->.
  - change ((api :: init) ++ [final]) with (api :: init ++ [final]) in *.
    pose proof (Forall_inv HF) as Ha. apply Forall_inv_tail in HF.
    rewrite V1_try_each_step. cbn [V1_all_fail]. cbv zeta.
    destruct (Ha w) as (e & He).
    destruct (api url net w) as [[r | e'] w']; cbn [fst] in He;
      [discriminate He |].
    cbn [fst snd V1_flagged].
    apply IH. exact HF.
Qed.

Lemma V1_last_error_wins_witness :
  exists lastError' w_last e,
    V1_all_fail [fun _ => throw "No data from API 1"]
      "https://terabox.com/s/1abc" "All methods failed"
      (fun _ _ _ => NetFail "timeout of 15000ms exceeded") (mkWorld [] [])
    = Some (lastError', w_last) /\
    fst (V1.tryDirectScrape "https://terabox.com/s/1abc"
           (fun _ _ _ => NetFail "timeout of 15000ms exceeded") w_last)
    = Throw e /\
    V1.try_each
      ([fun _ => throw "No data from API 1"] ++ [V1.tryDirectScrape])
      "https://terabox.com/s/1abc" "All methods failed"
      (fun _ _ _ => NetFail "timeout of 15000ms exceeded") (mkWorld [] [])
    = (Ret (obj [("success", JBool false); ("error", JStr e)]),
       snd (V1.tryDirectScrape "https://terabox.com/s/1abc"
              (fun _ _ _ => NetFail "timeout of 15000ms exceeded") w_last)).
Proof.
  apply (V1_last_error_wins [fun _ => throw "No data from API 1"]
           V1.tryDirectScrape).
  repeat constructor; intros w; eexists; reflexivity.
Defined.

(** Every strategy of the five-strategy variant raises or returns a result
    the loop flags. *)
Lemma V1_strategies_flagged (url : str) (net : Net) (w : World) :
  forall api, In api V1.apis ->
    match fst (api url net w) with
    | Ret r => V1_flagged (Ret r) = Some r /\ field r "success" = JBool true
    | Throw _ => True
    end.
Proof.
  intros api [<- | [<- | [<- | [<- | [<- | []]]]]].
  - unfold V1.tryApi1, bind, V1.axios_get, ret, throw.
    destruct (net _ _ _); [exact I |].
    destruct (truthy data && _); [now split | exact I].
  - unfold V1.tryApi2, bind, V1.axios_get, lift, ret, throw.
    destruct (net _ _ _); [exact I |].
    destruct (truthy data && _); [| exact I].
    destruct (V1.formatApiResponse data); [now split | exact I].
  - unfold V1.tryApi3, bind, V1.axios_get, lift, ret, throw.
    destruct (net _ _ _); [exact I |].
    destruct (truthy data && _); [| exact I].
    destruct (V1.formatApiResponse data); [now split | exact I].
  - unfold V1.tryApi4, bind, V1.axios_get, lift, guard, ret, throw. cbv zeta.
    repeat match goal with
           | |- context [match V1.extractSurl ?x with _ => _ end] =>
               destruct (V1.extractSurl x)
           | |- context [match ?n ?t ?x ?h with NetFail _ => _ | NetOk _ => _ end] =>
               destruct (n t x h)
           | |- context [match prop ?v ?n with _ => _ end] => destruct (prop v n)
           | |- context [if is_int 0 ?x then _ else _] => destruct (is_int 0 x)
           | |- context [match jor ?a ?b with _ => _ end] => destruct (jor a b)
           | |- context [match map_outcome ?f ?l with _ => _ end] =>
               destruct (map_outcome f l)
           end; cbn [fst]; try exact I; now split.
  - unfold V1.tryDirectScrape, bind, V1.axios_get, lift, throw.
    destruct (net _ _ _) as [e | data]; [exact I |].
    destruct data; cbn [fst]; try exact I.
    unfold V1.scrape_html.
    destruct (search re_list s); [| exact I].
    destruct (JSON_parse _) as [[] |]; try exact I.
    destruct (map_outcome _ _); [now split | exact I].
Qed.

(** X24.  The chain of the five-strategy variant never raises.  It returns
    a result flagged successful, or, when the first four strategies have
    all failed one after the other,
    the failure payload with the message that [tryDirectScrape], its last
    strategy, raises in the world they leave: the message the loop starts
    with, "All methods failed", is overwritten in every such run. *)
Theorem V1_chain_outcome (url : str) (net : Net) (w : World) :
  exists r w',
    V1.getTeraboxData url net w = (Ret r, w') /\
    (field r "success" = JBool true \/
     exists lastError w4 e,
       V1_all_fail [V1.tryApi1; V1.tryApi2; V1.tryApi3; V1.tryApi4]
         url "All methods failed" net w = Some (lastError, w4) /\
       V1.tryDirectScrape url net w4 = (Throw e, w') /\
       r = obj [("success", JBool false); ("error", JStr e)]).
Proof.
  unfold V1.getTeraboxData, V1.apis. rewrite V1_chain_run. cbv zeta.
  cbn [V1_all_fail]. cbv zeta.
  set (o1 := V1.tryApi1 url net w).
  set (o2 := V1.tryApi2 url net (snd o1)).
  set (o3 := V1.tryApi3 url net (snd o2)).
  set (o4 := V1.tryApi4 url net (snd o3)).
  set (o5 := V1.tryDirectScrape url net (snd o4)).
  destruct (V1_strategies_tagged url net w) as (T1 & _).
  destruct (V1_strategies_tagged url net (snd o1)) as (_ & T2 & _).
  destruct (V1_strategies_tagged url net (snd o2)) as (_ & _ & T3 & _).
  destruct (V1_strategies_tagged url net (snd o3)) as (_ & _ & _ & T4 & _).
  destruct (V1_strategies_tagged url net (snd o4)) as (_ & _ & _ & _ & T5).
  apply V1_well_tagged_flagged in T1, T2, T3, T4, T5.
  fold o1 in T1. fold o2 in T2. fold o3 in T3. fold o4 in T4. fold o5 in T5.
  destruct (V1_flagged (fst o1)) as [r |];
    [exists r, (snd o1); split; [reflexivity | left; apply T1] |].
  destruct (V1_flagged (fst o2)) as [r |];
    [exists r, (snd o2); split; [reflexivity | left; apply T2] |].
  destruct (V1_flagged (fst o3)) as [r |];
    [exists r, (snd o3); split; [reflexivity | left; apply T3] |].
  destruct (V1_flagged (fst o4)) as [r |];
    [exists r, (snd o4); split; [reflexivity | left; apply T4] |].
  destruct (V1_flagged (fst o5)) as [r |];
    [exists r, (snd o5); split; [reflexivity | left; apply T5] |].
  destruct T5 as [e5 E5].
  do 2 eexists. split; [reflexivity |]. right.
  exists (V1_message (fst o4) (V1_message (fst o3) (V1_message (fst o2)
            (V1_message (fst o1) "All methods failed")))), (snd o4), e5.
  split; [reflexivity |].
  split; [fold o5; destruct o5 as [o w5]; cbn [fst snd] in *; now subst |].
  rewrite E5. reflexivity.
Qed.

(** X25.  The payload of [tryApi2] is always normalised: a record with a
    truthy filename, or a listing; [tryApi3] hands on the mirror's answer
    unchanged when it has a download link but neither a filename nor a
    list. *)
Theorem V1_response_shapes (url : str) (net : Net) (w w' : World) (r : JsVal) :
  (V1.tryApi2 url net w = (Ret r, w') ->
   truthy (field (field r "data") "filename") = true \/
   exists files, field r "data" = obj [("files", JArr files)]) /\
  (forall data,
     net (trace w) (nepcoder2_endpoint ++ encodeURIComponent url) [] = NetOk data ->
     truthy (field data "file_name") = false ->
     truthy (field data "list") = false ->
     truthy (field data "download_link") = true ->
     fst (V1.tryApi3 url net w) =
     Ret (obj [("success", JBool true); ("data", data);
               ("source", JStr "api3")])).
Proof.
  split.
  - unfold V1.tryApi2, bind, V1.axios_get, lift, ret, throw.
    destruct (net _ _ _) as [e | data]; [discriminate |].
    destruct (truthy data) eqn:Ed; cbn [andb]; [| discriminate].
    unfold jor, V1.formatApiResponse.
    destruct (truthy (field data "file_name")) eqn:Ef.
    + rewrite Ef. intros [= <- _]. left. exact Ef.
    + destruct (truthy (field data "list")) eqn:El; [| discriminate].
      destruct (field data "list"); try discriminate.
      destruct (map_outcome V1.api_entry items) as [files |]; [| discriminate].
      intros [= <- _]. right. now exists files.
  - intros data Hnet Hf Hl Hd.
    unfold V1.tryApi3, bind, V1.axios_get, lift, ret, throw.
    fold nepcoder2_endpoint. rewrite Hnet.
    assert (Ht : truthy data = true).
    { destruct data; try discriminate Hd. reflexivity. }
    unfold jor, V1.formatApiResponse. rewrite Ht, Hf, Hd, Hl. reflexivity.
Qed.

(** X26.  On a page that comes as text, [tryDirectScrape] either returns a
    listing or raises "Could not parse page": whatever goes wrong while
    reading the embedded list is swallowed, and the page is not checked for
    a verification marker. *)
Theorem V1_scrape_swallows (url : str) (net : Net) (w : World) (html : str) :
  net (trace w) url
    [("User-Agent" : str, user_agent);
     ("Accept" : str, "text/html,application/xhtml+xml" : str)]
  = NetOk (JStr html) ->
  fst (V1.tryDirectScrape url net w) = Throw "Could not parse page" \/
  exists files,
    fst (V1.tryDirectScrape url net w) =
    Ret (obj [("success", JBool true);
              ("data", obj [("files", JArr files)]);
              ("source", JStr "scrape")]).
Proof.
  intros Hnet. unfold V1.tryDirectScrape, bind, V1.axios_get, lift.
  rewrite Hnet. cbn [fst]. unfold V1.scrape_html.
  destruct (search re_list html); [| now left].
  destruct (JSON_parse _) as [[] |]; try (now left).
  destruct (map_outcome V1.scrape_entry items) as [files |]; [| now left].
  right. now exists files.
Qed.

Lemma V1_scrape_swallows_witness :
  (fst (V1.tryDirectScrape "https://terabox.com/s/1abc"
          (fun _ _ _ => NetOk (JStr page_broken_list)) (mkWorld [] []))
   = Throw "Could not parse page" \/
   exists files,
     fst (V1.tryDirectScrape "https://terabox.com/s/1abc"
            (fun _ _ _ => NetOk (JStr page_broken_list)) (mkWorld [] []))
     = Ret (obj [("success", JBool true);
                 ("data", obj [("files", JArr files)]);
                 ("source", JStr "scrape")])) /\
  fst (V1.tryDirectScrape "https://terabox.com/s/1abc"
         (fun _ _ _ => NetOk (JStr "Please verify you are human"))
         (mkWorld [] []))
  = Throw "Could not parse page".
Proof.
  split; [| reflexivity].
  apply (V1_scrape_swallows "https://terabox.com/s/1abc"
           (fun _ _ _ => NetOk (JStr page_broken_list)) (mkWorld [] [])
           page_broken_list).
  reflexivity.
Defined.

(** ** The errors the strategies raise *)

Lemma jor_falsy (a b : JsVal) :
  truthy (jor a b) = false -> truthy a = false /\ truthy b = false.
Proof.
  unfold jor. destruct (truthy a) eqn:Ea; intros H; [congruence | now split].
Qed.

(** X27.  A mirror strategy of the four-strategy variant raises one of
    three errors only, decided by what the network answers to the one
    request it sends to its own endpoint: the failure of the request, with
    the network's message; "Empty response", when the answer is falsy; and
    "Invalid response format", when the answer is truthy and none of the
    fields the strategy looks for is ([file_name], [resolutions] and
    [download_link] for the first mirror, [file_name] and [download_link]
    for the second). *)
Theorem mirror_errors (url : str) (net : Net) (w : World) (e : str) :
  (let reply :=
     net (trace w) (nepcoder_endpoint ++ encodeURIComponent url)
       client_defaults in
   fst (tryNepCoderApi url net w) = Throw e <->
   reply = NetFail e \/
   exists data,
     reply = NetOk data /\
     ((e = "Empty response" /\ truthy data = false) \/
      (e = "Invalid response format" /\ truthy data = true /\
       truthy (field data "file_name") = false /\
       truthy (field data "resolutions") = false /\
       truthy (field data "download_link") = false))) /\
  (let reply :=
     net (trace w) (uday_endpoint ++ encodeURIComponent url)
       client_defaults in
   fst (tryUdayApi url net w) = Throw e <->
   reply = NetFail e \/
   exists data,
     reply = NetOk data /\
     ((e = "Empty response" /\ truthy data = false) \/
      (e = "Invalid response format" /\ truthy data = true /\
       truthy (field data "file_name") = false /\
       truthy (field data "download_link") = false))).
Proof.
  split; cbv zeta.
  - unfold tryNepCoderApi, bind, client_get, guard, ret, throw.
    change (filter _ client_defaults ++ []) with client_defaults.
    fold nepcoder_endpoint.
    destruct (net _ _ _) as [e' | data]; cbn [fst].
    + split; [intros [= <-]; now left |].
      intros [[= ->] | (data & [=] & _)]. reflexivity.
    + destruct (truthy data) eqn:Ed; cbn [fst].
      * destruct (truthy (jor _ _)) eqn:E; cbn [fst].
        -- split; [discriminate |].
           intros [[=] | (d & [= <-] & [[_ Hd] | (_ & _ & H1 & H2 & H3)])];
             [congruence |].
           unfold jor in E. rewrite H1, H2 in E. congruence.
        -- split.
           ++ intros [= <-]. right. exists data. split; [reflexivity |]. right.
              apply jor_falsy in E as [E1 E2]. apply jor_falsy in E1 as [E1 E3].
              now repeat split.
           ++ intros [[=] | (d & [= <-] & [[_ Hd] | (-> & _)])];
                [congruence | reflexivity].
      * split.
        -- intros [= <-]. right. exists data. split; [reflexivity |]. now left.
        -- intros [[=] | (d & [= <-] & [[-> _] | (_ & Hd & _)])];
             [reflexivity | congruence].
  - unfold tryUdayApi, bind, client_get, guard, ret, throw.
    change (filter _ client_defaults ++ []) with client_defaults.
    fold uday_endpoint.
    destruct (net _ _ _) as [e' | data]; cbn [fst].
    + split; [intros [= <-]; now left |].
      intros [[= ->] | (data & [=] & _)]. reflexivity.
    + destruct (truthy data) eqn:Ed; cbn [fst].
      * destruct (truthy (jor _ _)) eqn:E; cbn [fst].
        -- split; [discriminate |].
           intros [[=] | (d & [= <-] & [[_ Hd] | (_ & _ & H1 & H2)])];
             [congruence |].
           unfold jor in E. rewrite H1 in E. congruence.
        -- split.
           ++ intros [= <-]. right. exists data. split; [reflexivity |]. right.
              apply jor_falsy in E as [E1 E2].
              now repeat split.
           ++ intros [[=] | (d & [= <-] & [[_ Hd] | (-> & _)])];
                [congruence | reflexivity].
      * split.
        -- intros [= <-]. right. exists data. split; [reflexivity |]. now left.
        -- intros [[=] | (d & [= <-] & [[-> _] | (_ & Hd & _)])];
             [reflexivity | congruence].
Qed.

Lemma mirror_errors_witness :
  fst (tryUdayApi "https://terabox.com/s/1abc" silent (mkWorld [] []))
  = Throw "Empty response" /\
  fst (tryNepCoderApi "https://terabox.com/s/1abc"
         (fun _ _ _ => NetOk (obj [("errno", JInt 2)])) (mkWorld [] []))
  = Throw "Invalid response format".
Proof.
  split.
  - apply (proj2 (mirror_errors "https://terabox.com/s/1abc" silent
                    (mkWorld [] []) "Empty response")).
    right. exists (JStr ""). split; [reflexivity |]. left. now split.
  - apply (proj1 (mirror_errors "https://terabox.com/s/1abc"
                    (fun _ _ _ => NetOk (obj [("errno", JInt 2)]))
                    (mkWorld [] []) "Invalid response format")).
    right. exists (obj [("errno", JInt 2)]). split; [reflexivity |]. right.
    now repeat split.
Defined.

(** X28.  On a page that comes as text the page scrape raises one of three
    errors only: "Verification required", when the page holds a marker;
    "Parse error", when the list pattern matched; and "Could not extract
    data from page", when the filename pattern or the identifier pattern
    did not match. *)
Theorem scrape_errors (html e : str) :
  scrape_html html = Throw e ->
  (e = "Verification required" /\
   (includes html "verify" = true \/ includes html "验证" = true)) \/
  (e = "Parse error" /\ search re_list html <> None) \/
  (e = "Could not extract data from page" /\
   (search re_filename html = None \/ search re_fs_id html = None)).
Proof.
  unfold scrape_html.
  destruct (includes html "verify") eqn:Ev1; cbn [orb].
  { intros [= <-]. left. auto. }
  destruct (includes html "验证") eqn:Ev2.
  { intros [= <-]. left. auto. }
  assert (Hsingle : scrape_single html = Throw e ->
            e = "Could not extract data from page" /\
            (search re_filename html = None \/ search re_fs_id html = None)).
  { unfold scrape_single.
    destruct (search re_filename html); [| intros [= <-]; auto].
    destruct (search re_fs_id html); [discriminate | intros [= <-]; auto]. }
  destruct (search re_list html) as [cap |] eqn:El; [| auto].
  destruct (scrape_list (group1 cap)) as [[r |] | e'].
  - discriminate.
  - auto.
  - intros [= <-]. right; left. split; [reflexivity | discriminate].
Qed.

Lemma scrape_errors_witness :
  (lit "Parse error" = "Verification required" /\
   (includes page_broken_list "verify" = true \/
    includes page_broken_list "验证" = true)) \/
  (lit "Parse error" = "Parse error" /\ search re_list page_broken_list <> None) \/
  (lit "Parse error" = "Could not extract data from page" /\
   (search re_filename page_broken_list = None \/
    search re_fs_id page_broken_list = None)).
Proof. exact (scrape_errors page_broken_list "Parse error" eq_refl). Defined.
